(** * TCP LEO: handover suspension and the CUBIC/HyStart window engine

    A shallow embedding of [src/tcp_leo.c] (the stand-alone handover module)
    and [src/tcp_leo_cubic.c] (CUBIC with the handover logic built in), with
    the properties of the specification stated over it.

    Conventions.  Every C integer is a [Z] kept inside the range of its C
    type; the wrap-around of each operation is written with [to_u32],
    [to_u64], [to_s32] and [to_s64].  The target is LP64 ([long] has 64 bits,
    as on x86-64, the only architecture the sources name).  Kernel services
    that are not part of the repository ([HZ], [msecs_to_jiffies],
    [usecs_to_jiffies], the clocks) are arguments of the functions that use
    them. *)

From Stdlib Require Import ZArith Lia List Bool Reals Lra.
Import ListNotations.
Local Open Scope Z_scope.

(** ** Machine integers *)

Module Mach.

Definition to_u8 (x : Z) : Z := x mod 2 ^ 8.
Definition to_u32 (x : Z) : Z := x mod 2 ^ 32.
Definition to_u64 (x : Z) : Z := x mod 2 ^ 64.

Definition to_s32 (x : Z) : Z :=
  let y := x mod 2 ^ 32 in if y <? 2 ^ 31 then y else y - 2 ^ 32.

Definition to_s64 (x : Z) : Z :=
  let y := x mod 2 ^ 64 in if y <? 2 ^ 63 then y else y - 2 ^ 64.

Definition is_int (x : Z) : Prop := - 2 ^ 31 <= x < 2 ^ 31.
Definition is_u32 (x : Z) : Prop := 0 <= x < 2 ^ 32.
Definition is_u64 (x : Z) : Prop := 0 <= x < 2 ^ 64.
Definition is_s64 (x : Z) : Prop := - 2 ^ 63 <= x < 2 ^ 63.

End Mach.
Import Mach.

(** ** Kernel constants used by both files *)

Definition NSEC_PER_SEC : Z := 1000000000.
Definition NSEC_PER_MSEC : Z := 1000000.
Definition SEC_PER_MIN : Z := 60.
Definition NSEC_PER_MIN : Z := SEC_PER_MIN * NSEC_PER_SEC.

(** ** The handover offsets

    [__LEO_HANDOVER_OFFSET] of [tcp_leo.c] and [__STARLINK_HANDOVER_OFFSET] of
    [tcp_leo_cubic.c] are the same macro under two names: the [int] module
    parameter is converted to [u64] and compared with the maximum. *)

Definition HANDOVER_OFFSET_DEFAULT : Z := 200.
Definition HANDOVER_OFFSET_MAX : Z := 1000.

Definition HANDOVER_OFFSET (v : Z) : Z :=
  if to_u64 v <=? HANDOVER_OFFSET_MAX then to_u64 v else HANDOVER_OFFSET_MAX.

Definition HANDOVER_TIME (HZ : Z) : Z := to_u64 (12 * NSEC_PER_SEC * HZ).
Definition HANDOVER_TIME_JITTER (HZ : Z) : Z := to_u64 (10 * NSEC_PER_MSEC * HZ).
Definition HANDOVER_INTERVAL (HZ : Z) : Z := to_u64 (15 * NSEC_PER_SEC * HZ).

(** A clamp of [v] to the range [0, 1000], for comparison with the macro:
    values below the range go to 0, values above it to 1000. *)
Definition clamp_to_offset_range (v : Z) : Z :=
  Z.max 0 (Z.min v HANDOVER_OFFSET_MAX).

(** [start_ms] and [end_ms] are the two module parameters. *)
Definition HANDOVER_START (HZ start_ms : Z) : Z :=
  to_u64 (HANDOVER_TIME HZ - to_u64 (HANDOVER_OFFSET start_ms * NSEC_PER_MSEC * HZ)).
Definition HANDOVER_END (HZ end_ms : Z) : Z :=
  to_u64 (HANDOVER_TIME HZ + to_u64 (HANDOVER_OFFSET end_ms * NSEC_PER_MSEC * HZ)).

(** ** The phase clock

    [leo_jiffies_base_compute]/[leo_jiffies] of [tcp_leo.c]; the functions
    [starlink_jiffies_base_compute]/[starlink_jiffies] of [tcp_leo_cubic.c]
    have the same bodies. *)

Module PhaseClock.

(** The wall clock as [ktime_get_real_ts64] returns it. *)
Record timespec64 := { tv_sec : Z; tv_nsec : Z }.

(** [%] of C truncates towards zero: [Z.rem]. *)
Definition leo_jiffies_base_compute (HZ : Z) (tv : timespec64) (jiffies_64 : Z) : Z :=
  let sjiffies :=
    to_s64 ((Z.rem (tv_sec tv) SEC_PER_MIN * NSEC_PER_SEC + tv_nsec tv) * HZ) in
  (* s64 -= u64: computed on u64, stored back into the s64 *)
  to_s64 (to_u64 sjiffies - to_u64 (jiffies_64 * NSEC_PER_SEC)).

Definition leo_jiffies (HZ : Z) (leo_jiffies_base jiffies_64 : Z) : Z :=
  let njiffies := to_u64 (to_u64 leo_jiffies_base + to_u64 (jiffies_64 * NSEC_PER_SEC)) in
  njiffies mod to_u64 (NSEC_PER_MIN * HZ).

(** The wall-clock phase within the minute, in tick units: what the clock
    is meant to read. *)
Definition wall_phase (HZ : Z) (tv : timespec64) : Z :=
  ((tv_sec tv mod SEC_PER_MIN) * NSEC_PER_SEC + tv_nsec tv) * HZ.

(** [is_leo_handover] / [is_starlink_handover]. *)
Definition is_leo_handover (HZ start_ms end_ms : Z) (now_in_cycle : Z) : bool :=
  let njiffies := now_in_cycle mod HANDOVER_INTERVAL HZ in
  (HANDOVER_START HZ start_ms <=? njiffies) && (njiffies <=? HANDOVER_END HZ end_ms).

End PhaseClock.

(** ** [tcp_leo.c]: the stand-alone handover module

    The module keeps no copy of the congestion window: [struct leo] holds a
    pointer [last_snd_cwnd] into storage owned by the congestion-control
    module that called [leo_init].  The pointed-to cell is the field
    [last_snd_cwnd_cell] of the state below; nothing in [tcp_leo.c] writes
    it.  The build modelled is the default one ([LEO_HANDOVER_TIMER_ONLY] and
    [TCP_LEO] undefined). *)

Module Leo.

Record sock := mk_sock {
  snd_cwnd : Z;               (* tp->snd_cwnd, u32 *)
  icsk_timeout : Z;           (* icsk->icsk_timeout, unsigned long *)
  sk_socket : bool;           (* sk->sk_socket != NULL *)
  sock_nospace : bool;        (* SOCK_NOSPACE bit of sk->sk_socket->flags *)
  write_space_calls : nat;    (* number of calls of sk->sk_write_space *)
  last_snd_cwnd_cell : Z;     (* *leo->last_snd_cwnd, owned by the caller *)
  handover_timer : option Z   (* expiry of leo->handover_timer when armed *)
}.

Definition set_snd_cwnd (v : Z) (sk : sock) : sock :=
  mk_sock v (icsk_timeout sk) (sk_socket sk) (sock_nospace sk)
          (write_space_calls sk) (last_snd_cwnd_cell sk) (handover_timer sk).

Definition set_icsk_timeout (v : Z) (sk : sock) : sock :=
  mk_sock (snd_cwnd sk) v (sk_socket sk) (sock_nospace sk)
          (write_space_calls sk) (last_snd_cwnd_cell sk) (handover_timer sk).

Definition call_write_space (sk : sock) : sock :=
  mk_sock (snd_cwnd sk) (icsk_timeout sk) (sk_socket sk) (sock_nospace sk)
          (S (write_space_calls sk)) (last_snd_cwnd_cell sk) (handover_timer sk).

Definition sk_reset_timer (expires : Z) (sk : sock) : sock :=
  mk_sock (snd_cwnd sk) (icsk_timeout sk) (sk_socket sk) (sock_nospace sk)
          (write_space_calls sk) (last_snd_cwnd_cell sk) (Some expires).

Section Functions.

Variable HZ : Z.
(** [msecs_to_jiffies] of the kernel: an [unsigned int] number of
    milliseconds to an [unsigned long] number of ticks. *)
Variable msecs_to_jiffies : Z -> Z.
(** The module parameters, both [int]. *)
Variables leo_handover_start_ms leo_handover_end_ms : Z.

(** The [int] sum is returned as [unsigned long]. *)
Definition leo_handover_duration : Z :=
  to_u64 (to_s32 (leo_handover_start_ms + leo_handover_end_ms)).

(** The snapshot of the window is compiled out ([#if 0]). *)
Definition leo_suspend_transmission (sk : sock) : sock :=
  let sk := set_snd_cwnd 0 sk in
  if icsk_timeout sk =? 0 then sk
  else set_icsk_timeout
         (to_u64 (icsk_timeout sk + msecs_to_jiffies (to_u32 leo_handover_duration))) sk.

(** [tcp_snd_cwnd_set (tp, max (1, last_snd_cwnd))]. *)
Definition leo_resume_transmission (sk : sock) (last_snd_cwnd : Z) : sock :=
  set_snd_cwnd (Z.max 1 last_snd_cwnd) sk.

Definition leo_handover_start (sk : sock) : sock :=
  if snd_cwnd sk =? 0 then sk else leo_suspend_transmission sk.

Definition leo_handover_end (sk : sock) (last_snd_cwnd : Z) : sock :=
  if negb (snd_cwnd sk =? 0) then sk
  else
    let sk := leo_resume_transmission sk last_snd_cwnd in
    if sk_socket sk && sock_nospace sk then call_write_space sk else sk.

(** [now] is the value of [leo_jiffies ()], [jiffies] the tick counter. *)
Definition leo_handover_timer_reset (now jiffies : Z) (sk : sock) : sock :=
  let njiffies := now mod HANDOVER_INTERVAL HZ in
  let START := HANDOVER_START HZ leo_handover_start_ms in
  let END_ := HANDOVER_END HZ leo_handover_end_ms in
  let timo :=
    if njiffies <? START then to_s64 (START - njiffies)
    else if njiffies <? END_ then to_s64 (END_ - njiffies)
    else to_s64 (to_u64 (START + HANDOVER_INTERVAL HZ) - njiffies) in
  let timo := Z.quot timo NSEC_PER_SEC in
  let timo := if timo <=? 0 then 1 else timo in
  sk_reset_timer (to_u64 (jiffies + timo)) sk.

Definition leo_handover_check (now : Z) (sk : sock) (last_snd_cwnd : Z) : bool * sock :=
  if PhaseClock.is_leo_handover HZ leo_handover_start_ms leo_handover_end_ms now then
    (true, if negb (snd_cwnd sk =? 0) then leo_handover_start sk else sk)
  else
    (false, if snd_cwnd sk =? 0 then leo_handover_end sk last_snd_cwnd else sk).

Definition leo_handover (now jiffies : Z) (sk : sock) : sock :=
  let njiffies := now mod HANDOVER_INTERVAL HZ in
  let early := to_u64 (njiffies + HANDOVER_TIME_JITTER HZ) in
  let sk :=
    if HANDOVER_END HZ leo_handover_end_ms <=? early then
      leo_handover_end sk (last_snd_cwnd_cell sk)
    else if HANDOVER_START HZ leo_handover_start_ms <=? early then
      leo_handover_start sk
    else if snd_cwnd sk =? 0 then
      leo_handover_end sk (last_snd_cwnd_cell sk)
    else sk in
  leo_handover_timer_reset now jiffies sk.

(** [allocated] tells whether [kmalloc] returned memory for [struct leo];
    when it did not, [leo_init] returns at once.  The caller's pointer is
    kept in [leo->last_snd_cwnd]; what it points to is
    [last_snd_cwnd_cell]. *)
Definition leo_init (allocated : bool) (now jiffies : Z) (sk : sock) : sock :=
  if negb allocated then sk
  else
    let sk :=
      if PhaseClock.is_leo_handover HZ leo_handover_start_ms leo_handover_end_ms now
      then leo_suspend_transmission sk else sk in
    leo_handover_timer_reset now jiffies sk.

(** [leo_finish] frees [struct leo], and the timer with it. *)
Definition leo_finish (sk : sock) : sock :=
  mk_sock (snd_cwnd sk) (icsk_timeout sk) (sk_socket sk) (sock_nospace sk)
          (write_space_calls sk) (last_snd_cwnd_cell sk) None.

(** The timer callback.  [owned_by_user] is [sock_owned_by_user (sk)] and
    [established] tells whether [sk->sk_state] is [TCP_ESTABLISHED]. *)
Definition leo_handover_cb (owned_by_user established : bool) (now jiffies : Z)
    (sk : sock) : sock :=
  if owned_by_user then sk_reset_timer (to_u64 (jiffies + 1)) sk
  else if negb established then leo_finish sk
  else leo_handover now jiffies sk.

End Functions.

End Leo.

(** ** Outcomes of code that can go wrong

    [Fault] stands for the three ways the C code can fail to return a value:
    a division by zero, a read past the end of the cube-root table, and a
    loop that never exits. *)

Inductive fault := DivisionByZero | TableOverrun | Diverges.

Inductive res (A : Type) : Type :=
| Ok (a : A)
| Fault (f : fault).
Arguments Ok {A} a.
Arguments Fault {A} f.

Definition bind {A B : Type} (c : res A) (k : A -> res B) : res B :=
  match c with
  | Ok a => k a
  | Fault f => Fault f
  end.

Notation "x <- c ;; k" := (bind c (fun x => k))
  (at level 61, c at next level, right associativity).

(** ** [tcp_leo_cubic.c]: CUBIC with HyStart and the handover logic *)

Module LeoCubic.

Definition BICTCP_BETA_SCALE : Z := 1024.
Definition BICTCP_HZ : Z := 10.
Definition HYSTART_ACK_TRAIN : Z := 1.
Definition HYSTART_DELAY : Z := 2.
Definition HYSTART_MIN_SAMPLES : Z := 8.
Definition HYSTART_DELAY_MIN : Z := 4000.
Definition HYSTART_DELAY_MAX : Z := 16000.

(** [clamp (x, lo, hi)] of the kernel is [min (max (x, lo), hi)]. *)
Definition clamp (x lo hi : Z) : Z := Z.min (Z.max x lo) hi.
Definition HYSTART_DELAY_THRESH (x : Z) : Z :=
  clamp x HYSTART_DELAY_MIN HYSTART_DELAY_MAX.

(** Kernel constants and conversions the file uses. *)
Definition USEC_PER_MSEC : Z := 1000.
Definition USEC_PER_SEC : Z := 1000000.
Definition TCP_CA_Loss : Z := 4.
Definition TCP_INFINITE_SSTHRESH : Z := 2147483647.

Record kernel := mk_kernel {
  HZ : Z;                        (* ticks per second, positive *)
  usecs_to_jiffies : Z -> Z      (* unsigned int -> unsigned long *)
}.

(** The module parameters ([static int ... __read_mostly]) and the three
    values [cubictcp_register] computes from them. *)
Record globals := mk_globals {
  fast_convergence : Z;
  beta : Z;
  initial_ssthresh : Z;
  bic_scale : Z;
  tcp_friendliness : Z;
  hystart : Z;
  hystart_detect : Z;
  hystart_low_window : Z;
  hystart_ack_delta_us : Z;
  starlink_handover_start_ms : Z;
  starlink_handover_end_ms : Z;
  cube_rtt_scale : Z;            (* u32 *)
  beta_scale : Z;                (* u32 *)
  cube_factor : Z                (* u64 *)
}.

(** The part of [cubictcp_register] that fills the three statics: [int]
    arithmetic ([/] truncates: [Z.quot]) stored into [u32] or [u64]. *)
Definition register_beta_scale (beta : Z) : Z :=
  to_u32 (Z.quot (Z.quot (8 * (BICTCP_BETA_SCALE + beta)) 3) (BICTCP_BETA_SCALE - beta)).
Definition register_cube_rtt_scale (bic_scale : Z) : Z := to_u32 (bic_scale * 10).
Definition register_cube_factor (bic_scale : Z) : Z :=
  Z.shiftl 1 (10 + 3 * BICTCP_HZ) / to_u32 (bic_scale * 10).

Definition cubictcp_register (g : globals) : globals :=
  mk_globals (fast_convergence g) (beta g) (initial_ssthresh g) (bic_scale g)
    (tcp_friendliness g) (hystart g) (hystart_detect g) (hystart_low_window g)
    (hystart_ack_delta_us g) (starlink_handover_start_ms g)
    (starlink_handover_end_ms g)
    (register_cube_rtt_scale (bic_scale g))
    (register_beta_scale (beta g))
    (register_cube_factor (bic_scale g)).

(** The initialisers of the file, after [cubictcp_register]. *)
Definition default_globals : globals :=
  cubictcp_register
    (mk_globals 1 717 0 41 1 1 (Z.lor HYSTART_ACK_TRAIN HYSTART_DELAY) 16 2000
                HANDOVER_OFFSET_DEFAULT HANDOVER_OFFSET_DEFAULT 0 0 0).

(** [struct bictcp]. *)
Record bictcp := mk_bictcp {
  cnt : Z;
  last_max_cwnd : Z;
  last_cwnd : Z;
  last_time : Z;
  bic_origin_point : Z;
  bic_K : Z;
  delay_min : Z;
  epoch_start : Z;
  ack_cnt : Z;
  tcp_cwnd : Z;
  sample_cnt : Z;               (* u8 *)
  found : Z;                    (* u8 *)
  round_start : Z;
  end_seq : Z;
  last_ack : Z;
  curr_rtt : Z;
  handover_free_pending : bool
}.

Definition set_cnt v (c : bictcp) :=
  mk_bictcp v (last_max_cwnd c) (last_cwnd c) (last_time c) (bic_origin_point c)
    (bic_K c) (delay_min c) (epoch_start c) (ack_cnt c) (tcp_cwnd c) (sample_cnt c)
    (found c) (round_start c) (end_seq c) (last_ack c) (curr_rtt c)
    (handover_free_pending c).
Definition set_last_max_cwnd v (c : bictcp) :=
  mk_bictcp (cnt c) v (last_cwnd c) (last_time c) (bic_origin_point c)
    (bic_K c) (delay_min c) (epoch_start c) (ack_cnt c) (tcp_cwnd c) (sample_cnt c)
    (found c) (round_start c) (end_seq c) (last_ack c) (curr_rtt c)
    (handover_free_pending c).
Definition set_last_cwnd v (c : bictcp) :=
  mk_bictcp (cnt c) (last_max_cwnd c) v (last_time c) (bic_origin_point c)
    (bic_K c) (delay_min c) (epoch_start c) (ack_cnt c) (tcp_cwnd c) (sample_cnt c)
    (found c) (round_start c) (end_seq c) (last_ack c) (curr_rtt c)
    (handover_free_pending c).
Definition set_last_time v (c : bictcp) :=
  mk_bictcp (cnt c) (last_max_cwnd c) (last_cwnd c) v (bic_origin_point c)
    (bic_K c) (delay_min c) (epoch_start c) (ack_cnt c) (tcp_cwnd c) (sample_cnt c)
    (found c) (round_start c) (end_seq c) (last_ack c) (curr_rtt c)
    (handover_free_pending c).
Definition set_bic_origin_point v (c : bictcp) :=
  mk_bictcp (cnt c) (last_max_cwnd c) (last_cwnd c) (last_time c) v
    (bic_K c) (delay_min c) (epoch_start c) (ack_cnt c) (tcp_cwnd c) (sample_cnt c)
    (found c) (round_start c) (end_seq c) (last_ack c) (curr_rtt c)
    (handover_free_pending c).
Definition set_bic_K v (c : bictcp) :=
  mk_bictcp (cnt c) (last_max_cwnd c) (last_cwnd c) (last_time c) (bic_origin_point c)
    v (delay_min c) (epoch_start c) (ack_cnt c) (tcp_cwnd c) (sample_cnt c)
    (found c) (round_start c) (end_seq c) (last_ack c) (curr_rtt c)
    (handover_free_pending c).
Definition set_delay_min v (c : bictcp) :=
  mk_bictcp (cnt c) (last_max_cwnd c) (last_cwnd c) (last_time c) (bic_origin_point c)
    (bic_K c) v (epoch_start c) (ack_cnt c) (tcp_cwnd c) (sample_cnt c)
    (found c) (round_start c) (end_seq c) (last_ack c) (curr_rtt c)
    (handover_free_pending c).
Definition set_epoch_start v (c : bictcp) :=
  mk_bictcp (cnt c) (last_max_cwnd c) (last_cwnd c) (last_time c) (bic_origin_point c)
    (bic_K c) (delay_min c) v (ack_cnt c) (tcp_cwnd c) (sample_cnt c)
    (found c) (round_start c) (end_seq c) (last_ack c) (curr_rtt c)
    (handover_free_pending c).
Definition set_ack_cnt v (c : bictcp) :=
  mk_bictcp (cnt c) (last_max_cwnd c) (last_cwnd c) (last_time c) (bic_origin_point c)
    (bic_K c) (delay_min c) (epoch_start c) v (tcp_cwnd c) (sample_cnt c)
    (found c) (round_start c) (end_seq c) (last_ack c) (curr_rtt c)
    (handover_free_pending c).
Definition set_tcp_cwnd v (c : bictcp) :=
  mk_bictcp (cnt c) (last_max_cwnd c) (last_cwnd c) (last_time c) (bic_origin_point c)
    (bic_K c) (delay_min c) (epoch_start c) (ack_cnt c) v (sample_cnt c)
    (found c) (round_start c) (end_seq c) (last_ack c) (curr_rtt c)
    (handover_free_pending c).
Definition set_sample_cnt v (c : bictcp) :=
  mk_bictcp (cnt c) (last_max_cwnd c) (last_cwnd c) (last_time c) (bic_origin_point c)
    (bic_K c) (delay_min c) (epoch_start c) (ack_cnt c) (tcp_cwnd c) v
    (found c) (round_start c) (end_seq c) (last_ack c) (curr_rtt c)
    (handover_free_pending c).
Definition set_found v (c : bictcp) :=
  mk_bictcp (cnt c) (last_max_cwnd c) (last_cwnd c) (last_time c) (bic_origin_point c)
    (bic_K c) (delay_min c) (epoch_start c) (ack_cnt c) (tcp_cwnd c) (sample_cnt c)
    v (round_start c) (end_seq c) (last_ack c) (curr_rtt c)
    (handover_free_pending c).
Definition set_round_start v (c : bictcp) :=
  mk_bictcp (cnt c) (last_max_cwnd c) (last_cwnd c) (last_time c) (bic_origin_point c)
    (bic_K c) (delay_min c) (epoch_start c) (ack_cnt c) (tcp_cwnd c) (sample_cnt c)
    (found c) v (end_seq c) (last_ack c) (curr_rtt c)
    (handover_free_pending c).
Definition set_end_seq v (c : bictcp) :=
  mk_bictcp (cnt c) (last_max_cwnd c) (last_cwnd c) (last_time c) (bic_origin_point c)
    (bic_K c) (delay_min c) (epoch_start c) (ack_cnt c) (tcp_cwnd c) (sample_cnt c)
    (found c) (round_start c) v (last_ack c) (curr_rtt c)
    (handover_free_pending c).
Definition set_last_ack v (c : bictcp) :=
  mk_bictcp (cnt c) (last_max_cwnd c) (last_cwnd c) (last_time c) (bic_origin_point c)
    (bic_K c) (delay_min c) (epoch_start c) (ack_cnt c) (tcp_cwnd c) (sample_cnt c)
    (found c) (round_start c) (end_seq c) v (curr_rtt c)
    (handover_free_pending c).
Definition set_curr_rtt v (c : bictcp) :=
  mk_bictcp (cnt c) (last_max_cwnd c) (last_cwnd c) (last_time c) (bic_origin_point c)
    (bic_K c) (delay_min c) (epoch_start c) (ack_cnt c) (tcp_cwnd c) (sample_cnt c)
    (found c) (round_start c) (end_seq c) (last_ack c) v
    (handover_free_pending c).
Definition set_handover_free_pending v (c : bictcp) :=
  mk_bictcp (cnt c) (last_max_cwnd c) (last_cwnd c) (last_time c) (bic_origin_point c)
    (bic_K c) (delay_min c) (epoch_start c) (ack_cnt c) (tcp_cwnd c) (sample_cnt c)
    (found c) (round_start c) (end_seq c) (last_ack c) (curr_rtt c) v.

(** The socket: the fields of [struct tcp_sock], [struct sock] and
    [struct inet_connection_sock] the file reads or writes, with the
    private area [inet_csk_ca (sk)] as the field [ca]. *)
Record sock := mk_sock {
  snd_cwnd : Z;                 (* u32 *)
  snd_ssthresh : Z;             (* u32 *)
  snd_una : Z;                  (* u32 *)
  snd_nxt : Z;                  (* u32 *)
  lsndtime : Z;                 (* u32 *)
  icsk_timeout : Z;             (* unsigned long; never written by this file *)
  tcp_mstamp : Z;               (* u64 *)
  sk_pacing_rate : Z;           (* unsigned long *)
  sk_pacing_none : bool;        (* sk_pacing_status == SK_PACING_NONE *)
  sk_gso_max_size : Z;          (* unsigned int *)
  sk_socket : bool;             (* sk->sk_socket != NULL *)
  sock_nospace : bool;          (* SOCK_NOSPACE bit *)
  write_space_calls : nat;      (* number of calls of sk->sk_write_space *)
  handover_timer : option Z;    (* expiry of ca->handover_timer when armed *)
  ca : bictcp
}.

Definition set_snd_cwnd v (s : sock) :=
  mk_sock v (snd_ssthresh s) (snd_una s) (snd_nxt s) (lsndtime s) (icsk_timeout s) (tcp_mstamp s)
    (sk_pacing_rate s) (sk_pacing_none s) (sk_gso_max_size s) (sk_socket s)
    (sock_nospace s) (write_space_calls s) (handover_timer s) (ca s).
Definition set_snd_ssthresh v (s : sock) :=
  mk_sock (snd_cwnd s) v (snd_una s) (snd_nxt s) (lsndtime s) (icsk_timeout s) (tcp_mstamp s)
    (sk_pacing_rate s) (sk_pacing_none s) (sk_gso_max_size s) (sk_socket s)
    (sock_nospace s) (write_space_calls s) (handover_timer s) (ca s).
Definition call_write_space (s : sock) :=
  mk_sock (snd_cwnd s) (snd_ssthresh s) (snd_una s) (snd_nxt s) (lsndtime s)
    (icsk_timeout s) (tcp_mstamp s) (sk_pacing_rate s) (sk_pacing_none s) (sk_gso_max_size s)
    (sk_socket s) (sock_nospace s) (S (write_space_calls s)) (handover_timer s) (ca s).
Definition sk_reset_timer (expires : Z) (s : sock) :=
  mk_sock (snd_cwnd s) (snd_ssthresh s) (snd_una s) (snd_nxt s) (lsndtime s)
    (icsk_timeout s) (tcp_mstamp s) (sk_pacing_rate s) (sk_pacing_none s) (sk_gso_max_size s)
    (sk_socket s) (sock_nospace s) (write_space_calls s) (Some expires) (ca s).
Definition sk_stop_timer (s : sock) :=
  mk_sock (snd_cwnd s) (snd_ssthresh s) (snd_una s) (snd_nxt s) (lsndtime s)
    (icsk_timeout s) (tcp_mstamp s) (sk_pacing_rate s) (sk_pacing_none s) (sk_gso_max_size s)
    (sk_socket s) (sock_nospace s) (write_space_calls s) None (ca s).
Definition set_ca (c : bictcp) (s : sock) :=
  mk_sock (snd_cwnd s) (snd_ssthresh s) (snd_una s) (snd_nxt s) (lsndtime s)
    (icsk_timeout s) (tcp_mstamp s) (sk_pacing_rate s) (sk_pacing_none s) (sk_gso_max_size s)
    (sk_socket s) (sock_nospace s) (write_space_calls s) (handover_timer s) c.

(** Kernel inlines of [include/net/tcp.h] used below. *)
Definition tcp_in_slow_start (s : sock) : bool := snd_cwnd s <? snd_ssthresh s.
(** [after (seq2, seq1)] is [(s32)(seq1 - seq2) < 0]. *)
Definition after (seq2 seq1 : Z) : bool := to_s32 (seq1 - seq2) <? 0.

(** [memset] up to [unused], then [found]. *)
Definition bictcp_reset (c : bictcp) : bictcp :=
  mk_bictcp 0 0 0 0 0 0 0 0 0 0 (sample_cnt c) 0 (round_start c) (end_seq c)
            (last_ack c) (curr_rtt c) (handover_free_pending c).

Definition bictcp_clock_us (s : sock) : Z := to_u32 (tcp_mstamp s).

Definition bictcp_hystart_reset (s : sock) : sock :=
  let now := bictcp_clock_us s in
  set_ca (set_sample_cnt 0
           (set_curr_rtt (to_u32 (-1))
             (set_end_seq (snd_nxt s)
               (set_round_start now (set_last_ack now (ca s)))))) s.

(** *** The transmission gate and the handover timer *)

Definition is_starlink_handover (k : kernel) (g : globals) (phase : Z) : bool :=
  PhaseClock.is_leo_handover (HZ k) (starlink_handover_start_ms g)
                             (starlink_handover_end_ms g) phase.

Definition leo_suspend_transmission (s : sock) : sock :=
  let s := set_ca (set_last_cwnd (snd_cwnd s) (ca s)) s in
  set_snd_cwnd 0 s.

(** [tcp_snd_cwnd_set (tp, max (1, ca->last_cwnd))]. *)
Definition leo_resume_transmission (s : sock) : sock :=
  set_snd_cwnd (Z.max 1 (last_cwnd (ca s))) s.

(** [phase] is the value of [starlink_jiffies ()], [jiffies] the tick
    counter. *)
Definition leo_handover_timer_reset (k : kernel) (g : globals) (phase jiffies : Z)
    (s : sock) : sock :=
  let njiffies := phase mod HANDOVER_INTERVAL (HZ k) in
  let START := HANDOVER_START (HZ k) (starlink_handover_start_ms g) in
  let END_ := HANDOVER_END (HZ k) (starlink_handover_end_ms g) in
  let timo :=
    if njiffies <? START then to_s64 (START - njiffies)
    else if njiffies <? END_ then to_s64 (END_ - njiffies)
    else to_s64 (to_u64 (START + HANDOVER_INTERVAL (HZ k)) - njiffies) in
  let timo := Z.quot timo NSEC_PER_SEC in
  let timo := if timo <=? 0 then 1 else timo in
  sk_reset_timer (to_u64 (jiffies + timo)) s.

Definition leo_handover_start (s : sock) : sock :=
  if snd_cwnd s =? 0 then s else leo_suspend_transmission s.

Definition leo_handover_end (s : sock) : sock :=
  if negb (snd_cwnd s =? 0) then s
  else
    let s := leo_resume_transmission s in
    if sk_socket s && sock_nospace s then call_write_space s else s.

Definition leo_handover (k : kernel) (g : globals) (phase jiffies : Z) (s : sock) : sock :=
  let njiffies := phase mod HANDOVER_INTERVAL (HZ k) in
  let early := to_u64 (njiffies + HANDOVER_TIME_JITTER (HZ k)) in
  let s :=
    if HANDOVER_END (HZ k) (starlink_handover_end_ms g) <=? early then leo_handover_end s
    else if HANDOVER_START (HZ k) (starlink_handover_start_ms g) <=? early then
      leo_handover_start s
    else if snd_cwnd s =? 0 then leo_handover_end s
    else s in
  leo_handover_timer_reset k g phase jiffies s.

Definition leo_handover_timer_init (k : kernel) (g : globals) (phase jiffies : Z)
    (s : sock) : sock :=
  let s := if is_starlink_handover k g phase then leo_suspend_transmission s else s in
  let s := leo_handover_timer_reset k g phase jiffies s in
  set_ca (set_handover_free_pending false (ca s)) s.

(** The reference count dropped by [sock_put] is not part of the state. *)
Definition leo_handover_timer_finish (s : sock) : sock :=
  let s := sk_stop_timer s in
  set_ca (set_handover_free_pending false (ca s)) s.

Definition cubictcp_init (k : kernel) (g : globals) (phase jiffies : Z) (s : sock) : sock :=
  let s := set_ca (bictcp_reset (ca s)) s in
  let s := if negb (hystart g =? 0) then bictcp_hystart_reset s else s in
  let s :=
    if (hystart g =? 0) && negb (initial_ssthresh g =? 0)
    then set_snd_ssthresh (to_u32 (initial_ssthresh g)) s else s in
  leo_handover_timer_init k g phase jiffies s.

Definition leo_release (s : sock) : sock := leo_handover_timer_finish s.

(** The timer callback; [owned_by_user] is [sock_owned_by_user (sk)].  On a
    socket owned by the user it only raises [handover_free_pending] (and
    takes a reference): [sk_reset_timer] is not called. *)
Definition leo_handover_cb (k : kernel) (g : globals) (owned_by_user : bool)
    (phase jiffies : Z) (s : sock) : sock :=
  if negb owned_by_user then leo_handover k g phase jiffies s
  else if negb (handover_free_pending (ca s)) then
    set_ca (set_handover_free_pending true (ca s)) s
  else s.

(** [now] is [tcp_jiffies32]; [event_is_tx_start] tells whether the event
    is [CA_EVENT_TX_START]. *)
Definition cubictcp_cwnd_event (now : Z) (event_is_tx_start : bool) (s : sock) : sock :=
  if event_is_tx_start then
    let delta := to_s32 (now - lsndtime s) in
    if negb (epoch_start (ca s) =? 0) && (0 <? delta) then
      let e := to_u32 (epoch_start (ca s) + delta) in
      let e := if after e now then now else e in
      set_ca (set_epoch_start e (ca s)) s
    else s
  else s.

(** *** The cube root *)

Definition v : list Z :=
  [   0;  54;  54;  54; 118; 118; 118; 118;
    123; 129; 134; 138; 143; 147; 151; 156;
    157; 161; 164; 168; 170; 173; 176; 179;
    181; 185; 187; 190; 192; 194; 197; 199;
    200; 202; 204; 206; 209; 211; 213; 215;
    217; 219; 221; 222; 224; 225; 227; 229;
    231; 232; 234; 236; 237; 239; 240; 242;
    244; 245; 246; 248; 250; 251; 252; 254 ].

(** [fls64] of the kernel: the position of the most significant set bit,
    counted from 1, and 0 for 0. *)
Definition fls64 (a : Z) : Z := if a =? 0 then 0 else Z.log2 a + 1.

(** A read of the table; past its end the C code has no defined value. *)
Definition v_at (i : Z) : res Z :=
  match nth_error v (Z.to_nat i) with
  | Some x => Ok x
  | None => Fault TableOverrun
  end.

Definition div64_u64 (dividend divisor : Z) : res Z :=
  if divisor =? 0 then Fault DivisionByZero else Ok (dividend / divisor).

(** The estimate [x] read from the table, before the Newton-Raphson step. *)
Definition cubic_root_estimate (a : Z) : res Z :=
  let b := to_u32 (fls64 a) in
  let b := to_u32 (Z.shiftr (to_u32 (b * 84)) 8 - 1) in
  let shift := to_u32 (Z.shiftr a (to_u32 (b * 3))) in
  t <- v_at shift ;;
  Ok (Z.shiftr (to_u32 (Z.shiftl (to_u32 (t + 10)) b)) 6).

Definition cubic_root (a : Z) : res Z :=
  let b := to_u32 (fls64 a) in
  if b <? 7 then
    t <- v_at (to_u32 a) ;;
    Ok (Z.shiftr (to_u32 (t + 35)) 6)
  else
    x <- cubic_root_estimate a ;;
    q <- div64_u64 a (to_u64 (x * to_u32 (x - 1))) ;;
    let x := to_u32 (to_u32 (2 * x) + to_u32 q) in
    Ok (Z.shiftr (to_u32 (x * 341)) 10).

(** *** The window engine *)

(** The [while] loop of the TCP-friendliness block.  Each turn takes
    [delta] off [ack_cnt]; with [delta = 0] and [ack_cnt > 0] the C loop
    never exits.  [fuel] bounds the number of turns unrolled. *)
Fixpoint tcp_cwnd_loop (fuel : nat) (delta ack_cnt tcp_cwnd : Z) : res (Z * Z) :=
  if delta <? ack_cnt then
    match fuel with
    | O => Fault Diverges
    | S fuel => tcp_cwnd_loop fuel delta (to_u32 (ack_cnt - delta)) (to_u32 (tcp_cwnd + 1))
    end
  else Ok (ack_cnt, tcp_cwnd).

(** From the label [tcp_friendliness] to the end of [bictcp_update]. *)
Definition bictcp_tcp_friendliness (g : globals) (c : bictcp) (cwnd : Z) : res bictcp :=
  c <- (if negb (tcp_friendliness g =? 0) then
          let scale := beta_scale g in
          let delta := Z.shiftr (to_u32 (cwnd * scale)) 3 in
          r <- tcp_cwnd_loop (Z.to_nat (ack_cnt c)) delta (ack_cnt c) (tcp_cwnd c) ;;
          let c := set_tcp_cwnd (snd r) (set_ack_cnt (fst r) c) in
          if cwnd <? tcp_cwnd c then
            let delta := to_u32 (tcp_cwnd c - cwnd) in
            let max_cnt := cwnd / delta in
            Ok (if max_cnt <? cnt c then set_cnt max_cnt c else c)
          else Ok c
        else Ok c) ;;
  Ok (set_cnt (Z.max (cnt c) 2) c).

(** From [ca->last_cwnd = cwnd] down to the label [tcp_friendliness]. *)
Definition bictcp_cubic (k : kernel) (g : globals) (now : Z) (c : bictcp)
    (cwnd acked : Z) : res bictcp :=
  let c := set_last_time now (set_last_cwnd cwnd c) in
  c <- (if epoch_start c =? 0 then
          let c := set_tcp_cwnd cwnd (set_ack_cnt acked (set_epoch_start now c)) in
          if last_max_cwnd c <=? cwnd then
            Ok (set_bic_origin_point cwnd (set_bic_K 0 c))
          else
            r <- cubic_root (to_u64 (cube_factor g * to_u32 (last_max_cwnd c - cwnd))) ;;
            Ok (set_bic_origin_point (last_max_cwnd c) (set_bic_K r c))
        else Ok c) ;;
  let t := to_u64 (to_s32 (now - epoch_start c)) in
  let t := to_u64 (t + usecs_to_jiffies k (delay_min c)) in
  let t := to_u64 (Z.shiftl t BICTCP_HZ) in
  let t := t / to_u32 (HZ k) in
  let offs := if t <? bic_K c then to_u64 (bic_K c - t) else to_u64 (t - bic_K c) in
  let delta :=
    to_u32 (Z.shiftr
              (to_u64 (to_u64 (to_u64 (cube_rtt_scale g * offs) * offs) * offs))
              (10 + 3 * BICTCP_HZ)) in
  let bic_target :=
    if t <? bic_K c then to_u32 (bic_origin_point c - delta)
    else to_u32 (bic_origin_point c + delta) in
  let c :=
    if cwnd <? bic_target then set_cnt (cwnd / to_u32 (bic_target - cwnd)) c
    else set_cnt (to_u32 (100 * cwnd)) c in
  Ok (if (last_max_cwnd c =? 0) && (20 <? cnt c) then set_cnt 20 c else c).

(** [now] is [tcp_jiffies32]. *)
Definition bictcp_update (k : kernel) (g : globals) (now : Z) (c : bictcp)
    (cwnd acked : Z) : res bictcp :=
  let c := set_ack_cnt (to_u32 (ack_cnt c + acked)) c in
  if (last_cwnd c =? cwnd) && (to_s32 (now - last_time c) <=? Z.quot (HZ k) 32) then
    Ok c
  else if negb (epoch_start c =? 0) && (now =? last_time c) then
    bictcp_tcp_friendliness g c cwnd
  else
    c <- bictcp_cubic k g now c cwnd acked ;;
    bictcp_tcp_friendliness g c cwnd.

(** [cubictcp_cong_avoid].  The kernel helpers it calls are arguments:
    [cwnd_limited] is the result of [tcp_is_cwnd_limited (sk)],
    [tcp_slow_start] returns the socket and the remaining [acked], and
    [tcp_cong_avoid_ai tp w acked] divides by [w]. *)
Definition cubictcp_cong_avoid (k : kernel) (g : globals)
    (tcp_slow_start : sock -> Z -> sock * Z)
    (tcp_cong_avoid_ai : sock -> Z -> Z -> res sock)
    (cwnd_limited : bool) (phase now : Z) (s : sock) (acked : Z) : res sock :=
  if negb cwnd_limited then Ok s
  else if is_starlink_handover k g phase then
    Ok (if negb (snd_cwnd s =? 0) then leo_handover_start s else s)
  else
    let s := if snd_cwnd s =? 0 then leo_handover_end s else s in
    let '(s, acked, stop) :=
      if tcp_in_slow_start s then
        let '(s, acked) := tcp_slow_start s acked in (s, acked, acked =? 0)
      else (s, acked, false) in
    if stop then Ok s
    else
      c <- bictcp_update k g now (ca s) (snd_cwnd s) acked ;;
      let s := set_ca c s in
      tcp_cong_avoid_ai s (cnt c) acked.

(** *** The loss hook *)

Definition cubictcp_recalc_ssthresh (g : globals) (s : sock) : Z * sock :=
  let c := set_epoch_start 0 (ca s) in
  let c :=
    if (snd_cwnd s <? last_max_cwnd c) && negb (fast_convergence g =? 0) then
      set_last_max_cwnd
        (to_u32 (snd_cwnd s * to_u32 (BICTCP_BETA_SCALE + beta g))
           / to_u32 (2 * BICTCP_BETA_SCALE)) c
    else set_last_max_cwnd (snd_cwnd s) c in
  (Z.max (to_u32 (snd_cwnd s * to_u32 (beta g)) / to_u32 BICTCP_BETA_SCALE) 2,
   set_ca c s).

Definition cubictcp_state (new_state : Z) (s : sock) : sock :=
  if new_state =? TCP_CA_Loss then
    bictcp_hystart_reset (set_ca (bictcp_reset (ca s)) s)
  else s.

(** *** Hybrid slow start *)

Definition hystart_ack_delay (s : sock) : Z :=
  let rate := sk_pacing_rate s in
  if rate =? 0 then 0
  else to_u32 (Z.min USEC_PER_MSEC
                 (to_u64 (sk_gso_max_size s * 4 * USEC_PER_SEC) / rate)).

Definition hystart_update (g : globals) (s : sock) (delay : Z) : sock :=
  let s := if after (snd_una s) (end_seq (ca s)) then bictcp_hystart_reset s else s in
  let s :=
    if negb (Z.land (hystart_detect g) HYSTART_ACK_TRAIN =? 0) then
      let now := bictcp_clock_us s in
      if to_s32 (now - last_ack (ca s)) <=? hystart_ack_delta_us g then
        let s := set_ca (set_last_ack now (ca s)) s in
        let threshold := to_u32 (delay_min (ca s) + hystart_ack_delay s) in
        let threshold := if sk_pacing_none s then Z.shiftr threshold 1 else threshold in
        (* s32 against u32: the comparison is made on u32 *)
        if threshold <? to_u32 (to_s32 (now - round_start (ca s))) then
          set_snd_ssthresh (snd_cwnd s) (set_ca (set_found 1 (ca s)) s)
        else s
      else s
    else s in
  if negb (Z.land (hystart_detect g) HYSTART_DELAY =? 0) then
    let s :=
      if delay <? curr_rtt (ca s) then set_ca (set_curr_rtt delay (ca s)) s else s in
    if sample_cnt (ca s) <? HYSTART_MIN_SAMPLES then
      set_ca (set_sample_cnt (to_u8 (sample_cnt (ca s) + 1)) (ca s)) s
    else if to_u32 (delay_min (ca s) + HYSTART_DELAY_THRESH (Z.shiftr (delay_min (ca s)) 3))
              <? curr_rtt (ca s) then
      set_snd_ssthresh (snd_cwnd s) (set_ca (set_found 1 (ca s)) s)
    else s
  else s.

(** [rtt_us] is [sample->rtt_us], an [s32]; [now] is [tcp_jiffies32]. *)
Definition cubictcp_acked (k : kernel) (g : globals) (now : Z) (s : sock)
    (rtt_us : Z) : sock :=
  if rtt_us <? 0 then s
  else if negb (epoch_start (ca s) =? 0)
          && (to_s32 (now - epoch_start (ca s)) <? HZ k) then s
  else
    let delay := to_u32 rtt_us in
    let delay := if delay =? 0 then 1 else delay in
    let s :=
      if (delay_min (ca s) =? 0) || (delay <? delay_min (ca s))
      then set_ca (set_delay_min delay (ca s)) s else s in
    if (found (ca s) =? 0) && tcp_in_slow_start s && negb (hystart g =? 0)
       && (to_u32 (hystart_low_window g) <=? snd_cwnd s)
    then hystart_update g s delay
    else s.

End LeoCubic.

(** ** Concrete environments used in the examples *)

(** [msecs_to_jiffies] and [usecs_to_jiffies] as the kernel computes them
    for [HZ = 1000], on arguments below [2^31]. *)
Definition msecs_to_jiffies_hz1000 (m : Z) : Z := m.
Definition kernel_hz1000 : LeoCubic.kernel :=
  LeoCubic.mk_kernel 1000 (fun u => (u + 999) / 1000).

(** The tick counter starts 300 s before its 32-bit wrap
    ([INITIAL_JIFFIES]). *)
Definition jiffies_at_boot : Z := 2 ^ 32 - 300 * 1000.

(** Readings of the phase clock ([HZ = 1000]): 5 s, 12 s and 13 s into the
    15 s period.  With the default offsets the handover window is
    [11.8 s, 12.2 s]. *)
Definition phase_outside_window : Z := 5 * NSEC_PER_SEC * 1000.
Definition phase_inside_window : Z := 12 * NSEC_PER_SEC * 1000.
Definition phase_after_window : Z := 13 * NSEC_PER_SEC * 1000.

(** A socket of [tcp_leo.c] with window 40 and a pending deadline, whose
    caller keeps 10 in the variable [leo->last_snd_cwnd] points to. *)
Definition leo_sock_40 : Leo.sock :=
  Leo.mk_sock 40 5000 true false 0 10 None.

(** A socket of [tcp_leo_cubic.c] with window 40 and a pending deadline. *)
Definition cubic_sock_40 : LeoCubic.sock :=
  LeoCubic.mk_sock 40 LeoCubic.TCP_INFINITE_SSTHRESH 0 0 0 5000 0 0 true 65536 true
                   false 0 None
                   (LeoCubic.mk_bictcp 0 0 0 0 0 0 0 0 0 0 0 0 0 0 0 0 false).

(** A socket of [tcp_leo_cubic.c] at a loss event: window 50 below the
    remembered maximum 80, inside an epoch. *)
Definition cubic_sock_loss : LeoCubic.sock :=
  LeoCubic.mk_sock 50 LeoCubic.TCP_INFINITE_SSTHRESH 0 0 0 5000 0 0 true 65536 true
                   false 0 None
                   (LeoCubic.mk_bictcp 12 80 50 7000 80 0 10000 6000 3 50
                                       0 0 0 0 0 0 false).

(** The same socket with a window of six million packets. *)
Definition cubic_sock_loss_huge : LeoCubic.sock :=
  LeoCubic.set_snd_cwnd 6000000 cubic_sock_loss.

(** *** A slow-start run for HyStart

    A socket in slow start (window 20, above [hystart_low_window]) on which
    the algorithm has just been initialised outside a handover window; the
    clock [tcp_mstamp] stands still, so that the ack-train detector has
    nothing to measure. *)
Definition cubic_sock_slow_start : LeoCubic.sock :=
  LeoCubic.cubictcp_init kernel_hz1000 LeoCubic.default_globals
    phase_outside_window (jiffies_at_boot + 5000)
    (LeoCubic.mk_sock 20 LeoCubic.TCP_INFINITE_SSTHRESH 1000 30000 0 0 1000000 0 true
                      65536 true false 0 None
                      (LeoCubic.mk_bictcp 0 0 0 0 0 0 0 0 0 0 0 0 0 0 0 0 false)).

(** [cubictcp_acked] on a list of RTT samples, in order. *)
Definition feed_samples (now : Z) (samples : list Z) (s : LeoCubic.sock) : LeoCubic.sock :=
  fold_left (fun s rtt_us =>
               LeoCubic.cubictcp_acked kernel_hz1000 LeoCubic.default_globals now s rtt_us)
            samples s.

(** Eight samples with minimum 10000. *)
Definition eight_samples : list Z :=
  [12000; 10000; 11000; 10000; 15000; 10500; 10000; 13000].

(** A round whose eight samples all took 19000 or more, on a connection
    whose minimum delay, 10000, was measured earlier. *)
Definition cubic_sock_slow_round : LeoCubic.sock :=
  LeoCubic.set_ca
    (LeoCubic.set_delay_min 10000 (LeoCubic.ca cubic_sock_slow_start))
    cubic_sock_slow_start.
Definition eight_slow_samples : list Z :=
  [21000; 19000; 20000; 19500; 22000; 19000; 23000; 19000].

(** *** Reachable states of [tcp_leo_cubic.c]

    The states a connection gets into through the hooks of the file: the
    algorithm is initialised on a socket with a valid window, and from then
    on the handover timer fires, RTT samples arrive and the congestion state
    changes.  (The hooks left out can only add states.) *)
Inductive reachable (k : LeoCubic.kernel) (g : LeoCubic.globals) : LeoCubic.sock -> Prop :=
| reach_init (phase jiffies : Z) (s : LeoCubic.sock) :
    1 <= LeoCubic.snd_cwnd s < 2 ^ 32 ->
    reachable k g (LeoCubic.cubictcp_init k g phase jiffies s)
| reach_timer (phase jiffies : Z) (s : LeoCubic.sock) :
    reachable k g s ->
    reachable k g (LeoCubic.leo_handover k g phase jiffies s)
| reach_acked (now rtt_us : Z) (s : LeoCubic.sock) :
    reachable k g s ->
    reachable k g (LeoCubic.cubictcp_acked k g now s rtt_us)
| reach_state (new_state : Z) (s : LeoCubic.sock) :
    reachable k g s ->
    reachable k g (LeoCubic.cubictcp_state new_state s).

(** A connection with window 10 and slow-start threshold 10 adopts the
    algorithm 5 s after boot, while the phase clock reads 12 s (inside the
    handover window); the handover timer fires when the clock reads 13 s. *)
Definition cubic_sock_new : LeoCubic.sock :=
  LeoCubic.mk_sock 10 10 1000 30000 0 0 1000000 0 true 65536 true false 0 None
                   (LeoCubic.mk_bictcp 0 0 0 0 0 0 0 0 0 0 0 0 0 0 0 0 false).
Definition cubic_sock_adopted : LeoCubic.sock :=
  LeoCubic.cubictcp_init kernel_hz1000 LeoCubic.default_globals
    phase_inside_window (jiffies_at_boot + 5000) cubic_sock_new.
Definition cubic_sock_resumed : LeoCubic.sock :=
  LeoCubic.leo_handover kernel_hz1000 LeoCubic.default_globals
    phase_after_window (jiffies_at_boot + 6000) cubic_sock_adopted.

(** *** Phase clock examples *)

(** The base the resync computes at the start of a wall-clock minute,
    1000 ticks after the tick counter was at 0 ([HZ = 1000]). *)
Definition base_at_minute_start : Z :=
  PhaseClock.leo_jiffies_base_compute 1000
    {| PhaseClock.tv_sec := 1700000040; PhaseClock.tv_nsec := 0 |} 1000.

(** The wall clock 17.25 s into a minute. *)
Definition wall_17s : PhaseClock.timespec64 :=
  {| PhaseClock.tv_sec := 1700000057; PhaseClock.tv_nsec := 250000000 |}.

(** ** The cube root: statement of accuracy and the checks used to prove it *)

Module CubeRoot.

Import LeoCubic.

(** [r] approximates the real cube root of [a] with relative error at most
    0.3 %: [0.997 * cbrt a <= r <= 1.003 * cbrt a], cubed and cleared of
    denominators ([r] and [a] are not negative). *)
Definition within_3_per_mille (a r : Z) : Prop :=
  997 ^ 3 * a <= (1000 * r) ^ 3 <= 1003 ^ 3 * a.

(** The first input from which the bound holds throughout. *)
Definition accurate_from : Z := 52395120.

(** The inputs [a] at which the result drops from [a] to [a + 1]. *)
Definition descents : list Z := [111; 199; 311; 463].

(** The result of [cubic_root] as a number ([-1] for a fault). *)
Definition cr_val (a : Z) : Z :=
  match cubic_root a with
  | Ok r => r
  | Fault _ => -1
  end.

(** What [cubic_root] computes from the estimate [x] when nothing wraps. *)
Definition newton (x a : Z) : Z :=
  Z.shiftr ((2 * x + a / (x * (x - 1))) * 341) 10.

(** [seg_ok p q]: the inputs of [p, q) have at least 7 significant bits,
    the same number of them and the same table index, so the same estimate
    [x]; [x] is at least 2, and at [q - 1], hence on all of [p, q), no
    intermediate result of the refinement step wraps. *)
Definition seg_ok (p q : Z) : bool :=
  (64 <=? p) && (p <? q) && (q <=? 2 ^ 64)
  && (fls64 p =? fls64 (q - 1))
  && (let b := to_u32 (Z.shiftr (to_u32 (to_u32 (fls64 p) * 84)) 8 - 1) in
      Z.shiftr p (to_u32 (b * 3)) =? Z.shiftr (q - 1) (to_u32 (b * 3)))
  && match cubic_root_estimate p with
     | Ok x =>
         (2 <=? x) && (x <? 2 ^ 32) && (x * (x - 1) <? 2 ^ 64)
         && ((2 * x + (q - 1) / (x * (x - 1))) * 341 <? 2 ^ 32)
     | Fault _ => false
     end.

(** [seg_ok], and the result does not drop from [q - 1] to [q]. *)
Definition link (p q : Z) : bool :=
  seg_ok p q && ((q =? 2 ^ 64) || (cr_val (q - 1) <=? cr_val q)).

(** A check on every pair of neighbours of the list [p :: l]. *)
Fixpoint chain (ok : Z -> Z -> bool) (p : Z) (l : list Z) : bool :=
  match l with
  | [] => true
  | q :: l' => ok p q && chain ok q l'
  end.

Fixpoint chain_end (p : Z) (l : list Z) : Z :=
  match l with
  | [] => p
  | q :: l' => chain_end q l'
  end.

Definition zrange (lo hi : Z) : list Z :=
  map (fun i => lo + Z.of_nat i) (seq 0 (Z.to_nat (hi - lo))).

(** The ends of the intervals on which the number of significant bits [e]
    and the table index [s] are constant, in increasing order: from 72 (the
    end of the interval that starts at 64) to [2^64]. *)
Definition bucket_ends : list Z :=
  flat_map (fun e =>
              let sh := Z.shiftr (e * 84) 8 - 1 in
              map (fun s => (s + 1) * 2 ^ (3 * sh))
                  (zrange (2 ^ (e - 1 - 3 * sh)) (2 ^ (e - 3 * sh))))
           (zrange 7 65).

(** The accuracy check on [lo, hi] by bisection: where the result is
    non-decreasing, the bound at the two ends of an interval, crossed, gives
    it inside. *)
Fixpoint err_check (fuel : nat) (lo hi : Z) : bool :=
  if hi <? lo then true
  else if (997 ^ 3 * hi <=? (1000 * cr_val lo) ^ 3)
          && ((1000 * cr_val hi) ^ 3 <=? 1003 ^ 3 * lo) then true
  else match fuel with
       | O => false
       | S n => let mid := (lo + hi) / 2 in
                err_check n lo mid && err_check n (mid + 1) hi
       end.

End CubeRoot.

(** ** Further functions of the two files *)

(** [leo_time] of [tcp_leo.c] and [starlink_time] of [tcp_leo_cubic.c]: the
    phase clock in nanoseconds, rounded to the nearest ([HZ / 2] is an [int]
    division, the sum and the quotient are [u64]). *)
Definition leo_time (HZ : Z) (leo_jiffies_base jiffies_64 : Z) : Z :=
  to_u64 (PhaseClock.leo_jiffies HZ leo_jiffies_base jiffies_64 + to_u64 (Z.quot HZ 2))
  / to_u64 HZ.

(** The delay, in ticks, that [leo_handover_timer_reset] arms the timer
    with: the body of that function (the same in both files) up to the call
    of [sk_reset_timer]. *)
Definition handover_timo (HZ start_ms end_ms phase : Z) : Z :=
  let njiffies := phase mod HANDOVER_INTERVAL HZ in
  let START := HANDOVER_START HZ start_ms in
  let END_ := HANDOVER_END HZ end_ms in
  let timo :=
    if njiffies <? START then to_s64 (START - njiffies)
    else if njiffies <? END_ then to_s64 (END_ - njiffies)
    else to_s64 (to_u64 (START + HANDOVER_INTERVAL HZ) - njiffies) in
  let timo := Z.quot timo NSEC_PER_SEC in
  if timo <=? 0 then 1 else timo.

(** [hystart_update] on a list of delay samples, in order. *)
Definition hystart_run (g : LeoCubic.globals) (delays : list Z) (s : LeoCubic.sock)
  : LeoCubic.sock :=
  fold_left (LeoCubic.hystart_update g) delays s.

(** ** Further example environments *)

(** The default parameters with the ack-train detector switched off
    ([hystart_detect = HYSTART_DELAY]). *)
Definition globals_delay_only : LeoCubic.globals :=
  LeoCubic.cubictcp_register
    (LeoCubic.mk_globals 1 717 0 41 1 1 LeoCubic.HYSTART_DELAY 16 2000
                         HANDOVER_OFFSET_DEFAULT HANDOVER_OFFSET_DEFAULT 0 0 0).

(** A socket paced at 100 MB/s, with window 40. *)
Definition cubic_sock_paced : LeoCubic.sock :=
  LeoCubic.mk_sock 40 LeoCubic.TCP_INFINITE_SSTHRESH 0 0 0 5000 0 100000000 false 65536
                   true false 0 None
                   (LeoCubic.mk_bictcp 0 0 0 0 0 0 0 0 0 0 0 0 0 0 0 0 false).


(* ================================================================== *)
(** * Properties *)
(* ================================================================== *)

(** ** Machine integers *)

Lemma to_u32_range x : is_u32 (to_u32 x).
Proof. unfold is_u32, to_u32. apply Z.mod_pos_bound. lia. Qed.

Lemma to_u64_range x : is_u64 (to_u64 x).
Proof. unfold is_u64, to_u64. apply Z.mod_pos_bound. lia. Qed.

Lemma to_u32_id x : is_u32 x -> to_u32 x = x.
Proof. unfold is_u32, to_u32. intros H. apply Z.mod_small. exact H. Qed.

Lemma to_u64_id x : is_u64 x -> to_u64 x = x.
Proof. unfold is_u64, to_u64. intros H. apply Z.mod_small. exact H. Qed.

Lemma to_u64_neg x : - 2 ^ 64 <= x < 0 -> to_u64 x = x + 2 ^ 64.
Proof.
  unfold to_u64. intros H.
  symmetry. apply Z.mod_unique with (q := -1); lia.
Qed.

Lemma to_s64_id x : is_s64 x -> to_s64 x = x.
Proof.
  unfold is_s64, to_s64. intros H.
  destruct (Z_lt_le_dec x 0) as [Hneg | Hpos].
  - fold (to_u64 x). rewrite to_u64_neg by lia.
    destruct (Z.ltb_spec (x + 2 ^ 64) (2 ^ 63)); lia.
  - rewrite Z.mod_small by lia.
    destruct (Z.ltb_spec x (2 ^ 63)); lia.
Qed.

(** ** The handover offsets *)

Lemma handover_offset_bounds (v : Z) : is_int v -> 0 <= HANDOVER_OFFSET v <= 1000.
Proof.
  unfold is_int, HANDOVER_OFFSET, HANDOVER_OFFSET_MAX. intros Hv.
  destruct (Z.leb_spec (to_u64 v) 1000); [ | lia ].
  pose proof (to_u64_range v) as Hr. unfold is_u64 in Hr. lia.
Qed.

(** C9 (as amended).  For every value [v] of an offset parameter (an [int])
    the offset the window computation uses lies in [0, 1000]; it is [v]
    itself when [0 <= v <= 1000], and the maximum 1000 for every other
    value: a negative [v] is not taken to 0, since the comparison is made on
    the [u64] conversion.  The default of both parameters is 200, in both
    files. *)
Theorem handover_offset_clamped (v : Z) :
  is_int v ->
  0 <= HANDOVER_OFFSET v <= 1000
  /\ (0 <= v <= 1000 -> HANDOVER_OFFSET v = v)
  /\ (v < 0 \/ 1000 < v -> HANDOVER_OFFSET v = 1000)
  /\ HANDOVER_OFFSET_DEFAULT = 200
  /\ HANDOVER_OFFSET HANDOVER_OFFSET_DEFAULT = 200
  /\ LeoCubic.starlink_handover_start_ms LeoCubic.default_globals = 200
  /\ LeoCubic.starlink_handover_end_ms LeoCubic.default_globals = 200.
Proof.
  unfold is_int, HANDOVER_OFFSET, HANDOVER_OFFSET_MAX. intros Hv.
  assert (Hu : v < 0 -> to_u64 v = v + 2 ^ 64)
    by (intros; apply to_u64_neg; lia).
  assert (Hp : 0 <= v -> to_u64 v = v)
    by (intros; apply to_u64_id; unfold is_u64; lia).
  repeat split; try reflexivity.
  - destruct (Z.leb_spec (to_u64 v) 1000); [ apply to_u64_range | lia ].
  - destruct (Z.leb_spec (to_u64 v) 1000); lia.
  - intros Hin. rewrite Hp by lia.
    destruct (Z.leb_spec v 1000); lia.
  - intros [Hneg | Hbig].
    + rewrite Hu by lia. destruct (Z.leb_spec (v + 2 ^ 64) 1000); lia.
    + rewrite Hp by lia. destruct (Z.leb_spec v 1000); lia.
Qed.

Lemma handover_offset_clamped_witness :
  is_int 350
  /\ (0 <= HANDOVER_OFFSET 350 <= 1000
      /\ (0 <= 350 <= 1000 -> HANDOVER_OFFSET 350 = 350)
      /\ (350 < 0 \/ 1000 < 350 -> HANDOVER_OFFSET 350 = 1000)
      /\ HANDOVER_OFFSET_DEFAULT = 200
      /\ HANDOVER_OFFSET HANDOVER_OFFSET_DEFAULT = 200
      /\ LeoCubic.starlink_handover_start_ms LeoCubic.default_globals = 200
      /\ LeoCubic.starlink_handover_end_ms LeoCubic.default_globals = 200).
Proof.
  split; [ unfold is_int; lia | apply (handover_offset_clamped 350); unfold is_int; lia ].
Defined.

(** C9, the claim as stated fails for negative values.  A clamp to
    [0, 1000] takes [-1] to 0, the bound next to it; the macro compares the
    [u64] conversion [2^64 - 1] with the maximum and gives 1000, so that the
    window starts 1 s before the handover time instead of at it. *)
Lemma handover_offset_counterexample :
  is_int (-1)
  /\ clamp_to_offset_range (-1) = 0
  /\ HANDOVER_OFFSET (-1) = 1000
  /\ HANDOVER_OFFSET (-1) <> clamp_to_offset_range (-1)
  /\ HANDOVER_START 1000 (-1) = 11 * NSEC_PER_SEC * 1000
  /\ HANDOVER_START 1000 (clamp_to_offset_range (-1)) = 12 * NSEC_PER_SEC * 1000.
Proof. vm_compute. repeat split; discriminate. Qed.

Example handover_offset_negative : HANDOVER_OFFSET (-5) = 1000.
Proof. reflexivity. Qed.

Example handover_offset_large : HANDOVER_OFFSET 1500 = 1000.
Proof. reflexivity. Qed.

(** The handover window is computed from the clamped offsets: it runs from
    [12 s - offset] to [12 s + offset] within each period of 15 s. *)
Lemma handover_window_bounds (HZ start_ms end_ms : Z) :
  0 < HZ <= 1000000 -> is_int start_ms -> is_int end_ms ->
  HANDOVER_START HZ start_ms
  = (12000 - HANDOVER_OFFSET start_ms) * NSEC_PER_MSEC * HZ
  /\ HANDOVER_END HZ end_ms
     = (12000 + HANDOVER_OFFSET end_ms) * NSEC_PER_MSEC * HZ
  /\ HANDOVER_INTERVAL HZ = 15000 * NSEC_PER_MSEC * HZ.
Proof.
  intros HHZ Hs He.
  destruct (handover_offset_bounds start_ms Hs) as [Hs1 Hs2].
  destruct (handover_offset_bounds end_ms He) as [He1 He2].
  unfold HANDOVER_START, HANDOVER_END, HANDOVER_INTERVAL, HANDOVER_TIME,
    NSEC_PER_MSEC, NSEC_PER_SEC.
  rewrite (to_u64_id (12 * 1000000000 * HZ)) by (unfold is_u64; lia).
  rewrite (to_u64_id (HANDOVER_OFFSET start_ms * 1000000 * HZ)) by (unfold is_u64; nia).
  rewrite (to_u64_id (HANDOVER_OFFSET end_ms * 1000000 * HZ)) by (unfold is_u64; nia).
  rewrite !to_u64_id by (unfold is_u64; nia).
  repeat split; ring.
Qed.

(** ** The transmission gate *)

Section Gate.

Variable msecs_to_jiffies : Z -> Z.
Variables start_ms end_ms : Z.

Local Abbreviation leo_suspend :=
  (Leo.leo_suspend_transmission msecs_to_jiffies start_ms end_ms).
Local Abbreviation leo_start :=
  (Leo.leo_handover_start msecs_to_jiffies start_ms end_ms).

Lemma leo_suspend_cwnd sk : Leo.snd_cwnd (leo_suspend sk) = 0.
Proof.
  unfold Leo.leo_suspend_transmission. simpl.
  destruct (Leo.icsk_timeout sk =? 0); reflexivity.
Qed.

Lemma leo_start_cwnd sk : Leo.snd_cwnd (leo_start sk) = 0.
Proof.
  unfold Leo.leo_handover_start.
  destruct (Z.eqb_spec (Leo.snd_cwnd sk) 0) as [E | E]; [ exact E | ].
  apply leo_suspend_cwnd.
Qed.

Lemma cubic_start_cwnd s : LeoCubic.snd_cwnd (LeoCubic.leo_handover_start s) = 0.
Proof.
  unfold LeoCubic.leo_handover_start.
  destruct (Z.eqb_spec (LeoCubic.snd_cwnd s) 0) as [E | E]; [ exact E | reflexivity ].
Qed.

(** C6.  Calling suspend a second time changes nothing: after the first call
    the window is 0, so the guard of [leo_handover_start] returns at once.
    This holds for the whole socket state (window, saved window and
    retransmission deadline included), in both files. *)
Theorem suspend_twice_is_suspend_once :
  (forall s : LeoCubic.sock,
      LeoCubic.leo_handover_start (LeoCubic.leo_handover_start s)
      = LeoCubic.leo_handover_start s)
  /\ (forall sk : Leo.sock, leo_start (leo_start sk) = leo_start sk).
Proof.
  split.
  - intros s. unfold LeoCubic.leo_handover_start at 1.
    rewrite cubic_start_cwnd. reflexivity.
  - intros sk. unfold Leo.leo_handover_start at 1.
    rewrite leo_start_cwnd. reflexivity.
Qed.


(** C2 (as amended).  [leo_suspend_transmission] of [tcp_leo.c] sets the
    window to 0 and adds [msecs_to_jiffies (start_ms + end_ms)] to a nonzero
    retransmission deadline (a deadline of 0 stays 0), and stores no copy of
    the window.  [leo_suspend_transmission] of [tcp_leo_cubic.c] copies the
    window into [ca->last_cwnd] and sets the window to 0, and leaves the
    deadline as it was. *)
Theorem suspend_effects :
  (forall sk : Leo.sock,
      Leo.snd_cwnd (leo_suspend sk) = 0
      /\ Leo.last_snd_cwnd_cell (leo_suspend sk) = Leo.last_snd_cwnd_cell sk
      /\ (Leo.icsk_timeout sk <> 0 ->
          Leo.icsk_timeout (leo_suspend sk)
          = to_u64 (Leo.icsk_timeout sk
                    + msecs_to_jiffies
                        (to_u32 (Leo.leo_handover_duration start_ms end_ms))))
      /\ (Leo.icsk_timeout sk = 0 -> Leo.icsk_timeout (leo_suspend sk) = 0))
  /\ (0 <= start_ms + end_ms < 2 ^ 31 ->
      Leo.leo_handover_duration start_ms end_ms = start_ms + end_ms)
  /\ (forall s : LeoCubic.sock,
      LeoCubic.last_cwnd (LeoCubic.ca (LeoCubic.leo_suspend_transmission s))
      = LeoCubic.snd_cwnd s
      /\ LeoCubic.snd_cwnd (LeoCubic.leo_suspend_transmission s) = 0
      /\ LeoCubic.icsk_timeout (LeoCubic.leo_suspend_transmission s)
         = LeoCubic.icsk_timeout s).
Proof.
  split; [ | split ].
  - intros sk. unfold Leo.leo_suspend_transmission. simpl.
    destruct (Z.eqb_spec (Leo.icsk_timeout sk) 0) as [E | E]; simpl;
      repeat split; intros; try reflexivity; try contradiction; assumption.
  - intros H. unfold Leo.leo_handover_duration, to_s32.
    rewrite Z.mod_small by lia.
    destruct (Z.ltb_spec (start_ms + end_ms) (2 ^ 31)); [ | lia ].
    apply to_u64_id. unfold is_u64. lia.
  - intros s. repeat split.
Qed.

End Gate.



Example suspend_resume_leo_40_10 :
  Leo.snd_cwnd
    (Leo.leo_handover_end
       (Leo.leo_handover_start msecs_to_jiffies_hz1000 200 200 leo_sock_40) 10)
  = 10.
Proof. reflexivity. Qed.

(** The same through the timer of [tcp_leo.c]: it fires just before the
    window opens (11.795 s) and just before it closes (12.195 s). *)
Example leo_timer_suspend_resume :
  let fire now jiffies :=
    Leo.leo_handover 1000 msecs_to_jiffies_hz1000 200 200 now jiffies in
  let sk1 := fire (11795 * NSEC_PER_MSEC * 1000) 100000 leo_sock_40 in
  let sk2 := fire (12195 * NSEC_PER_MSEC * 1000) 100400 sk1 in
  Leo.snd_cwnd sk1 = 0 /\ Leo.icsk_timeout sk1 = 5400
  /\ Leo.snd_cwnd sk2 = 10.
Proof. vm_compute. repeat split. Qed.

Lemma suspend_effects_witness :
  Leo.icsk_timeout leo_sock_40 <> 0
  /\ Leo.icsk_timeout
       (Leo.leo_suspend_transmission msecs_to_jiffies_hz1000 200 200 leo_sock_40)
     = to_u64 (Leo.icsk_timeout leo_sock_40
               + msecs_to_jiffies_hz1000 (to_u32 (Leo.leo_handover_duration 200 200))).
Proof.
  split; [ simpl; lia | ].
  apply (proj1 (suspend_effects msecs_to_jiffies_hz1000 200 200) leo_sock_40).
  simpl; lia.
Defined.

(** C2, the claim as stated fails in both files.  With offsets of 200 ms
    each and a deadline of 5000 ticks, [tcp_leo_cubic.c] leaves the deadline
    at 5000 instead of 5400, and [tcp_leo.c] moves the deadline to 5400 but
    keeps no copy of the window 40 (the caller's variable still holds 10). *)
Lemma suspend_effects_counterexample :
  (LeoCubic.icsk_timeout cubic_sock_40 <> 0
   /\ LeoCubic.icsk_timeout (LeoCubic.leo_suspend_transmission cubic_sock_40)
      <> to_u64 (LeoCubic.icsk_timeout cubic_sock_40
                 + msecs_to_jiffies_hz1000 (200 + 200)))
  /\ (Leo.icsk_timeout leo_sock_40 <> 0
      /\ Leo.last_snd_cwnd_cell
           (Leo.leo_suspend_transmission msecs_to_jiffies_hz1000 200 200 leo_sock_40)
         <> Leo.snd_cwnd leo_sock_40).
Proof. vm_compute. repeat split; discriminate. Qed.

Example suspend_cubic_deadline :
  LeoCubic.icsk_timeout (LeoCubic.leo_suspend_transmission cubic_sock_40) = 5000.
Proof. reflexivity. Qed.

Example suspend_leo_deadline :
  Leo.icsk_timeout
    (Leo.leo_suspend_transmission msecs_to_jiffies_hz1000 200 200 leo_sock_40)
  = 5400.
Proof. reflexivity. Qed.

(** ** The loss hook *)

Lemma to_u32_mul_idemp_r a b : to_u32 (a * to_u32 b) = to_u32 (a * b).
Proof. unfold to_u32. apply Z.mul_mod_idemp_r. lia. Qed.

(** C5 (as amended).  At a loss event with window 50, [last_max_cwnd] 80,
    fast convergence on and [beta = 717], [cubictcp_recalc_ssthresh] sets
    [epoch_start] to 0 and [last_max_cwnd] to 42 and returns 35.  It always
    ends the epoch, and it returns
    [max (2, (window * beta mod 2^32) / 1024)]: that is
    [max (2, window * beta / 1024)] as long as the 32-bit product
    [window * beta] does not wrap. *)
Theorem recalc_ssthresh_result :
  (fst (LeoCubic.cubictcp_recalc_ssthresh LeoCubic.default_globals cubic_sock_loss) = 35
   /\ LeoCubic.last_max_cwnd
        (LeoCubic.ca
           (snd (LeoCubic.cubictcp_recalc_ssthresh LeoCubic.default_globals
                   cubic_sock_loss))) = 42
   /\ LeoCubic.epoch_start
        (LeoCubic.ca
           (snd (LeoCubic.cubictcp_recalc_ssthresh LeoCubic.default_globals
                   cubic_sock_loss))) = 0)
  /\ (forall g s,
      LeoCubic.epoch_start (LeoCubic.ca (snd (LeoCubic.cubictcp_recalc_ssthresh g s))) = 0)
  /\ (forall g s,
      fst (LeoCubic.cubictcp_recalc_ssthresh g s)
      = Z.max 2 ((LeoCubic.snd_cwnd s * LeoCubic.beta g) mod 2 ^ 32
                 / LeoCubic.BICTCP_BETA_SCALE))
  /\ (forall g s,
      0 <= LeoCubic.snd_cwnd s * LeoCubic.beta g < 2 ^ 32 ->
      fst (LeoCubic.cubictcp_recalc_ssthresh g s)
      = Z.max 2 (LeoCubic.snd_cwnd s * LeoCubic.beta g / LeoCubic.BICTCP_BETA_SCALE)).
Proof.
  assert (Hgen : forall g s,
      fst (LeoCubic.cubictcp_recalc_ssthresh g s)
      = Z.max 2 ((LeoCubic.snd_cwnd s * LeoCubic.beta g) mod 2 ^ 32
                 / LeoCubic.BICTCP_BETA_SCALE)).
  { intros g s. unfold LeoCubic.cubictcp_recalc_ssthresh. cbn [fst].
    rewrite to_u32_mul_idemp_r.
    rewrite (to_u32_id LeoCubic.BICTCP_BETA_SCALE)
      by (unfold is_u32, LeoCubic.BICTCP_BETA_SCALE; lia).
    unfold to_u32. apply Z.max_comm. }
  split; [ | split; [ | split ] ].
  - vm_compute. repeat split.
  - intros g s. unfold LeoCubic.cubictcp_recalc_ssthresh. cbn [snd].
    destruct ((LeoCubic.snd_cwnd s <? _) && _); reflexivity.
  - exact Hgen.
  - intros g s Hr. rewrite Hgen. rewrite Z.mod_small by exact Hr. reflexivity.
Qed.

Lemma recalc_ssthresh_result_witness :
  0 <= LeoCubic.snd_cwnd cubic_sock_loss * LeoCubic.beta LeoCubic.default_globals < 2 ^ 32
  /\ fst (LeoCubic.cubictcp_recalc_ssthresh LeoCubic.default_globals cubic_sock_loss)
     = Z.max 2 (LeoCubic.snd_cwnd cubic_sock_loss * LeoCubic.beta LeoCubic.default_globals
                / LeoCubic.BICTCP_BETA_SCALE).
Proof.
  split; [ vm_compute; split; [ discriminate | reflexivity ] | ].
  apply (proj2 (proj2 (proj2 recalc_ssthresh_result))).
  vm_compute; split; [ discriminate | reflexivity ].
Defined.

(** C5, the general formula read over the integers fails for large windows:
    with a window of 6000000 packets and [beta = 717] the product wraps and
    the hook returns 6867, not [6000000 * 717 / 1024 = 4201171]. *)
Lemma recalc_ssthresh_counterexample :
  is_u32 (LeoCubic.snd_cwnd cubic_sock_loss_huge)
  /\ fst (LeoCubic.cubictcp_recalc_ssthresh LeoCubic.default_globals cubic_sock_loss_huge)
     <> Z.max 2 (LeoCubic.snd_cwnd cubic_sock_loss_huge
                 * LeoCubic.beta LeoCubic.default_globals
                 / LeoCubic.BICTCP_BETA_SCALE).
Proof. vm_compute. repeat split; discriminate. Qed.

Example recalc_ssthresh_huge_value :
  fst (LeoCubic.cubictcp_recalc_ssthresh LeoCubic.default_globals cubic_sock_loss_huge)
  = 6867
  /\ 6000000 * 717 / 1024 = 4201171.
Proof. split; reflexivity. Qed.

(** ** Hybrid slow start: the delay detector *)

Section DelayDetector.

Import LeoCubic.
Local Opaque Z.shiftr.

(** The bound the round minimum is compared with. *)
Local Abbreviation delay_limit c :=
  (to_u32 (delay_min c + HYSTART_DELAY_THRESH (Z.shiftr (delay_min c) 3))).



End DelayDetector.



Example hystart_ninth_sample_values :
  let s9 := feed_samples 0 (eight_samples ++ [19000]) cubic_sock_slow_start in
  LeoCubic.found (LeoCubic.ca s9) = 0
  /\ LeoCubic.snd_ssthresh s9 = LeoCubic.TCP_INFINITE_SSTHRESH
  /\ LeoCubic.curr_rtt (LeoCubic.ca s9) = 10000.
Proof. vm_compute. repeat split. Qed.

(** ** The window engine: the floor on [cnt] *)

Section CntFloor.

Import LeoCubic.

Variables (k : kernel) (g : globals).

Lemma tcp_friendliness_floor c cwnd c' :
  bictcp_tcp_friendliness g c cwnd = Ok c' -> 2 <= cnt c'.
Proof.
  unfold bictcp_tcp_friendliness.
  destruct (if negb (tcp_friendliness g =? 0) then _ else Ok c) as [c1 | f];
    cbn [bind]; intros H; [ | discriminate ].
  injection H as <-. cbn. lia.
Qed.

(** The early return of [bictcp_update]: only [ack_cnt] has changed. *)
Lemma bictcp_update_early_return now c cwnd acked :
  last_cwnd c = cwnd ->
  to_s32 (now - last_time c) <= Z.quot (HZ k) 32 ->
  bictcp_update k g now c cwnd acked = Ok (set_ack_cnt (to_u32 (ack_cnt c + acked)) c).
Proof.
  intros Hw Ht. unfold bictcp_update. cbn [last_cwnd last_time set_ack_cnt].
  destruct (Z.eqb_spec (last_cwnd c) cwnd); [ | contradiction ].
  destruct (Z.leb_spec (to_s32 (now - last_time c)) (Z.quot (HZ k) 32)); [ | lia ].
  reflexivity.
Qed.

(** Past the early return the floor [max (cnt, 2)] is always applied. *)
Lemma bictcp_update_floor now c cwnd acked c' :
  (last_cwnd c =? cwnd) && (to_s32 (now - last_time c) <=? Z.quot (HZ k) 32) = false ->
  bictcp_update k g now c cwnd acked = Ok c' ->
  2 <= cnt c'.
Proof.
  intros Hlate. unfold bictcp_update. cbn [last_cwnd last_time set_ack_cnt].
  rewrite Hlate.
  destruct (negb _ && _).
  - apply tcp_friendliness_floor.
  - destruct (bictcp_cubic k g now _ cwnd acked) as [c1 | f]; cbn [bind];
      [ apply tcp_friendliness_floor | discriminate ].
Qed.

(** Once [cnt] is at least 2 every later update keeps it so. *)
Lemma bictcp_update_keeps_floor now c cwnd acked c' :
  2 <= cnt c ->
  bictcp_update k g now c cwnd acked = Ok c' ->
  2 <= cnt c'.
Proof.
  intros Hc Hu.
  destruct ((last_cwnd c =? cwnd) && (to_s32 (now - last_time c) <=? Z.quot (HZ k) 32))
    eqn:Hearly.
  - apply andb_true_iff in Hearly as [H1 H2].
    apply Z.eqb_eq in H1. apply Z.leb_le in H2.
    rewrite (bictcp_update_early_return now c cwnd acked H1 H2) in Hu.
    injection Hu as <-. exact Hc.
  - eapply bictcp_update_floor; eassumption.
Qed.

(** Straight after [bictcp_reset], [last_cwnd] is 0 and no window of at
    least 1 equals it, so the first update cannot take the early return.
    Storing the window in [last_cwnd] on suspend is what breaks this. *)
Lemma bictcp_update_floor_after_reset now c cwnd acked c' :
  last_cwnd c = 0 -> 1 <= cwnd ->
  bictcp_update k g now c cwnd acked = Ok c' ->
  2 <= cnt c'.
Proof.
  intros Hz Hw. apply bictcp_update_floor.
  rewrite Hz. destruct (Z.eqb_spec 0 cwnd); [ lia | reflexivity ].
Qed.

(** The loop of the TCP-friendliness block exits whenever [delta] is
    positive: the fuel it is given is enough. *)
Lemma tcp_cwnd_loop_returns fuel delta ack tcpw :
  0 < delta -> ack <= Z.of_nat fuel -> 0 <= ack < 2 ^ 32 ->
  exists r, tcp_cwnd_loop fuel delta ack tcpw = Ok r.
Proof.
  intros Hd. revert ack tcpw.
  induction fuel as [ | fuel IH]; intros ack tcpw Hf Hr; cbn [tcp_cwnd_loop].
  - destruct (Z.ltb_spec delta ack); [ lia | eauto ].
  - destruct (Z.ltb_spec delta ack) as [Hlt | Hge]; [ | eauto ].
    apply IH.
    + rewrite to_u32_id by (unfold is_u32; lia). lia.
    + rewrite to_u32_id by (unfold is_u32; lia). lia.
Qed.

(** With [delta = 0] and credit left the C loop never exits. *)
Lemma tcp_cwnd_loop_diverges fuel ack tcpw :
  0 < ack < 2 ^ 32 -> tcp_cwnd_loop fuel 0 ack tcpw = Fault Diverges.
Proof.
  revert tcpw. induction fuel as [ | fuel IH]; intros tcpw Ha; cbn [tcp_cwnd_loop];
    destruct (Z.ltb_spec 0 ack); try lia; [ reflexivity | ].
  rewrite Z.sub_0_r, (to_u32_id ack) by (unfold is_u32; lia). apply IH. exact Ha.
Qed.

End CntFloor.

(** C3, the state the claim fails in is reachable, and the update leaves
    [cnt] at 0 there.  The connection adopted the algorithm inside a
    handover window: [cubictcp_init] zeroed [cnt] and [last_time], and
    [leo_suspend_transmission] stored the window, 10, in [last_cwnd].  After
    the timer has resumed transmission, the first [bictcp_update] is called
    with [cwnd = 10 = last_cwnd] less than five minutes after boot, when
    [(s32)(tcp_jiffies32 - 0)] is negative: it takes the early return. *)
Theorem bictcp_update_cnt_zero_reachable :
  reachable kernel_hz1000 LeoCubic.default_globals cubic_sock_resumed
  /\ LeoCubic.snd_cwnd cubic_sock_resumed = 10
  /\ exists c,
      LeoCubic.bictcp_update kernel_hz1000 LeoCubic.default_globals
        (jiffies_at_boot + 7000) (LeoCubic.ca cubic_sock_resumed)
        (LeoCubic.snd_cwnd cubic_sock_resumed) 1 = Ok c
      /\ LeoCubic.cnt c = 0.
Proof.
  split; [ | split ].
  - unfold cubic_sock_resumed, cubic_sock_adopted.
    apply reach_timer, reach_init. vm_compute. split; [ discriminate | reflexivity ].
  - reflexivity.
  - eexists. split; [ vm_compute; reflexivity | reflexivity ].
Qed.

(** What [cubictcp_cong_avoid] then does on the next ACK: the connection is
    not in slow start (window 10, threshold 10), so it calls
    [tcp_cong_avoid_ai] with [w = 0], the divisor of that function. *)
Lemma cong_avoid_passes_zero
    (tcp_slow_start : LeoCubic.sock -> Z -> LeoCubic.sock * Z)
    (tcp_cong_avoid_ai : LeoCubic.sock -> Z -> Z -> res LeoCubic.sock) :
  exists s,
    LeoCubic.cubictcp_cong_avoid kernel_hz1000 LeoCubic.default_globals
      tcp_slow_start tcp_cong_avoid_ai true phase_after_window
      (jiffies_at_boot + 7000) cubic_sock_resumed 1
    = tcp_cong_avoid_ai s 0 1.
Proof. eexists. vm_compute. reflexivity. Qed.

(** The first update of a fresh state with window 100 opens an epoch with
    [bic_K = 0] and origin 100, and caps [cnt] at 20. *)
Example bictcp_update_first_epoch :
  exists c,
    LeoCubic.bictcp_update kernel_hz1000 LeoCubic.default_globals 5000
      (LeoCubic.bictcp_reset (LeoCubic.ca cubic_sock_new)) 100 1 = Ok c
    /\ LeoCubic.epoch_start c = 5000
    /\ LeoCubic.bic_K c = 0
    /\ LeoCubic.bic_origin_point c = 100
    /\ LeoCubic.cnt c = 20.
Proof. eexists. split; [ vm_compute; reflexivity | repeat split ]. Qed.

(** A connection that adopts the algorithm inside the handover window is
    suspended at once. *)
Example cubictcp_init_inside_window :
  LeoCubic.is_starlink_handover kernel_hz1000 LeoCubic.default_globals
    phase_inside_window = true
  /\ LeoCubic.snd_cwnd cubic_sock_adopted = 0
  /\ LeoCubic.last_cwnd (LeoCubic.ca cubic_sock_adopted) = 10.
Proof. vm_compute. repeat split. Qed.

(** ** The phase clock *)

Lemma to_u64_to_s64 x : to_u64 (to_s64 x) = to_u64 x.
Proof.
  unfold to_s64, to_u64.
  destruct (x mod 2 ^ 64 <? 2 ^ 63).
  - apply Z.mod_mod. lia.
  - replace (x mod 2 ^ 64 - 2 ^ 64) with (x mod 2 ^ 64 + (-1) * 2 ^ 64) by ring.
    rewrite Z.mod_add by lia. apply Z.mod_mod. lia.
Qed.

Lemma to_u64_add a b : to_u64 (to_u64 a + to_u64 b) = to_u64 (a + b).
Proof. unfold to_u64. symmetry. apply Zplus_mod. Qed.

(** Two numbers that differ by a multiple of [2^64] have the same [u64]. *)
Lemma to_u64_congr a b q : a = b + q * 2 ^ 64 -> to_u64 a = to_u64 b.
Proof. intros ->. unfold to_u64. apply Z.mod_add. lia. Qed.

Section Clock.

Import PhaseClock.

Variable HZ : Z.
Hypothesis HZ_range : 0 < HZ <= 1000000.

Local Abbreviation MINUTE := (NSEC_PER_MIN * HZ).

Lemma minute_u64 : to_u64 MINUTE = MINUTE.
Proof.
  apply to_u64_id. unfold is_u64, NSEC_PER_MIN, SEC_PER_MIN, NSEC_PER_SEC. lia.
Qed.

Lemma leo_jiffies_u64 base j :
  leo_jiffies HZ base j = to_u64 (base + j * NSEC_PER_SEC) mod MINUTE.
Proof. unfold leo_jiffies. rewrite to_u64_add, minute_u64. reflexivity. Qed.

Local Abbreviation wall_phase := (PhaseClock.wall_phase HZ).

Lemma wall_phase_range tv :
  0 <= tv_sec tv -> 0 <= tv_nsec tv < NSEC_PER_SEC ->
  0 <= wall_phase tv < MINUTE.
Proof.
  intros Hs Hn. unfold wall_phase, NSEC_PER_MIN, SEC_PER_MIN, NSEC_PER_SEC in *.
  pose proof (Z.mod_pos_bound (tv_sec tv) 60 ltac:(lia)). nia.
Qed.

Lemma base_compute_u64 tv j :
  0 <= tv_sec tv -> 0 <= tv_nsec tv < NSEC_PER_SEC ->
  to_u64 (leo_jiffies_base_compute HZ tv j)
  = to_u64 (to_u64 (wall_phase tv) - to_u64 (j * NSEC_PER_SEC)).
Proof.
  intros Hs Hn. unfold leo_jiffies_base_compute.
  rewrite to_u64_to_s64.
  rewrite Z.rem_mod_nonneg by (unfold SEC_PER_MIN; lia).
  fold (wall_phase tv).
  rewrite to_u64_to_s64. reflexivity.
Qed.

(** C7 (as amended).  [leo_jiffies] is the 64-bit unsigned sum of the base
    and the tick count times [NSEC_PER_SEC], reduced modulo one minute in
    tick units; it is [(base + ticks * NSEC_PER_SEC) mod minute] whenever
    that sum lies in [0, 2^64).  For a base computed by the resync at wall
    time [tv] and read with the tick count of the resync, it is the phase of
    [tv] within its minute; read [d] ticks later it is that phase advanced
    by [d] ticks, modulo one minute.  Within the same bounds, one minute
    more on the tick counter leaves the value unchanged. *)
Theorem leo_jiffies_phase :
  (forall base j,
      leo_jiffies HZ base j = ((base + j * NSEC_PER_SEC) mod 2 ^ 64) mod MINUTE)
  /\ (forall base j,
      0 <= base + j * NSEC_PER_SEC < 2 ^ 64 ->
      leo_jiffies HZ base j = (base + j * NSEC_PER_SEC) mod MINUTE)
  /\ (forall tv j,
      0 <= tv_sec tv -> 0 <= tv_nsec tv < NSEC_PER_SEC ->
      leo_jiffies HZ (leo_jiffies_base_compute HZ tv j) j = wall_phase tv)
  /\ (forall tv j d,
      0 <= tv_sec tv -> 0 <= tv_nsec tv < NSEC_PER_SEC ->
      0 <= d -> wall_phase tv + d * NSEC_PER_SEC < 2 ^ 64 ->
      leo_jiffies HZ (leo_jiffies_base_compute HZ tv j) (j + d)
      = (wall_phase tv + d * NSEC_PER_SEC) mod MINUTE)
  /\ (forall base j,
      0 <= base + j * NSEC_PER_SEC ->
      base + (j + SEC_PER_MIN * HZ) * NSEC_PER_SEC < 2 ^ 64 ->
      leo_jiffies HZ base (j + SEC_PER_MIN * HZ) = leo_jiffies HZ base j).
Proof.
  assert (H1 : forall base j,
      0 <= base + j * NSEC_PER_SEC < 2 ^ 64 ->
      leo_jiffies HZ base j = (base + j * NSEC_PER_SEC) mod MINUTE).
  { intros base j Hr. rewrite leo_jiffies_u64, to_u64_id by exact Hr. reflexivity. }
  assert (H3 : forall tv j d,
      0 <= tv_sec tv -> 0 <= tv_nsec tv < NSEC_PER_SEC ->
      0 <= d -> wall_phase tv + d * NSEC_PER_SEC < 2 ^ 64 ->
      leo_jiffies HZ (leo_jiffies_base_compute HZ tv j) (j + d)
      = (wall_phase tv + d * NSEC_PER_SEC) mod MINUTE).
  { intros tv j d Hs Hn Hd Hb.
    pose proof (wall_phase_range tv Hs Hn) as Hp.
    rewrite leo_jiffies_u64. f_equal.
    rewrite <- (to_u64_id (wall_phase tv + d * NSEC_PER_SEC))
      by (unfold is_u64, NSEC_PER_SEC in *; lia).
    rewrite <- to_u64_add, base_compute_u64, to_u64_add by assumption.
    unfold to_u64 at 2 3.
    rewrite (Z.mod_eq (wall_phase tv)), (Z.mod_eq (j * NSEC_PER_SEC)) by lia.
    apply to_u64_congr
      with (q := j * NSEC_PER_SEC / 2 ^ 64 - wall_phase tv / 2 ^ 64).
    ring. }
  split; [ exact leo_jiffies_u64 | ].
  split; [ exact H1 | split; [ | split; [ exact H3 | ] ] ].
  - intros tv j Hs Hn.
    pose proof (wall_phase_range tv Hs Hn) as Hp.
    replace j with (j + 0) at 2 by ring.
    rewrite H3; try assumption; try lia.
    + rewrite Z.mul_0_l, Z.add_0_r. apply Z.mod_small. exact Hp.
    + unfold NSEC_PER_MIN, SEC_PER_MIN, NSEC_PER_SEC in *. lia.
  - intros base j Hlo Hhi.
    assert (Hm : 0 < MINUTE) by (unfold NSEC_PER_MIN, SEC_PER_MIN, NSEC_PER_SEC; lia).
    rewrite !H1.
    + replace (base + (j + SEC_PER_MIN * HZ) * NSEC_PER_SEC)
        with (base + j * NSEC_PER_SEC + 1 * MINUTE)
        by (unfold NSEC_PER_MIN; ring).
      apply Z.mod_add. lia.
    + split; [ exact Hlo | ].
      unfold NSEC_PER_MIN, SEC_PER_MIN, NSEC_PER_SEC in *. lia.
    + split; [ | exact Hhi ].
      unfold NSEC_PER_MIN, SEC_PER_MIN, NSEC_PER_SEC in *. lia.
Qed.

End Clock.

Lemma leo_jiffies_phase_witness :
  (0 < 1000 <= 1000000
   /\ 0 <= PhaseClock.tv_sec wall_17s
   /\ 0 <= PhaseClock.tv_nsec wall_17s < NSEC_PER_SEC)
  /\ PhaseClock.leo_jiffies 1000
       (PhaseClock.leo_jiffies_base_compute 1000 wall_17s 86400000) 86400000
     = PhaseClock.wall_phase 1000 wall_17s.
Proof.
  split; [ vm_compute; repeat split; discriminate | ].
  apply (proj1 (proj2 (proj2 (leo_jiffies_phase 1000 ltac:(lia)))) wall_17s 86400000);
    vm_compute; try split; try discriminate; reflexivity.
Defined.

Example leo_jiffies_17s :
  PhaseClock.leo_jiffies 1000
    (PhaseClock.leo_jiffies_base_compute 1000 wall_17s 86400000) 86400000
  = 17250000000 * 1000.
Proof. reflexivity. Qed.

(** C7, the formula does not hold for every base and tick count: for the
    base the resync computed at tick 1000, read with tick count 0, the sum is
    negative, its conversion to [u64] adds [2^64], and [2^64] is not a
    multiple of one minute in tick units. *)
Lemma leo_jiffies_counterexample :
  is_s64 base_at_minute_start
  /\ PhaseClock.leo_jiffies 1000 base_at_minute_start 0
     <> (base_at_minute_start + 0 * NSEC_PER_SEC) mod (NSEC_PER_MIN * 1000).
Proof. vm_compute. repeat split; discriminate. Qed.

Example leo_jiffies_negative_sum :
  base_at_minute_start = - 1000000000000
  /\ PhaseClock.leo_jiffies 1000 base_at_minute_start 0 = 43073709551616
  /\ (base_at_minute_start + 0 * NSEC_PER_SEC) mod (NSEC_PER_MIN * 1000) = 59000000000000.
Proof. vm_compute. repeat split. Qed.

(** ** The cube root *)

Section CubeRootFacts.

Import LeoCubic CubeRoot.
Local Opaque Z.shiftr Z.pow.

Lemma zrange_In lo hi a : lo <= a < hi -> In a (zrange lo hi).
Proof.
  intros H. unfold zrange. apply in_map_iff.
  exists (Z.to_nat (a - lo)). split; [ lia | ].
  apply in_seq. lia.
Qed.

(** [fls64] grows with its argument. *)
Lemma fls64_between p a q :
  0 < p -> p <= a <= q -> fls64 p = fls64 q -> fls64 a = fls64 p.
Proof.
  unfold fls64. intros Hp Ha.
  destruct (Z.eqb_spec p 0), (Z.eqb_spec q 0), (Z.eqb_spec a 0); try lia.
  pose proof (Z.log2_le_mono p a). pose proof (Z.log2_le_mono a q). lia.
Qed.

Lemma shiftr_between p a q n :
  0 <= n -> p <= a <= q -> Z.shiftr p n = Z.shiftr q n -> Z.shiftr a n = Z.shiftr p n.
Proof.
  intros Hn Ha. rewrite !Z.shiftr_div_pow2 by exact Hn. intros E.
  assert (Hpow : 0 < 2 ^ n) by (apply Z.pow_pos_nonneg; lia).
  pose proof (Z.div_le_mono p a (2 ^ n) Hpow). pose proof (Z.div_le_mono a q (2 ^ n) Hpow).
  lia.
Qed.

Lemma fls64_range a : 64 <= a < 2 ^ 64 -> 7 <= fls64 a <= 64.
Proof.
  intros H. unfold fls64. destruct (Z.eqb_spec a 0); [ lia | ].
  pose proof (Z.log2_le_mono 64 a ltac:(lia)) as Hlo.
  change (Z.log2 64) with 6 in Hlo.
  assert (Z.log2 a < 64) by (apply Z.log2_lt_pow2; lia).
  lia.
Qed.

Lemma fls64_small a : 0 <= a < 64 -> 0 <= fls64 a < 7.
Proof.
  intros H. unfold fls64. destruct (Z.eqb_spec a 0); [ lia | ].
  assert (Z.log2 a < 6) by (apply Z.log2_lt_pow2; [ lia | ]; change (2 ^ 6) with 64; lia).
  pose proof (Z.log2_nonneg a). lia.
Qed.

Lemma newton_mono x a a' : 2 <= x -> 0 <= a <= a' -> newton x a <= newton x a'.
Proof.
  intros Hx Ha. unfold newton. rewrite !Z.shiftr_div_pow2 by lia.
  apply Z.div_le_mono; [ apply Z.pow_pos_nonneg; lia | ].
  apply Z.mul_le_mono_nonneg_r; [ lia | ].
  apply Z.add_le_mono_l. apply Z.div_le_mono; nia.
Qed.

Lemma newton_nonneg x a : 2 <= x -> 0 <= a -> 0 <= newton x a.
Proof.
  intros Hx Ha. unfold newton. apply Z.shiftr_nonneg.
  assert (0 <= a / (x * (x - 1))) by (apply Z.div_pos; nia). nia.
Qed.

(** On an interval accepted by [seg_ok] the estimate is the one of the left
    end, it is at least 2, and [cubic_root] returns the closed form. *)
Lemma seg_ok_spec p q :
  seg_ok p q = true ->
  exists x,
    2 <= x /\ x < 2 ^ 32 /\
    forall a, p <= a < q ->
      64 <= a < 2 ^ 64
      /\ cubic_root_estimate a = Ok x
      /\ to_u64 (x * to_u32 (x - 1)) <> 0
      /\ cubic_root a = Ok (newton x a).
Proof.
  unfold seg_ok. intros H.
  repeat (apply andb_true_iff in H as [H ?]).
  destruct (cubic_root_estimate p) as [x | f] eqn:Hest; [ | discriminate ].
  repeat match goal with
         | E : _ && _ = true |- _ => apply andb_true_iff in E as [E ?]
         end.
  repeat match goal with
         | E : (_ <=? _) = true |- _ => apply Z.leb_le in E
         | E : (_ <? _) = true |- _ => apply Z.ltb_lt in E
         | E : (_ =? _) = true |- _ => apply Z.eqb_eq in E
         end.
  exists x. split; [ assumption | split; [ assumption | ] ].
  intros a Ha.
  assert (Hfls : fls64 a = fls64 p)
    by (apply fls64_between with (q := q - 1); lia).
  assert (Hest' : cubic_root_estimate a = Ok x).
  { rewrite <- Hest. unfold cubic_root_estimate. cbv zeta. rewrite Hfls.
    set (n := to_u32 (to_u32 (Z.shiftr (to_u32 (to_u32 (fls64 p) * 84)) 8 - 1) * 3)) in *.
    assert (Hn : 0 <= n) by apply to_u32_range.
    rewrite (shiftr_between p a (q - 1) n Hn); [ reflexivity | lia | assumption ]. }
  assert (Hd : 0 < x * (x - 1)) by nia.
  assert (Hdiv : 0 <= a / (x * (x - 1)) <= (q - 1) / (x * (x - 1))).
  { split; [ apply Z.div_pos; lia | apply Z.div_le_mono; lia ]. }
  assert (Hx1 : to_u32 (x - 1) = x - 1) by (apply to_u32_id; unfold is_u32; lia).
  assert (Hdu : to_u64 (x * (x - 1)) = x * (x - 1))
    by (apply to_u64_id; unfold is_u64; lia).
  split; [ lia | split; [ exact Hest' | split ] ].
  - rewrite Hx1, Hdu. lia.
  - unfold cubic_root. cbv zeta.
    pose proof (fls64_range a ltac:(lia)) as Hb.
    rewrite (to_u32_id (fls64 a)) by (unfold is_u32; lia).
    destruct (Z.ltb_spec (fls64 a) 7); [ lia | ].
    rewrite Hest'. cbn [bind]. rewrite Hx1, Hdu.
    unfold div64_u64. destruct (Z.eqb_spec (x * (x - 1)) 0); [ lia | ].
    cbn [bind]. unfold newton. do 2 f_equal.
    rewrite (to_u32_id (2 * x)) by (unfold is_u32; lia).
    rewrite (to_u32_id (a / _)) by (unfold is_u32; lia).
    rewrite (to_u32_id (2 * x + _)) by (unfold is_u32; lia).
    apply to_u32_id. unfold is_u32. nia.
Qed.

(** Every point between the first and the last element of a checked chain
    lies in one of its intervals. *)
Lemma chain_cover ok l : forall p a,
  chain ok p l = true -> p <= a < chain_end p l ->
  exists p' q', ok p' q' = true /\ p' <= a < q'.
Proof.
  induction l as [ | q l IH]; intros p a Hc Ha; cbn in *.
  - lia.
  - apply andb_true_iff in Hc as [Hpq Hc].
    destruct (Z_lt_le_dec a q) as [Hlt | Hge].
    + exists p, q. split; [ exact Hpq | lia ].
    + apply (IH q a Hc). lia.
Qed.

Lemma bucket_ends_checked : chain seg_ok 64 bucket_ends = true.
Proof. vm_compute. reflexivity. Qed.

Lemma bucket_ends_end : chain_end 64 bucket_ends = 2 ^ 64.
Proof. vm_compute. reflexivity. Qed.

(** The closed form of [cubic_root] above the table. *)
Lemma cubic_root_large a :
  64 <= a < 2 ^ 64 ->
  exists x,
    2 <= x < 2 ^ 32
    /\ cubic_root_estimate a = Ok x
    /\ to_u64 (x * to_u32 (x - 1)) <> 0
    /\ cubic_root a = Ok (newton x a).
Proof.
  intros Ha.
  destruct (chain_cover seg_ok bucket_ends 64 a bucket_ends_checked)
    as (p & q & Hok & Hin); [ rewrite bucket_ends_end; lia | ].
  destruct (seg_ok_spec p q Hok) as (x & Hx & Hx' & Hall).
  exists x. destruct (Hall a Hin) as (_ & He & Hd & Hr). auto.
Qed.

Lemma cubic_root_table_checked :
  forallb (fun a => match cubic_root a with Ok r => 0 <=? r | Fault _ => false end)
          (zrange 0 64) = true.
Proof. vm_compute. reflexivity. Qed.

Lemma cubic_root_returns a :
  0 <= a < 2 ^ 64 -> exists r, cubic_root a = Ok r /\ 0 <= r.
Proof.
  intros Ha. destruct (Z_lt_le_dec a 64) as [Hs | Hl].
  - pose proof cubic_root_table_checked as H.
    rewrite forallb_forall in H. specialize (H a (zrange_In 0 64 a ltac:(lia))).
    destruct (cubic_root a) as [r | f]; [ | discriminate ].
    exists r. split; [ reflexivity | apply Z.leb_le; exact H ].
  - destruct (cubic_root_large a ltac:(lia)) as (x & Hx & _ & _ & Hr).
    exists (newton x a). split; [ exact Hr | apply newton_nonneg; lia ].
Qed.

Lemma cr_val_spec a : 0 <= a < 2 ^ 64 -> cubic_root a = Ok (cr_val a) /\ 0 <= cr_val a.
Proof.
  intros Ha. destruct (cubic_root_returns a Ha) as (r & Hr & Hpos).
  unfold cr_val. rewrite Hr. auto.
Qed.

End CubeRootFacts.

(** C10.  For every 64-bit input with at least 7 significant bits the
    estimate [x] read from the table is at least 2, so the divisor
    [x * (x - 1)] of the Newton-Raphson step is not 0; and [cubic_root]
    returns a value on every 64-bit input: it never divides by zero (and
    never reads past the table). *)
Theorem cubic_root_total :
  (forall a, 0 <= a < 2 ^ 64 -> 7 <= LeoCubic.fls64 a ->
     exists x,
       LeoCubic.cubic_root_estimate a = Ok x
       /\ 2 <= x
       /\ to_u64 (x * to_u32 (x - 1)) <> 0)
  /\ (forall a, 0 <= a < 2 ^ 64 -> exists r, LeoCubic.cubic_root a = Ok r).
Proof.
  split.
  - intros a Ha Hb.
    assert (64 <= a).
    { destruct (Z_lt_le_dec a 64) as [Hs | Hl]; [ | exact Hl ].
      pose proof (fls64_small a ltac:(lia)). lia. }
    destruct (cubic_root_large a ltac:(lia)) as (x & Hx & He & Hd & _).
    exists x. repeat split; [ exact He | lia | exact Hd ].
  - intros a Ha. destruct (cubic_root_returns a Ha) as (r & Hr & _).
    exists r. exact Hr.
Qed.

Lemma cubic_root_total_witness :
  (0 <= 1000000 < 2 ^ 64 /\ 7 <= LeoCubic.fls64 1000000)
  /\ exists x,
       LeoCubic.cubic_root_estimate 1000000 = Ok x
       /\ 2 <= x
       /\ to_u64 (x * to_u32 (x - 1)) <> 0.
Proof.
  split; [ split; [ lia | vm_compute; discriminate ] | ].
  apply (proj1 cubic_root_total 1000000); [ lia | vm_compute; discriminate ].
Defined.

Example cubic_root_estimate_million :
  LeoCubic.cubic_root_estimate 1000000 = Ok 103
  /\ LeoCubic.cubic_root 1000000 = Ok 100.
Proof. split; reflexivity. Qed.

Section CubeRootAccuracy.

Import LeoCubic CubeRoot.
Local Opaque Z.shiftr Z.pow.

Lemma link_seg p q : link p q = true -> seg_ok p q = true.
Proof. unfold link. intros H. apply andb_true_iff in H as [H _]. exact H. Qed.

(** Inside an interval accepted by [seg_ok] the result does not drop. *)
Lemma seg_mono p q a a' :
  seg_ok p q = true -> p <= a <= a' -> a' < q -> cr_val a <= cr_val a'.
Proof.
  intros Hok Ha Ha'.
  destruct (seg_ok_spec p q Hok) as (x & Hx & _ & Hall).
  destruct (Hall a ltac:(lia)) as (Hr & _ & _ & Hc).
  destruct (Hall a' ltac:(lia)) as (_ & _ & _ & Hc').
  unfold cr_val. rewrite Hc, Hc'. apply newton_mono; lia.
Qed.

(** Along a chain accepted by [link] the result does not drop at all. *)
Lemma chain_mono l : forall p a a',
  chain link p l = true ->
  p <= a <= a' -> a' < chain_end p l -> a' < 2 ^ 64 ->
  cr_val a <= cr_val a'.
Proof.
  induction l as [ | q l IH]; intros p a a' Hc Ha Hend Hmax; cbn in *.
  - lia.
  - apply andb_true_iff in Hc as [Hpq Hc].
    destruct (Z_lt_le_dec a' q) as [Hin | Hout].
    + apply (seg_mono p q); [ apply link_seg; exact Hpq | lia | lia ].
    + destruct (Z_lt_le_dec a q) as [Hlt | Hge].
      * apply Z.le_trans with (cr_val (q - 1));
          [ apply (seg_mono p q); [ apply link_seg; exact Hpq | lia | lia ] | ].
        apply Z.le_trans with (cr_val q); [ | apply (IH q); [ exact Hc | lia | lia | lia ] ].
        unfold link in Hpq. apply andb_true_iff in Hpq as [_ Hstep].
        apply orb_true_iff in Hstep as [Hq | Hstep];
          [ apply Z.eqb_eq in Hq; lia | apply Z.leb_le; exact Hstep ].
      * apply (IH q); [ exact Hc | lia | lia | lia ].
Qed.

Lemma upper_chain_checked :
  chain link 464 (filter (fun q => 464 <? q) bucket_ends) = true.
Proof. vm_compute. reflexivity. Qed.

Lemma upper_chain_end :
  chain_end 464 (filter (fun q => 464 <? q) bucket_ends) = 2 ^ 64.
Proof. vm_compute. reflexivity. Qed.

(** From 464 upwards [cubic_root] is non-decreasing. *)
Lemma cr_val_mono_from_464 a a' :
  464 <= a <= a' -> a' < 2 ^ 64 -> cr_val a <= cr_val a'.
Proof.
  intros Ha Hmax.
  apply (chain_mono _ 464 a a' upper_chain_checked); [ lia | | lia ].
  rewrite upper_chain_end. exact Hmax.
Qed.

Lemma cube_le_mono x y : 0 <= x <= y -> x ^ 3 <= y ^ 3.
Proof. intros H. apply Z.pow_le_mono_l. exact H. Qed.

Lemma err_check_sound fuel : forall lo hi,
  err_check fuel lo hi = true -> 464 <= lo -> hi < 2 ^ 64 ->
  forall a, lo <= a <= hi -> within_3_per_mille a (cr_val a).
Proof.
  assert (Hends : forall lo hi a,
    (997 ^ 3 * hi <=? (1000 * cr_val lo) ^ 3)
    && ((1000 * cr_val hi) ^ 3 <=? 1003 ^ 3 * lo) = true ->
    464 <= lo -> hi < 2 ^ 64 -> lo <= a <= hi -> within_3_per_mille a (cr_val a)).
  { intros lo hi a Ht Hlo Hhi Ha.
    apply andb_true_iff in Ht as [Hl Hu]. apply Z.leb_le in Hl, Hu.
    pose proof (cr_val_mono_from_464 lo a ltac:(lia) ltac:(lia)) as M1.
    pose proof (cr_val_mono_from_464 a hi ltac:(lia) ltac:(lia)) as M2.
    destruct (cr_val_spec lo ltac:(lia)) as [_ P1].
    destruct (cr_val_spec a ltac:(lia)) as [_ P2].
    pose proof (cube_le_mono (1000 * cr_val lo) (1000 * cr_val a) ltac:(lia)) as C1.
    pose proof (cube_le_mono (1000 * cr_val a) (1000 * cr_val hi) ltac:(lia)) as C2.
    unfold within_3_per_mille. lia. }
  induction fuel as [ | fuel IH]; intros lo hi Hc Hlo Hhi a Ha; cbn [err_check] in Hc.
  - destruct (Z.ltb_spec hi lo); [ lia | ].
    destruct (_ && _) eqn:Ht; [ | discriminate ].
    apply (Hends lo hi a Ht); assumption.
  - destruct (Z.ltb_spec hi lo); [ lia | ].
    destruct (_ && _) eqn:Ht; [ apply (Hends lo hi a Ht); assumption | ].
    cbv zeta in Hc. apply andb_true_iff in Hc as [Hc1 Hc2].
    assert (Hmid : lo <= (lo + hi) / 2 <= hi).
    { split; [ apply Z.div_le_lower_bound | apply Z.div_le_upper_bound ]; lia. }
    destruct (Z_le_gt_dec a ((lo + hi) / 2)) as [Hleft | Hright].
    + apply (IH lo ((lo + hi) / 2) Hc1); lia.
    + apply (IH ((lo + hi) / 2 + 1) hi Hc2); lia.
Qed.

Lemma accuracy_checked : err_check 80 accurate_from (2 ^ 64 - 1) = true.
Proof. vm_compute. reflexivity. Qed.

(** Below 464 the result drops only at the four listed inputs. *)
Lemma lower_steps_checked :
  forallb (fun a => (cr_val a <=? cr_val (a + 1)) || existsb (Z.eqb a) descents)
          (zrange 0 464) = true.
Proof. vm_compute. reflexivity. Qed.

Lemma cr_val_step a :
  0 <= a -> a + 1 < 2 ^ 64 -> ~ In a descents -> cr_val a <= cr_val (a + 1).
Proof.
  intros Ha Hmax Hnot. destruct (Z_lt_le_dec a 464) as [Hs | Hl].
  - pose proof lower_steps_checked as H. rewrite forallb_forall in H.
    specialize (H a (zrange_In 0 464 a ltac:(lia))).
    apply orb_true_iff in H as [H | H]; [ apply Z.leb_le; exact H | ].
    apply existsb_exists in H as (d & Hd & E). apply Z.eqb_eq in E. subst d.
    contradiction.
  - apply cr_val_mono_from_464; lia.
Qed.

Lemma cr_val_mono_between n : forall a,
  0 <= a -> a + Z.of_nat n < 2 ^ 64 ->
  (forall d, In d descents -> ~ (a <= d < a + Z.of_nat n)) ->
  cr_val a <= cr_val (a + Z.of_nat n).
Proof.
  induction n as [ | n IH]; intros a Ha Hmax Hfree.
  - rewrite Z.add_0_r. lia.
  - replace (a + Z.of_nat (S n)) with (a + Z.of_nat n + 1) in * by lia.
    apply Z.le_trans with (cr_val (a + Z.of_nat n)).
    + apply IH; [ lia | lia | ]. intros d Hd Hin. apply (Hfree d Hd). lia.
    + apply cr_val_step; [ lia | lia | ]. intros Hd. apply (Hfree _ Hd). lia.
Qed.

End CubeRootAccuracy.

(** *** The accuracy bound and the real cube root *)

Lemma cube_le_real (x y : R) : (0 <= x)%R -> (x <= y)%R -> (x ^ 3 <= y ^ 3)%R.
Proof. intros Hx H. apply pow_incr. lra. Qed.

Lemma cube_le_cancel (x y : R) :
  (0 <= x)%R -> (0 <= y)%R -> (x ^ 3 <= y ^ 3)%R -> (x <= y)%R.
Proof.
  intros Hx Hy H. destruct (Rle_or_lt x y) as [ | Hlt]; [ assumption | exfalso ].
  assert (Hpos : (0 < (x - y) * (x * x + x * y + y * y))%R).
  { apply Rmult_lt_0_compat; [ lra | ].
    assert (0 < x * x)%R by (apply Rmult_lt_0_compat; lra).
    assert (0 <= x * y)%R by (apply Rmult_le_pos; lra).
    assert (0 <= y * y)%R by (apply Rmult_le_pos; lra).
    lra. }
  simpl in H. lra.
Qed.

(** [within_3_per_mille a r] says that [r] is within 0.3 % of the real cube
    root [c] of [a]. *)
Lemma within_3_per_mille_real (a r : Z) (c : R) :
  0 <= r -> (0 <= c)%R -> (c ^ 3 = IZR a)%R ->
  CubeRoot.within_3_per_mille a r <-> (Rabs (IZR r - c) <= 3 / 1000 * c)%R.
Proof.
  intros Hr Hc Hcube. unfold CubeRoot.within_3_per_mille.
  assert (HR : (0 <= IZR r)%R) by (apply IZR_le; exact Hr).
  assert (E1 : IZR (997 ^ 3 * a) = ((997 * c) ^ 3)%R).
  { rewrite mult_IZR, <- Hcube. change (997 ^ 3) with 991026973. simpl. lra. }
  assert (E2 : IZR ((1000 * r) ^ 3) = ((1000 * IZR r) ^ 3)%R).
  { replace ((1000 * r) ^ 3) with (1000 * r * (1000 * r) * (1000 * r)) by ring.
    rewrite !mult_IZR. simpl. lra. }
  assert (E3 : IZR (1003 ^ 3 * a) = ((1003 * c) ^ 3)%R).
  { rewrite mult_IZR, <- Hcube. change (1003 ^ 3) with 1009027027. simpl. lra. }
  split.
  - intros [H1 H2]. apply IZR_le in H1, H2. rewrite E1, E2 in H1. rewrite E2, E3 in H2.
    apply cube_le_cancel in H1; [ | lra | lra ].
    apply cube_le_cancel in H2; [ | lra | lra ].
    apply Rabs_le. lra.
  - intros H. unfold Rabs in H. destruct (Rcase_abs (IZR r - c)).
    all: split; apply le_IZR;
      [ rewrite E1, E2; apply cube_le_real; lra
      | rewrite E2, E3; apply cube_le_real; lra ].
Qed.

(** C8 (as amended).  For every 64-bit input [a >= 52395120] the result [r]
    of [cubic_root] is within 0.3 % of the real cube root [c] of [a]:
    [|r - c| <= 0.003 * c], that is [997^3 * a <= (1000 * r)^3 <= 1003^3 * a].
    The result is non-decreasing from 464 upwards, and more generally
    between any two inputs [a <= b] unless one of 111, 199, 311, 463 lies in
    [a, b): at these four inputs, and only there, the result drops (by one)
    at the next input. *)
Theorem cubic_root_accuracy_and_order :
  (forall a r,
      CubeRoot.accurate_from <= a < 2 ^ 64 ->
      LeoCubic.cubic_root a = Ok r ->
      CubeRoot.within_3_per_mille a r
      /\ forall c : R, (0 <= c)%R -> (c ^ 3 = IZR a)%R ->
                       (Rabs (IZR r - c) <= 3 / 1000 * c)%R)
  /\ (forall a b ra rb,
      464 <= a <= b -> b < 2 ^ 64 ->
      LeoCubic.cubic_root a = Ok ra -> LeoCubic.cubic_root b = Ok rb ->
      ra <= rb)
  /\ (forall a b ra rb,
      0 <= a <= b -> b < 2 ^ 64 ->
      (forall d, In d CubeRoot.descents -> ~ (a <= d < b)) ->
      LeoCubic.cubic_root a = Ok ra -> LeoCubic.cubic_root b = Ok rb ->
      ra <= rb).
Proof.
  split; [ | split ].
  - intros a r Ha Hr.
    pose proof (err_check_sound 80 CubeRoot.accurate_from (2 ^ 64 - 1) accuracy_checked)
      as H.
    specialize (H ltac:(unfold CubeRoot.accurate_from; lia) ltac:(lia) a
                  ltac:(lia)).
    assert (Ha' : 0 <= a < 2 ^ 64) by (unfold CubeRoot.accurate_from in Ha; lia).
    destruct (cr_val_spec a Ha') as [_ Hpos].
    unfold CubeRoot.cr_val in H, Hpos. rewrite Hr in H, Hpos.
    split; [ exact H | ].
    intros c Hc Hcube. apply (within_3_per_mille_real a r c Hpos Hc Hcube). exact H.
  - intros a b ra rb Ha Hb Hra Hrb.
    pose proof (cr_val_mono_from_464 a b Ha Hb) as H.
    unfold CubeRoot.cr_val in H. rewrite Hra, Hrb in H. exact H.
  - intros a b ra rb Ha Hb Hfree Hra Hrb.
    pose proof (cr_val_mono_between (Z.to_nat (b - a)) a) as H.
    replace (a + Z.of_nat (Z.to_nat (b - a))) with b in H by lia.
    specialize (H ltac:(lia) Hb Hfree).
    unfold CubeRoot.cr_val in H. rewrite Hra, Hrb in H. exact H.
Qed.

Lemma cubic_root_accuracy_and_order_witness :
  (CubeRoot.accurate_from <= 10 ^ 18 < 2 ^ 64
   /\ LeoCubic.cubic_root (10 ^ 18) = Ok 1000016)
  /\ CubeRoot.within_3_per_mille (10 ^ 18) 1000016.
Proof.
  split; [ split; [ unfold CubeRoot.accurate_from; lia | vm_compute; reflexivity ] | ].
  apply (proj1 cubic_root_accuracy_and_order (10 ^ 18) 1000016);
    [ unfold CubeRoot.accurate_from; lia | vm_compute; reflexivity ].
Defined.

(** In the reals the counterexample at 2 reads: 1 is not within 0.3 % of
    any non-negative real whose cube is 2. *)
Lemma cubic_root_two_real (c : R) :
  (0 <= c)%R -> (c ^ 3 = 2)%R -> ~ (Rabs (1 - c) <= 3 / 1000 * c)%R.
Proof.
  intros Hc Hcube H.
  apply (within_3_per_mille_real 2 1 c ltac:(lia) Hc Hcube) in H.
  unfold CubeRoot.within_3_per_mille in H. lia.
Qed.

(** C8, the claim as stated fails on both counts: [cubic_root 2 = 1], which
    is more than 20 % below the cube root of 2, and [cubic_root 111 = 5]
    while [cubic_root 112 = 4]. *)
Lemma cubic_root_counterexample :
  (LeoCubic.cubic_root 2 = Ok 1 /\ ~ CubeRoot.within_3_per_mille 2 1)
  /\ (111 <= 112
      /\ LeoCubic.cubic_root 111 = Ok 5 /\ LeoCubic.cubic_root 112 = Ok 4
      /\ ~ 5 <= 4).
Proof.
  split; [ split; [ reflexivity | ] | repeat split; lia ].
  unfold CubeRoot.within_3_per_mille. lia.
Qed.

(** The bound of C8 is sharp at its left end. *)
Example cubic_root_accuracy_sharp :
  LeoCubic.cubic_root (CubeRoot.accurate_from - 1) = Ok 373
  /\ ~ CubeRoot.within_3_per_mille (CubeRoot.accurate_from - 1) 373.
Proof.
  split; [ vm_compute; reflexivity | ].
  unfold CubeRoot.within_3_per_mille, CubeRoot.accurate_from. lia.
Qed.

(** The four descents. *)
Example cubic_root_descents :
  map CubeRoot.cr_val [111; 112; 199; 200; 311; 312; 463; 464]
  = [5; 4; 6; 5; 7; 6; 8; 7].
Proof. vm_compute. reflexivity. Qed.

(* ================================================================== *)
(** * Further properties of the code *)
(* ================================================================== *)

(** ** The handover window and its timer *)

(** Resume never leaves the window at 0. *)
Lemma cubic_end_cwnd s : LeoCubic.snd_cwnd (LeoCubic.leo_handover_end s) <> 0.
Proof.
  unfold LeoCubic.leo_handover_end.
  destruct (Z.eqb_spec (LeoCubic.snd_cwnd s) 0) as [E | E]; cbn [negb]; [ | exact E ].
  assert (H : LeoCubic.snd_cwnd (LeoCubic.leo_resume_transmission s) <> 0)
    by (unfold LeoCubic.leo_resume_transmission; cbn [LeoCubic.snd_cwnd LeoCubic.set_snd_cwnd]; lia).
  destruct (_ && _); [ | exact H ]. exact H.
Qed.

Lemma leo_end_cwnd sk saved : Leo.snd_cwnd (Leo.leo_handover_end sk saved) <> 0.
Proof.
  unfold Leo.leo_handover_end.
  destruct (Z.eqb_spec (Leo.snd_cwnd sk) 0) as [E | E]; cbn [negb]; [ | exact E ].
  assert (H : Leo.snd_cwnd (Leo.leo_resume_transmission sk saved) <> 0)
    by (unfold Leo.leo_resume_transmission; cbn [Leo.snd_cwnd Leo.set_snd_cwnd]; lia).
  destruct (_ && _); [ | exact H ]. exact H.
Qed.

Section HandoverWindow.

Variables HZ start_ms end_ms : Z.
Hypothesis HZ_range : 0 < HZ <= 1000000.
Hypothesis start_int : is_int start_ms.
Hypothesis end_int : is_int end_ms.

Local Abbreviation START := (HANDOVER_START HZ start_ms).
Local Abbreviation END_ := (HANDOVER_END HZ end_ms).
Local Abbreviation INTERVAL := (HANDOVER_INTERVAL HZ).
Local Abbreviation msec := (NSEC_PER_MSEC * HZ).

Lemma window_order :
  0 < msec
  /\ 11000 * msec <= START <= 12000 * msec
  /\ 12000 * msec <= END_ <= 13000 * msec
  /\ INTERVAL = 15000 * msec.
Proof.
  destruct (handover_window_bounds HZ start_ms end_ms HZ_range start_int end_int)
    as (Hs & He & Hi).
  pose proof (handover_offset_bounds start_ms start_int).
  pose proof (handover_offset_bounds end_ms end_int).
  rewrite Hs, He, Hi. unfold NSEC_PER_MSEC. nia.
Qed.

(** Whatever the two parameters are set to, the window lies inside the 15 s
    period, between 11 s and 13 s, and contains the instant 12 s: the clock
    reads "handover" at 12 s, 27 s, 42 s and 57 s of every minute and never
    in the first 11 s or the last 2 s of a period. *)
Theorem handover_window_geometry :
  (11000 * msec <= START <= 12000 * msec
   /\ 12000 * msec <= END_ <= 13000 * msec
   /\ END_ < INTERVAL)
  /\ (forall n : Z,
      PhaseClock.is_leo_handover HZ start_ms end_ms (12000 * msec + n * INTERVAL) = true)
  /\ (forall phase,
      phase mod INTERVAL < 11000 * msec \/ 13000 * msec < phase mod INTERVAL ->
      PhaseClock.is_leo_handover HZ start_ms end_ms phase = false)
  /\ (forall phase n,
      PhaseClock.is_leo_handover HZ start_ms end_ms (phase + n * INTERVAL)
      = PhaseClock.is_leo_handover HZ start_ms end_ms phase).
Proof.
  destruct window_order as (Hm & Hs & He & Hi).
  split; [ lia | split; [ | split ] ].
  - intros n. unfold PhaseClock.is_leo_handover.
    rewrite Z.mod_add by lia. rewrite Z.mod_small by lia.
    apply andb_true_iff. split; apply Z.leb_le; lia.
  - intros phase Hout. unfold PhaseClock.is_leo_handover.
    apply andb_false_iff.
    destruct Hout; [ left | right ]; apply Z.leb_gt; lia.
  - intros phase n. unfold PhaseClock.is_leo_handover.
    rewrite Z.mod_add by lia. reflexivity.
Qed.

(** [leo_handover_timer_reset] always arms the timer between 1 tick and
    15 s ahead.  The delay is the time [D] from the phase within the period
    to the next edge of a window strictly after it (no start or end of a
    window, of any period, lies in between), in whole ticks and at least 1.
    [leo_handover] ends with the timer armed in this way, and so does
    [leo_handover_cb] when it finds the socket not owned by the user (and,
    in [tcp_leo.c], established). *)
Theorem handover_timer_delay (phase : Z) :
  let timo := handover_timo HZ start_ms end_ms phase in
  1 <= timo <= 15 * HZ
  /\ (exists D,
        0 < D
        /\ (phase mod INTERVAL + D = START
            \/ phase mod INTERVAL + D = END_
            \/ phase mod INTERVAL + D = START + INTERVAL)
        /\ (forall n e,
              e = START + n * INTERVAL \/ e = END_ + n * INTERVAL ->
              phase mod INTERVAL < e -> phase mod INTERVAL + D <= e)
        /\ timo = Z.max 1 (D / NSEC_PER_SEC))
  /\ (forall jiffies sk msecs_to_jiffies,
        Leo.handover_timer (Leo.leo_handover_timer_reset HZ start_ms end_ms phase jiffies sk)
        = Some (to_u64 (jiffies + timo))
        /\ Leo.handover_timer
             (Leo.leo_handover HZ msecs_to_jiffies start_ms end_ms phase jiffies sk)
           = Some (to_u64 (jiffies + timo))
        /\ Leo.handover_timer
             (Leo.leo_handover_cb HZ msecs_to_jiffies start_ms end_ms false true
                phase jiffies sk)
           = Some (to_u64 (jiffies + timo)))
  /\ (forall u2j g jiffies s,
        LeoCubic.starlink_handover_start_ms g = start_ms ->
        LeoCubic.starlink_handover_end_ms g = end_ms ->
        let k := LeoCubic.mk_kernel HZ u2j in
        LeoCubic.handover_timer (LeoCubic.leo_handover_timer_reset k g phase jiffies s)
        = Some (to_u64 (jiffies + timo))
        /\ LeoCubic.handover_timer (LeoCubic.leo_handover k g phase jiffies s)
           = Some (to_u64 (jiffies + timo))
        /\ LeoCubic.handover_timer (LeoCubic.leo_handover_cb k g false phase jiffies s)
           = Some (to_u64 (jiffies + timo))).
Proof.
  cbv zeta.
  destruct window_order as (Hm & Hs & He & Hi).
  assert (Hnj : 0 <= phase mod INTERVAL < INTERVAL) by (apply Z.mod_pos_bound; lia).
  assert (Hsec : NSEC_PER_SEC * HZ = 1000 * msec)
    by (unfold NSEC_PER_SEC, NSEC_PER_MSEC; ring).
  assert (Hcase : forall D,
    0 < D <= INTERVAL ->
    (if Z.quot (to_s64 D) NSEC_PER_SEC <=? 0 then 1 else Z.quot (to_s64 D) NSEC_PER_SEC)
    = Z.max 1 (D / NSEC_PER_SEC)
    /\ 1 <= Z.max 1 (D / NSEC_PER_SEC) <= 15 * HZ).
  { intros D HD.
    rewrite to_s64_id by (unfold is_s64, NSEC_PER_MSEC in *; lia).
    rewrite Z.quot_div_nonneg by (unfold NSEC_PER_SEC; lia).
    assert (0 <= D / NSEC_PER_SEC <= 15 * HZ).
    { split; [ apply Z.div_pos; unfold NSEC_PER_SEC; lia | ].
      apply Z.div_le_upper_bound; unfold NSEC_PER_SEC, NSEC_PER_MSEC in *; lia. }
    destruct (Z.leb_spec (D / NSEC_PER_SEC) 0); lia. }
  assert (Hedges : forall n e,
    e = START + n * INTERVAL \/ e = END_ + n * INTERVAL ->
    phase mod INTERVAL < e ->
    (n = 0 /\ (e = START \/ e = END_)) \/ START + INTERVAL <= e).
  { intros n e He' Hlt.
    destruct (Z_lt_le_dec n 0) as [Hn | Hn].
    - assert (n * INTERVAL <= - INTERVAL) by nia. lia.
    - destruct (Z.eq_dec n 0) as [-> | Hn0].
      + left. split; [ reflexivity | lia ].
      + right. assert (INTERVAL <= n * INTERVAL) by nia. lia. }
  assert (Hmain :
    exists D, 0 < D <= INTERVAL
      /\ (phase mod INTERVAL + D = START
          \/ phase mod INTERVAL + D = END_
          \/ phase mod INTERVAL + D = START + INTERVAL)
      /\ (forall n e,
            e = START + n * INTERVAL \/ e = END_ + n * INTERVAL ->
            phase mod INTERVAL < e -> phase mod INTERVAL + D <= e)
      /\ handover_timo HZ start_ms end_ms phase
         = (if Z.quot (to_s64 D) NSEC_PER_SEC <=? 0 then 1
            else Z.quot (to_s64 D) NSEC_PER_SEC)).
  { unfold handover_timo. cbv zeta.
    destruct (Z.ltb_spec (phase mod INTERVAL) START) as [H1 | H1].
    - exists (START - phase mod INTERVAL).
      split; [ lia | split; [ lia | split; [ | reflexivity ] ] ].
      intros n e He' Hlt. destruct (Hedges n e He' Hlt) as [[_ [-> | ->]] | H]; lia.
    - destruct (Z.ltb_spec (phase mod INTERVAL) END_) as [H2 | H2].
      + exists (END_ - phase mod INTERVAL).
        split; [ lia | split; [ lia | split; [ | reflexivity ] ] ].
        intros n e He' Hlt. destruct (Hedges n e He' Hlt) as [[_ [-> | ->]] | H]; lia.
      + exists (START + INTERVAL - phase mod INTERVAL).
        rewrite (to_u64_id (START + INTERVAL))
          by (unfold is_u64, NSEC_PER_MSEC in *; lia).
        split; [ lia | split; [ lia | split; [ | reflexivity ] ] ].
        intros n e He' Hlt. destruct (Hedges n e He' Hlt) as [[_ [-> | ->]] | H]; lia. }
  destruct Hmain as (D & HD & Hedge & Hnext & Ht).
  destruct (Hcase D HD) as [Heq Hb]. rewrite Heq in Ht.
  split; [ rewrite Ht; exact Hb | split; [ | split ] ].
  - exists D. repeat split; [ lia | exact Hedge | exact Hnext | exact Ht ].
  - intros jiffies sk msecs_to_jiffies. repeat split.
  - intros u2j g jiffies s <- <-. repeat split.
Qed.

(** After the timer callback the window is 0 exactly when the phase, taken
    10 ms early, lies in the window [START, END): each firing leaves the
    gate in the state the clock asks for, whatever state it found. *)
Theorem handover_callback_sets_gate (phase jiffies : Z) :
  (forall s u2j g,
      LeoCubic.starlink_handover_start_ms g = start_ms ->
      LeoCubic.starlink_handover_end_ms g = end_ms ->
      (LeoCubic.snd_cwnd
         (LeoCubic.leo_handover (LeoCubic.mk_kernel HZ u2j) g phase jiffies s) = 0
       <-> START <= phase mod INTERVAL + 10 * msec < END_))
  /\ (forall sk msecs_to_jiffies,
      Leo.snd_cwnd
        (Leo.leo_handover HZ msecs_to_jiffies start_ms end_ms phase jiffies sk) = 0
      <-> START <= phase mod INTERVAL + 10 * msec < END_).
Proof.
  destruct window_order as (Hm & Hs & He & Hi).
  assert (Hnj : 0 <= phase mod INTERVAL < INTERVAL) by (apply Z.mod_pos_bound; lia).
  assert (Hj : HANDOVER_TIME_JITTER HZ = 10 * msec).
  { unfold HANDOVER_TIME_JITTER. rewrite to_u64_id; [ ring | ].
    unfold is_u64, NSEC_PER_MSEC. lia. }
  assert (Hearly : to_u64 (phase mod INTERVAL + HANDOVER_TIME_JITTER HZ)
                   = phase mod INTERVAL + 10 * msec).
  { rewrite Hj. apply to_u64_id. unfold is_u64, NSEC_PER_MSEC in *. lia. }
  split.
  - intros s u2j g <- <-.
    unfold LeoCubic.leo_handover. cbv zeta. cbn [LeoCubic.HZ]. rewrite Hearly.
    unfold LeoCubic.leo_handover_timer_reset, LeoCubic.sk_reset_timer.
    cbn [LeoCubic.snd_cwnd].
    destruct (Z.leb_spec
                (HANDOVER_END HZ (LeoCubic.starlink_handover_end_ms g))
                (phase mod INTERVAL + 10 * msec)) as [H1 | H1].
    + pose proof (cubic_end_cwnd s). lia.
    + destruct (Z.leb_spec
                  (HANDOVER_START HZ (LeoCubic.starlink_handover_start_ms g))
                  (phase mod INTERVAL + 10 * msec)) as [H2 | H2].
      * rewrite cubic_start_cwnd. lia.
      * destruct (Z.eqb_spec (LeoCubic.snd_cwnd s) 0) as [E | E]; [ | lia ].
        pose proof (cubic_end_cwnd s). lia.
  - intros sk msecs_to_jiffies.
    unfold Leo.leo_handover. cbv zeta. rewrite Hearly.
    unfold Leo.leo_handover_timer_reset, Leo.sk_reset_timer. cbn [Leo.snd_cwnd].
    destruct (Z.leb_spec END_ (phase mod INTERVAL + 10 * msec)) as [H1 | H1].
    + pose proof (leo_end_cwnd sk (Leo.last_snd_cwnd_cell sk)). lia.
    + destruct (Z.leb_spec START (phase mod INTERVAL + 10 * msec)) as [H2 | H2].
      * rewrite leo_start_cwnd. lia.
      * destruct (Z.eqb_spec (Leo.snd_cwnd sk) 0) as [E | E]; [ | lia ].
        pose proof (leo_end_cwnd sk (Leo.last_snd_cwnd_cell sk)). lia.
Qed.

End HandoverWindow.

(** ** The sanity checks and the hooks around the gate *)

Lemma cubic_end_restores s :
  LeoCubic.snd_cwnd s = 0 ->
  LeoCubic.snd_cwnd (LeoCubic.leo_handover_end s)
  = Z.max 1 (LeoCubic.last_cwnd (LeoCubic.ca s)).
Proof.
  intros E. unfold LeoCubic.leo_handover_end. rewrite E. cbn [Z.eqb negb].
  destruct (_ && _); reflexivity.
Qed.

Lemma leo_end_restores sk saved :
  Leo.snd_cwnd sk = 0 -> Leo.snd_cwnd (Leo.leo_handover_end sk saved) = Z.max 1 saved.
Proof.
  intros E. unfold Leo.leo_handover_end. rewrite E. cbn [Z.eqb negb].
  destruct (_ && _); reflexivity.
Qed.

(** [leo_handover_check], the check exported by [tcp_leo.c], tells whether
    the clock is inside a handover window and leaves the window at 0
    exactly in that case: a window that is open during a handover is
    closed, a window left at 0 after one is restored to [max (1, saved)],
    and a socket already in the right state is not touched. *)
Theorem handover_check_reconciles
    (HZ : Z) (msecs_to_jiffies : Z -> Z) (start_ms end_ms now : Z)
    (sk : Leo.sock) (saved : Z) :
  let inside := PhaseClock.is_leo_handover HZ start_ms end_ms now in
  let r := Leo.leo_handover_check HZ msecs_to_jiffies start_ms end_ms now sk saved in
  fst r = inside
  /\ (Leo.snd_cwnd (snd r) = 0 <-> inside = true)
  /\ (inside = false -> Leo.snd_cwnd sk = 0 -> Leo.snd_cwnd (snd r) = Z.max 1 saved)
  /\ ((Leo.snd_cwnd sk = 0 <-> inside = true) -> snd r = sk).
Proof.
  cbv zeta. unfold Leo.leo_handover_check.
  destruct (PhaseClock.is_leo_handover HZ start_ms end_ms now); cbn [fst snd].
  - destruct (Z.eqb_spec (Leo.snd_cwnd sk) 0) as [E | E]; cbn [negb].
    + repeat split; auto; discriminate.
    + pose proof (leo_start_cwnd msecs_to_jiffies start_ms end_ms sk).
      repeat split; auto; try discriminate.
      intros [_ H1]. specialize (H1 eq_refl). contradiction.
  - destruct (Z.eqb_spec (Leo.snd_cwnd sk) 0) as [E | E].
    + pose proof (leo_end_cwnd sk saved).
      repeat split; try discriminate; try contradiction.
      * intros _ _. apply leo_end_restores. exact E.
      * intros [H1 _]. specialize (H1 E). discriminate.
    + repeat split; try discriminate; try contradiction; auto.
Qed.

(** While the clock is inside a handover window [cubictcp_cong_avoid] does
    no congestion avoidance: it returns with the window at 0, calling
    neither [tcp_slow_start] nor [tcp_cong_avoid_ai], and leaves the
    threshold and the CUBIC counters as they were. *)
Theorem cong_avoid_during_handover
    (k : LeoCubic.kernel) (g : LeoCubic.globals)
    (tcp_slow_start : LeoCubic.sock -> Z -> LeoCubic.sock * Z)
    (tcp_cong_avoid_ai : LeoCubic.sock -> Z -> Z -> res LeoCubic.sock)
    (phase now : Z) (s : LeoCubic.sock) (acked : Z) :
  LeoCubic.is_starlink_handover k g phase = true ->
  exists s',
    LeoCubic.cubictcp_cong_avoid k g tcp_slow_start tcp_cong_avoid_ai true
      phase now s acked = Ok s'
    /\ LeoCubic.snd_cwnd s' = 0
    /\ LeoCubic.snd_ssthresh s' = LeoCubic.snd_ssthresh s
    /\ LeoCubic.cnt (LeoCubic.ca s') = LeoCubic.cnt (LeoCubic.ca s)
    /\ LeoCubic.ack_cnt (LeoCubic.ca s') = LeoCubic.ack_cnt (LeoCubic.ca s)
    /\ LeoCubic.epoch_start (LeoCubic.ca s') = LeoCubic.epoch_start (LeoCubic.ca s)
    /\ LeoCubic.last_max_cwnd (LeoCubic.ca s') = LeoCubic.last_max_cwnd (LeoCubic.ca s)
    /\ (LeoCubic.snd_cwnd s <> 0 ->
        LeoCubic.last_cwnd (LeoCubic.ca s') = LeoCubic.snd_cwnd s).
Proof.
  intros Hin. unfold LeoCubic.cubictcp_cong_avoid. cbn [negb]. rewrite Hin.
  eexists. split; [ reflexivity | ].
  unfold LeoCubic.leo_handover_start.
  destruct (Z.eqb_spec (LeoCubic.snd_cwnd s) 0) as [E | E]; cbn [negb].
  - rewrite E. cbn [Z.eqb]. repeat split; auto. contradiction.
  - destruct (Z.eqb_spec (LeoCubic.snd_cwnd s) 0); [ contradiction | ].
    repeat split.
Qed.

Section AdoptAndResume.

Variables (k : LeoCubic.kernel) (g : LeoCubic.globals).
Hypothesis HZ_range : 0 < LeoCubic.HZ k <= 1000000.

Local Abbreviation START := (HANDOVER_START (LeoCubic.HZ k) (LeoCubic.starlink_handover_start_ms g)).
Local Abbreviation END_ := (HANDOVER_END (LeoCubic.HZ k) (LeoCubic.starlink_handover_end_ms g)).
Local Abbreviation INTERVAL := (HANDOVER_INTERVAL (LeoCubic.HZ k)).



End AdoptAndResume.

(** A reset of the congestion state ([TCP_CA_Loss]) while transmission is
    suspended wipes the saved window with the rest of the CUBIC state: the
    resume that follows restores a window of 1, whatever was saved.  Other
    states leave the socket alone. *)
Theorem loss_reset_drops_saved_window (s : LeoCubic.sock) :
  LeoCubic.snd_cwnd s = 0 ->
  LeoCubic.snd_cwnd (LeoCubic.cubictcp_state LeoCubic.TCP_CA_Loss s) = 0
  /\ LeoCubic.snd_cwnd
       (LeoCubic.leo_handover_end (LeoCubic.cubictcp_state LeoCubic.TCP_CA_Loss s))
     = 1
  /\ (forall new_state, new_state <> LeoCubic.TCP_CA_Loss ->
        LeoCubic.cubictcp_state new_state s = s).
Proof.
  intros E. split; [ exact E | split ].
  - rewrite cubic_end_restores by exact E. reflexivity.
  - intros st Hst. unfold LeoCubic.cubictcp_state.
    destruct (Z.eqb_spec st LeoCubic.TCP_CA_Loss); [ contradiction | reflexivity ].
Qed.

(** [leo_init] of [tcp_leo.c].  When the allocation fails the socket is
    left exactly as it is: nothing is suspended, even inside a handover
    window, and no timer is armed.  When it succeeds the timer is armed;
    inside a handover window the window is closed and a pending deadline
    pushed back once, and a sanity check later in the same window changes
    nothing more; outside a window nothing but the timer changes.  The
    caller's saved window is never written. *)
Theorem leo_init_gate
    (HZ : Z) (msecs_to_jiffies : Z -> Z) (start_ms end_ms now jiffies : Z)
    (sk : Leo.sock) :
  let init := Leo.leo_init HZ msecs_to_jiffies start_ms end_ms in
  let sk' := init true now jiffies sk in
  init false now jiffies sk = sk
  /\ Leo.last_snd_cwnd_cell sk' = Leo.last_snd_cwnd_cell sk
  /\ Leo.handover_timer sk'
     = Some (to_u64 (jiffies + handover_timo HZ start_ms end_ms now))
  /\ (PhaseClock.is_leo_handover HZ start_ms end_ms now = true ->
      Leo.snd_cwnd sk' = 0
      /\ (Leo.icsk_timeout sk <> 0 ->
          Leo.icsk_timeout sk'
          = to_u64 (Leo.icsk_timeout sk
                    + msecs_to_jiffies (to_u32 (Leo.leo_handover_duration start_ms end_ms))))
      /\ (Leo.icsk_timeout sk = 0 -> Leo.icsk_timeout sk' = 0)
      /\ forall now' saved,
          PhaseClock.is_leo_handover HZ start_ms end_ms now' = true ->
          Leo.leo_handover_check HZ msecs_to_jiffies start_ms end_ms now' sk' saved
          = (true, sk'))
  /\ (PhaseClock.is_leo_handover HZ start_ms end_ms now = false ->
      Leo.snd_cwnd sk' = Leo.snd_cwnd sk
      /\ Leo.icsk_timeout sk' = Leo.icsk_timeout sk).
Proof.
  cbv zeta. unfold Leo.leo_init. cbn [negb].
  split; [ reflexivity | ].
  destruct (PhaseClock.is_leo_handover HZ start_ms end_ms now).
  - assert (Hz : Leo.snd_cwnd
                   (Leo.leo_handover_timer_reset HZ start_ms end_ms now jiffies
                      (Leo.leo_suspend_transmission msecs_to_jiffies start_ms end_ms sk))
                 = 0).
    { unfold Leo.leo_handover_timer_reset, Leo.sk_reset_timer. cbn [Leo.snd_cwnd].
      apply leo_suspend_cwnd. }
    split; [ | split; [ reflexivity | split; [ intros _ | intros H; discriminate ] ] ].
    + unfold Leo.leo_suspend_transmission. cbn.
      destruct (Leo.icsk_timeout sk =? 0); reflexivity.
    + split; [ exact Hz | split; [ | split ] ].
      * intros Hd. unfold Leo.leo_suspend_transmission. cbn.
        destruct (Z.eqb_spec (Leo.icsk_timeout sk) 0); [ contradiction | reflexivity ].
      * intros Hd. unfold Leo.leo_suspend_transmission. cbn.
        rewrite Hd. cbn. exact Hd.
      * intros now' saved Hin'. unfold Leo.leo_handover_check.
        rewrite Hin', Hz. reflexivity.
  - split; [ reflexivity | split; [ reflexivity | ] ].
    split; [ intros H; discriminate | intros _ ].
    split; reflexivity.
Qed.

(** ** RTT samples and hybrid slow start *)

(** Unfolds the field updates of the two records, and nothing else. *)
Ltac sock_simpl :=
  cbn [LeoCubic.cnt LeoCubic.last_max_cwnd LeoCubic.last_cwnd LeoCubic.last_time
       LeoCubic.bic_origin_point LeoCubic.bic_K LeoCubic.delay_min
       LeoCubic.epoch_start LeoCubic.ack_cnt LeoCubic.tcp_cwnd LeoCubic.sample_cnt
       LeoCubic.found LeoCubic.round_start LeoCubic.end_seq LeoCubic.last_ack
       LeoCubic.curr_rtt LeoCubic.handover_free_pending
       LeoCubic.snd_cwnd LeoCubic.snd_ssthresh LeoCubic.snd_una LeoCubic.snd_nxt
       LeoCubic.lsndtime LeoCubic.icsk_timeout LeoCubic.tcp_mstamp
       LeoCubic.sk_pacing_rate LeoCubic.sk_pacing_none LeoCubic.sk_gso_max_size
       LeoCubic.sk_socket LeoCubic.sock_nospace LeoCubic.write_space_calls
       LeoCubic.handover_timer LeoCubic.ca
       LeoCubic.set_cnt LeoCubic.set_last_max_cwnd LeoCubic.set_last_cwnd
       LeoCubic.set_last_time LeoCubic.set_bic_origin_point LeoCubic.set_bic_K
       LeoCubic.set_delay_min LeoCubic.set_epoch_start LeoCubic.set_ack_cnt
       LeoCubic.set_tcp_cwnd LeoCubic.set_sample_cnt LeoCubic.set_found
       LeoCubic.set_round_start LeoCubic.set_end_seq LeoCubic.set_last_ack
       LeoCubic.set_curr_rtt LeoCubic.set_handover_free_pending
       LeoCubic.set_snd_cwnd LeoCubic.set_snd_ssthresh LeoCubic.call_write_space
       LeoCubic.sk_reset_timer LeoCubic.sk_stop_timer LeoCubic.set_ca
       LeoCubic.bictcp_reset LeoCubic.bictcp_hystart_reset] in *.

Ltac split_ifs :=
  repeat match goal with
         | |- context [if ?c then _ else _] => destruct c eqn:?
         end.

Section Hystart.

Import LeoCubic.
Local Opaque Z.shiftr Z.land.

Lemma to_u8_small x : 0 <= x < 256 -> to_u8 x = x.
Proof. intros H. unfold to_u8. apply Z.mod_small. lia. Qed.

(** What [hystart_update] can and cannot change. *)
Lemma hystart_update_frame (g : globals) (s : sock) (delay : Z) :
  let s' := hystart_update g s delay in
  snd_cwnd s' = snd_cwnd s
  /\ delay_min (ca s') = delay_min (ca s)
  /\ (cnt (ca s') = cnt (ca s) /\ epoch_start (ca s') = epoch_start (ca s)
      /\ last_cwnd (ca s') = last_cwnd (ca s) /\ ack_cnt (ca s') = ack_cnt (ca s)
      /\ last_max_cwnd (ca s') = last_max_cwnd (ca s)
      /\ handover_timer s' = handover_timer s)
  /\ ((snd_ssthresh s' = snd_ssthresh s /\ found (ca s') = found (ca s))
      \/ (snd_ssthresh s' = snd_cwnd s /\ found (ca s') = 1))
  /\ (0 <= sample_cnt (ca s) <= 8 -> 0 <= sample_cnt (ca s') <= 8).
Proof.
  cbv zeta. unfold hystart_update. cbv zeta.
  split_ifs; sock_simpl; repeat split; auto; intros; try lia;
    repeat match goal with
           | H : (_ <? HYSTART_MIN_SAMPLES) = true |- _ =>
               apply Z.ltb_lt in H; unfold HYSTART_MIN_SAMPLES in H
           end;
    rewrite to_u8_small by lia; lia.
Qed.

(** [cubictcp_acked] ignores a negative sample, never lets a known minimum
    delay grow or fall to 0, and takes an accepted sample of 0 for 1. *)
Theorem acked_delay_min (k : kernel) (g : globals) (now : Z) (s : sock) (rtt_us : Z) :
  - 2 ^ 31 <= rtt_us < 2 ^ 31 ->
  let s' := cubictcp_acked k g now s rtt_us in
  (rtt_us < 0 -> s' = s)
  /\ (0 < delay_min (ca s) -> 0 < delay_min (ca s') <= delay_min (ca s))
  /\ (0 <= rtt_us ->
      epoch_start (ca s) = 0 \/ HZ k <= to_s32 (now - epoch_start (ca s)) ->
      delay_min (ca s')
      = if delay_min (ca s) =? 0 then Z.max 1 rtt_us
        else Z.min (delay_min (ca s)) (Z.max 1 rtt_us)).
Proof.
  intros Hr. cbv zeta. unfold cubictcp_acked.
  destruct (Z.ltb_spec rtt_us 0) as [Hneg | Hpos].
  { repeat split; auto; lia. }
  assert (Hu : to_u32 rtt_us = rtt_us) by (apply to_u32_id; unfold is_u32; lia).
  rewrite Hu.
  destruct (negb (epoch_start (ca s) =? 0) && (to_s32 (now - epoch_start (ca s)) <? HZ k))
    eqn:Hdiscard.
  { split; [ lia | split; [ lia | ] ].
    intros _ Hacc. apply andb_true_iff in Hdiscard as [H1 H2].
    apply negb_true_iff, Z.eqb_neq in H1. apply Z.ltb_lt in H2. lia. }
  set (delay := if rtt_us =? 0 then 1 else rtt_us).
  assert (Hd : delay = Z.max 1 rtt_us)
    by (unfold delay; destruct (Z.eqb_spec rtt_us 0); lia).
  set (s1 := if (delay_min (ca s) =? 0) || (delay <? delay_min (ca s))
             then set_ca (set_delay_min delay (ca s)) s else s).
  assert (H1 : delay_min (ca s1)
               = if delay_min (ca s) =? 0 then Z.max 1 rtt_us
                 else Z.min (delay_min (ca s)) (Z.max 1 rtt_us)).
  { unfold s1. destruct (Z.eqb_spec (delay_min (ca s)) 0); cbn [orb]; sock_simpl.
    - exact Hd.
    - destruct (Z.ltb_spec delay (delay_min (ca s))); sock_simpl; lia. }
  assert (H2 : delay_min
                 (ca (if (found (ca s1) =? 0) && tcp_in_slow_start s1
                         && negb (hystart g =? 0)
                         && (to_u32 (hystart_low_window g) <=? snd_cwnd s1)
                      then hystart_update g s1 delay else s1))
               = delay_min (ca s1)).
  { match goal with
    | |- delay_min (ca (if ?c then _ else _)) = _ => destruct c
    end; [ | reflexivity ].
    apply (hystart_update_frame g s1 delay). }
  rewrite H2, H1.
  split; [ lia | split; [ | auto ] ].
  intros Hdm. destruct (Z.eqb_spec (delay_min (ca s)) 0); lia.
Qed.

(** The only thing an RTT sample can do to the slow-start threshold is to
    clamp it to the current window, and then the exit is marked found; once
    found, or out of slow start, or below [hystart_low_window], or with
    HyStart off, a sample changes neither.  The window and the CUBIC
    counters are never touched. *)
Theorem acked_only_clamps_threshold (k : kernel) (g : globals) (now : Z) (s : sock)
    (rtt_us : Z) :
  let s' := cubictcp_acked k g now s rtt_us in
  snd_cwnd s' = snd_cwnd s
  /\ (cnt (ca s') = cnt (ca s) /\ epoch_start (ca s') = epoch_start (ca s)
      /\ last_cwnd (ca s') = last_cwnd (ca s) /\ ack_cnt (ca s') = ack_cnt (ca s)
      /\ last_max_cwnd (ca s') = last_max_cwnd (ca s)
      /\ handover_timer s' = handover_timer s)
  /\ ((snd_ssthresh s' = snd_ssthresh s /\ found (ca s') = found (ca s))
      \/ (snd_ssthresh s' = snd_cwnd s /\ found (ca s') = 1))
  /\ (found (ca s) <> 0 \/ tcp_in_slow_start s = false \/ hystart g = 0
      \/ snd_cwnd s < to_u32 (hystart_low_window g) ->
      snd_ssthresh s' = snd_ssthresh s /\ found (ca s') = found (ca s)
      /\ sample_cnt (ca s') = sample_cnt (ca s) /\ curr_rtt (ca s') = curr_rtt (ca s)).
Proof.
  cbv zeta. unfold cubictcp_acked.
  destruct (rtt_us <? 0); [ repeat split; auto | ].
  destruct (negb (epoch_start (ca s) =? 0) && _); [ repeat split; auto | ].
  set (delay := if to_u32 rtt_us =? 0 then 1 else to_u32 rtt_us).
  set (s1 := if (delay_min (ca s) =? 0) || (delay <? delay_min (ca s))
             then set_ca (set_delay_min delay (ca s)) s else s).
  assert (F1 : snd_cwnd s1 = snd_cwnd s /\ snd_ssthresh s1 = snd_ssthresh s
               /\ found (ca s1) = found (ca s)
               /\ cnt (ca s1) = cnt (ca s) /\ epoch_start (ca s1) = epoch_start (ca s)
               /\ last_cwnd (ca s1) = last_cwnd (ca s) /\ ack_cnt (ca s1) = ack_cnt (ca s)
               /\ last_max_cwnd (ca s1) = last_max_cwnd (ca s)
               /\ handover_timer s1 = handover_timer s
               /\ sample_cnt (ca s1) = sample_cnt (ca s)
               /\ curr_rtt (ca s1) = curr_rtt (ca s)
               /\ tcp_in_slow_start s1 = tcp_in_slow_start s).
  { unfold s1. destruct (_ || _); repeat split. }
  destruct F1 as (Fw & Ft & Ff & Fc & Fe & Fl & Fa & Fm & Fh & Fs & Fr & Fi).
  destruct ((found (ca s1) =? 0) && tcp_in_slow_start s1 && negb (hystart g =? 0)
            && (to_u32 (hystart_low_window g) <=? snd_cwnd s1)) eqn:Hgo.
  - destruct (hystart_update_frame g s1 delay)
      as (Gw & _ & (Gc & Ge & Gl & Ga & Gm & Gh) & Gt & _).
    repeat (apply andb_true_iff in Hgo as [Hgo ?]).
    apply Z.eqb_eq in Hgo.
    repeat match goal with
           | H : negb _ = true |- _ => apply negb_true_iff in H
           | H : (_ =? _) = false |- _ => apply Z.eqb_neq in H
           | H : (_ <=? _) = true |- _ => apply Z.leb_le in H
           end.
    split; [ congruence | split; [ repeat split; congruence | split ] ].
    + destruct Gt as [[G1 G2] | [G1 G2]]; [ left | right ]; split; congruence.
    + intros [H' | [H' | [H' | H']]]; exfalso; try congruence; lia.
  - repeat split; auto.
Qed.

Lemma hystart_update_counts (g : globals) (s : sock) (delay : Z) :
  Z.land (hystart_detect g) HYSTART_ACK_TRAIN = 0 ->
  0 <= sample_cnt (ca s) < HYSTART_MIN_SAMPLES ->
  found (ca (hystart_update g s delay)) = found (ca s)
  /\ snd_ssthresh (hystart_update g s delay) = snd_ssthresh s
  /\ 0 <= sample_cnt (ca (hystart_update g s delay)) <= sample_cnt (ca s) + 1.
Proof.
  intros Hoff Hsc. unfold hystart_update. cbv zeta. rewrite Hoff.
  cbn [Z.eqb negb]. unfold HYSTART_MIN_SAMPLES in *.
  split_ifs; sock_simpl; repeat split; auto; try lia;
    repeat match goal with
           | H : (_ <? 8) = false |- _ => apply Z.ltb_ge in H
           end;
    try lia; rewrite to_u8_small by lia; lia.
Qed.

(** The delay detector cannot mark the exit before it has counted 8 samples
    of the round: with the ack-train detector off, a run of samples that
    brings the count to at most 8 changes neither [found] nor the
    threshold, whatever the delays are. *)
Theorem delay_detector_needs_eight_samples (g : globals) (delays : list Z) :
  Z.land (hystart_detect g) HYSTART_ACK_TRAIN = 0 ->
  forall s,
    0 <= sample_cnt (ca s) ->
    sample_cnt (ca s) + Z.of_nat (length delays) <= HYSTART_MIN_SAMPLES ->
    found (ca (hystart_run g delays s)) = found (ca s)
    /\ snd_ssthresh (hystart_run g delays s) = snd_ssthresh s.
Proof.
  intros Hoff. unfold hystart_run.
  induction delays as [ | d delays IH]; intros s Hlo Hhi; cbn [fold_left length] in *.
  - split; reflexivity.
  - destruct (hystart_update_counts g s d Hoff ltac:(lia)) as (Hf & Ht & Hc).
    destruct (IH (hystart_update g s d) ltac:(lia) ltac:(lia)) as [IHf IHt].
    split; congruence.
Qed.

(** The allowance for aggregation delays is capped at 1 ms, and is 0
    without a pacing rate. *)
Theorem hystart_ack_delay_capped (s : sock) :
  0 <= sk_pacing_rate s ->
  0 <= hystart_ack_delay s <= USEC_PER_MSEC
  /\ (sk_pacing_rate s = 0 -> hystart_ack_delay s = 0).
Proof.
  intros Hr. unfold hystart_ack_delay, USEC_PER_MSEC.
  destruct (Z.eqb_spec (sk_pacing_rate s) 0) as [E | E]; [ split; [ lia | auto ] | ].
  assert (0 <= to_u64 (sk_gso_max_size s * 4 * USEC_PER_SEC) / sk_pacing_rate s).
  { apply Z.div_pos; [ apply to_u64_range | lia ]. }
  rewrite to_u32_id by (unfold is_u32; lia).
  split; [ lia | intros; contradiction ].
Qed.

End Hystart.

(** ** The window engine *)

Section Engine.

Import LeoCubic CubeRoot.
Local Opaque Z.shiftr Z.shiftl Z.pow.

Variables (k : kernel) (g : globals).

Lemma to_u32_add_idemp_l a b : to_u32 (to_u32 a + b) = to_u32 (a + b).
Proof. unfold to_u32. apply Zplus_mod_idemp_l. Qed.

Lemma tcp_cwnd_loop_result fuel delta : forall ack tcw r,
  0 < delta -> 0 < ack < 2 ^ 32 ->
  tcp_cwnd_loop fuel delta ack tcw = Ok r ->
  fst r = (ack - 1) mod delta + 1
  /\ to_u32 (snd r) = to_u32 (tcw + (ack - 1) / delta).
Proof.
  induction fuel as [ | fuel IH]; intros ack tcw r Hd Ha; cbn [tcp_cwnd_loop];
    destruct (Z.ltb_spec delta ack) as [Hlt | Hge]; try discriminate.
  - intros [= <-]. cbn [fst snd].
    rewrite Z.mod_small, Z.div_small by lia. rewrite Z.add_0_r. split; [ lia | reflexivity ].
  - intros Hr. rewrite (to_u32_id (ack - delta)) in Hr by (unfold is_u32; lia).
    apply IH in Hr; [ | lia | lia ]. destruct Hr as [H1 H2].
    replace (ack - delta - 1) with (ack - 1 + (-1) * delta) in H1, H2 by ring.
    rewrite Z.mod_add in H1 by lia. rewrite Z.div_add in H2 by lia.
    split; [ exact H1 | ].
    rewrite H2, to_u32_add_idemp_l. f_equal. ring.
  - intros [= <-]. cbn [fst snd].
    rewrite Z.mod_small, Z.div_small by lia. rewrite Z.add_0_r. split; [ lia | reflexivity ].
Qed.

Lemma tcp_cwnd_loop_range fuel delta : forall ack tcw r,
  0 <= tcw < 2 ^ 32 ->
  tcp_cwnd_loop fuel delta ack tcw = Ok r -> 0 <= snd r < 2 ^ 32.
Proof.
  induction fuel as [ | fuel IH]; intros ack tcw r Ht Hr; cbn [tcp_cwnd_loop] in Hr;
    destruct (delta <? ack); try discriminate.
  - injection Hr as <-. exact Ht.
  - apply IH in Hr; [ exact Hr | apply to_u32_range ].
  - injection Hr as <-. exact Ht.
Qed.

(** The loop that advances the estimate of the standard TCP window: it
    exits whenever [delta > 0], every step it makes costs exactly [delta]
    acknowledgements, and it leaves between 1 and [delta] of them (none if
    there were none). *)
Theorem tcp_cwnd_loop_credit (delta ack tcw : Z) :
  0 < delta -> 0 <= ack < 2 ^ 32 -> 0 <= tcw < 2 ^ 32 ->
  exists ack' tcw',
    tcp_cwnd_loop (Z.to_nat ack) delta ack tcw = Ok (ack', tcw')
    /\ tcw' = to_u32 (tcw + (ack - ack') / delta)
    /\ (ack - ack') mod delta = 0
    /\ (ack = 0 -> ack' = 0)
    /\ (0 < ack -> 0 < ack' <= delta).
Proof.
  intros Hd Ha Ht.
  destruct (tcp_cwnd_loop_returns (Z.to_nat ack) delta ack tcw Hd ltac:(lia) Ha)
    as [[ack' tcw'] Hr].
  exists ack', tcw'. split; [ exact Hr | ].
  pose proof (tcp_cwnd_loop_range _ delta ack tcw _ Ht Hr) as Hrange.
  cbn [snd] in Hrange.
  destruct (Z.eq_dec ack 0) as [-> | Hnz].
  - cbn in Hr. destruct (Z.ltb_spec delta 0); [ lia | ].
    injection Hr as <- <-. rewrite Z.sub_0_r, Z.div_0_l, Z.add_0_r by lia.
    rewrite to_u32_id by exact Ht. repeat split; auto; lia.
  - destruct (tcp_cwnd_loop_result _ delta ack tcw _ Hd ltac:(lia) Hr) as [H1 H2].
    cbn [fst snd] in H1, H2.
    pose proof (Z.mod_pos_bound (ack - 1) delta Hd) as Hm.
    pose proof (Z.div_mod (ack - 1) delta ltac:(lia)) as Hdm.
    assert (Hdiff : ack - ack' = (ack - 1) / delta * delta) by lia.
    rewrite Hdiff, Z.div_mul, Z.mod_mul by lia.
    rewrite <- H2, to_u32_id by exact Hrange.
    repeat split; auto; lia.
Qed.

(** The cubic block always returns: its cube root is total. *)
Lemma bictcp_cubic_returns now c cwnd acked :
  exists c',
    bictcp_cubic k g now c cwnd acked = Ok c'
    /\ ack_cnt c' = (if epoch_start c =? 0 then acked else ack_cnt c)
    /\ last_cwnd c' = cwnd /\ last_time c' = now
    /\ epoch_start c' = (if epoch_start c =? 0 then now else epoch_start c)
    /\ last_max_cwnd c' = last_max_cwnd c
    /\ (last_max_cwnd c = 0 -> cnt c' <= 20)
    /\ (epoch_start c = 0 -> last_max_cwnd c <= cwnd ->
        bic_K c' = 0 /\ bic_origin_point c' = cwnd)
    /\ (epoch_start c = 0 -> cwnd < last_max_cwnd c ->
        cubic_root (to_u64 (cube_factor g * to_u32 (last_max_cwnd c - cwnd)))
        = Ok (bic_K c')
        /\ bic_origin_point c' = last_max_cwnd c).
Proof.
  unfold bictcp_cubic. cbv zeta. sock_simpl.
  destruct (Z.eqb_spec (epoch_start c) 0) as [He | He].
  - destruct (Z.leb_spec (last_max_cwnd c) cwnd) as [Hm | Hm]; cbn [bind]; sock_simpl.
    + eexists. split; [ reflexivity | ].
      split_ifs; sock_simpl; repeat split; auto; try lia;
        repeat match goal with
               | H : _ && _ = false |- _ => apply andb_false_iff in H as [H | H]
               | H : (_ =? _) = false |- _ => apply Z.eqb_neq in H
               | H : (_ <? _) = false |- _ => apply Z.ltb_ge in H
               end; try lia; intros; lia.
    + destruct (cubic_root_returns
                  (to_u64 (cube_factor g * to_u32 (last_max_cwnd c - cwnd)))
                  (to_u64_range _)) as (r & Hr & _).
      rewrite Hr. cbn [bind]. sock_simpl.
      eexists. split; [ reflexivity | ].
      split_ifs; sock_simpl; repeat split; auto; try lia;
        repeat match goal with
               | H : _ && _ = false |- _ => apply andb_false_iff in H as [H | H]
               | H : (_ =? _) = false |- _ => apply Z.eqb_neq in H
               | H : (_ <? _) = false |- _ => apply Z.ltb_ge in H
               end; try lia; intros; lia.
  - cbn [bind]. eexists. split; [ reflexivity | ].
    split_ifs; sock_simpl; repeat split; auto; try lia;
      repeat match goal with
             | H : _ && _ = false |- _ => apply andb_false_iff in H as [H | H]
             | H : (_ =? _) = false |- _ => apply Z.eqb_neq in H
             | H : (_ <? _) = false |- _ => apply Z.ltb_ge in H
             end; try lia; intros; lia.
Qed.

(** The TCP-friendliness block returns whenever its loop can make progress;
    it only ever lowers [cnt], down to the floor of 2, and leaves the
    description of the cubic curve alone. *)
Lemma tcp_friendliness_returns c cwnd :
  tcp_friendliness g = 0 \/ 8 <= to_u32 (cwnd * beta_scale g) ->
  0 <= ack_cnt c < 2 ^ 32 ->
  exists c',
    bictcp_tcp_friendliness g c cwnd = Ok c'
    /\ 2 <= cnt c' <= Z.max 2 (cnt c)
    /\ last_cwnd c' = last_cwnd c /\ last_time c' = last_time c
    /\ epoch_start c' = epoch_start c /\ bic_K c' = bic_K c
    /\ bic_origin_point c' = bic_origin_point c
    /\ last_max_cwnd c' = last_max_cwnd c.
Proof.
  intros Hprog Hack. unfold bictcp_tcp_friendliness. cbv zeta.
  destruct (Z.eqb_spec (tcp_friendliness g) 0) as [Hoff | Hon]; cbn [negb bind].
  - eexists. split; [ reflexivity | ]. sock_simpl. repeat split; lia.
  - destruct Hprog as [Hoff | Hbig]; [ contradiction | ].
    assert (Hdelta : 0 < Z.shiftr (to_u32 (cwnd * beta_scale g)) 3).
    { rewrite Z.shiftr_div_pow2 by lia.
      apply Z.lt_le_trans with 1; [ lia | ].
      apply Z.div_le_lower_bound; lia. }
    destruct (tcp_cwnd_loop_returns (Z.to_nat (ack_cnt c)) _ (ack_cnt c) (tcp_cwnd c)
                Hdelta ltac:(lia) Hack) as [r Hr].
    rewrite Hr. cbn [bind]. sock_simpl.
    destruct (cwnd <? snd r); cbn [bind].
    + eexists. split; [ reflexivity | ].
      destruct (Z.ltb_spec (cwnd / to_u32 (snd r - cwnd)) (cnt c));
        sock_simpl; repeat split; lia.
    + eexists. split; [ reflexivity | ]. sock_simpl. repeat split; lia.
Qed.

(** [bictcp_update] returns, for every state and every clock value, as long
    as the window is large enough for one step of the standard-TCP estimate
    to cost at least one acknowledgement ([cwnd * beta_scale >= 8] in 32-bit
    arithmetic), or TCP friendliness is off. *)
Theorem bictcp_update_returns now c cwnd acked :
  0 <= acked < 2 ^ 32 ->
  tcp_friendliness g = 0 \/ 8 <= to_u32 (cwnd * beta_scale g) ->
  exists c', bictcp_update k g now c cwnd acked = Ok c'.
Proof.
  intros Hacked Hprog. unfold bictcp_update. cbv zeta.
  destruct (_ && _); [ eexists; reflexivity | ].
  destruct (_ && _).
  - destruct (tcp_friendliness_returns (set_ack_cnt (to_u32 (ack_cnt c + acked)) c) cwnd
                Hprog) as (c' & Hc' & _); [ sock_simpl; apply to_u32_range | ].
    exists c'. exact Hc'.
  - destruct (bictcp_cubic_returns now (set_ack_cnt (to_u32 (ack_cnt c + acked)) c)
                cwnd acked) as (c1 & Hc1 & Hack & _).
    rewrite Hc1. cbn [bind].
    destruct (tcp_friendliness_returns c1 cwnd Hprog) as (c' & Hc' & _).
    + rewrite Hack. sock_simpl.
      destruct (epoch_start c =? 0); [ exact Hacked | apply to_u32_range ].
    + exists c'. exact Hc'.
Qed.

(** With TCP friendliness on and a window so small (or so large that the
    32-bit product wraps) that [cwnd * beta_scale < 8], one step of the
    estimate costs nothing and the loop never exits: an update that opens
    an epoch with at least one acknowledgement does not return.  The
    window 0 is such a window. *)
Theorem bictcp_update_hangs now c cwnd acked :
  tcp_friendliness g <> 0 ->
  to_u32 (cwnd * beta_scale g) < 8 ->
  0 < acked < 2 ^ 32 ->
  epoch_start c = 0 -> last_cwnd c <> cwnd ->
  bictcp_update k g now c cwnd acked = Fault Diverges.
Proof.
  intros Hon Hsmall Hacked Hep Hlast. unfold bictcp_update. cbv zeta. sock_simpl.
  destruct (Z.eqb_spec (last_cwnd c) cwnd); [ contradiction | ].
  rewrite Hep. cbn [Z.eqb negb andb].
  destruct (bictcp_cubic_returns now (set_ack_cnt (to_u32 (ack_cnt c + acked)) c)
              cwnd acked) as (c1 & Hc1 & Hack & _).
  rewrite Hc1. cbn [bind]. revert Hack. sock_simpl. rewrite Hep. cbn [Z.eqb].
  intros Hack.
  unfold bictcp_tcp_friendliness. cbv zeta.
  destruct (Z.eqb_spec (tcp_friendliness g) 0); [ contradiction | ]. cbn [negb].
  assert (Hdelta : Z.shiftr (to_u32 (cwnd * beta_scale g)) 3 = 0).
  { rewrite Z.shiftr_div_pow2 by lia. apply Z.div_small.
    pose proof (to_u32_range (cwnd * beta_scale g)) as Hr. unfold is_u32 in Hr. lia. }
  rewrite Hdelta, Hack, tcp_cwnd_loop_diverges by lia. reflexivity.
Qed.

(** An update that is past the early return, on a state with no epoch open
    and no remembered maximum, opens an epoch at the current time with the
    current window as origin. *)
Lemma bictcp_update_opens_epoch now c cwnd acked :
  1 <= cwnd -> 0 <= acked < 2 ^ 32 ->
  tcp_friendliness g = 0 \/ 8 <= to_u32 (cwnd * beta_scale g) ->
  epoch_start c = 0 -> last_max_cwnd c = 0 ->
  (last_cwnd c =? cwnd) && (to_s32 (now - last_time c) <=? Z.quot (HZ k) 32) = false ->
  exists c',
    bictcp_update k g now c cwnd acked = Ok c'
    /\ last_cwnd c' = cwnd /\ last_time c' = now /\ epoch_start c' = now
    /\ bic_K c' = 0 /\ bic_origin_point c' = cwnd
    /\ 2 <= cnt c' <= 20.
Proof.
  intros Hw Hacked Hprog He Hm Hlate.
  unfold bictcp_update. cbv zeta. sock_simpl. rewrite Hlate, He.
  cbn [Z.eqb negb andb].
  destruct (bictcp_cubic_returns now (set_ack_cnt (to_u32 (ack_cnt c + acked)) c)
              cwnd acked)
    as (c1 & Hc1 & Hack & Hlc & Hlt & Hes & Hlm & Hcap & Hk & _).
  revert Hack Hes Hlm Hcap Hk. sock_simpl. rewrite He, Hm. cbn [Z.eqb].
  intros Hack Hes Hlm Hcap Hk.
  rewrite Hc1. cbn [bind].
  destruct (tcp_friendliness_returns c1 cwnd Hprog ltac:(lia))
    as (c' & Hc' & Hcnt & Flc & Flt & Fes & Fk & Fo & _).
  destruct (Hk eq_refl ltac:(lia)) as [Hk0 Ho].
  specialize (Hcap eq_refl).
  exists c'. split; [ exact Hc' | ].
  repeat split; try congruence; lia.
Qed.

(** The first update after [cubictcp_state] has reset the CUBIC state at a
    loss.  Applied to the state the reset leaves, it always recomputes: it
    opens an epoch at the current time with the current window as origin and
    [bic_K = 0], and leaves [cnt] between 2 and 20.  If a handover
    suspension and resume come between the reset and the update, the window
    is back but is also stored in [last_cwnd], and [last_time] is still 0:
    the update then recomputes only if the tick counter, as a signed 32-bit
    number, is above [HZ / 32]; otherwise it returns early, with [cnt = 0]
    and no epoch open. *)
Theorem first_update_after_reset now (s : sock) cwnd acked :
  1 <= cwnd < 2 ^ 32 -> 0 <= acked < 2 ^ 32 ->
  tcp_friendliness g = 0 \/ 8 <= to_u32 (cwnd * beta_scale g) ->
  let reset := cubictcp_state TCP_CA_Loss s in
  let resumed := leo_handover_end (leo_handover_start reset) in
  (exists c',
     bictcp_update k g now (ca reset) cwnd acked = Ok c'
     /\ last_cwnd c' = cwnd /\ last_time c' = now /\ epoch_start c' = now
     /\ bic_K c' = 0 /\ bic_origin_point c' = cwnd
     /\ 2 <= cnt c' <= 20)
  /\ (snd_cwnd s = cwnd ->
      snd_cwnd resumed = cwnd
      /\ (Z.quot (HZ k) 32 < to_s32 now ->
          exists c',
            bictcp_update k g now (ca resumed) cwnd acked = Ok c'
            /\ last_cwnd c' = cwnd /\ last_time c' = now /\ epoch_start c' = now
            /\ bic_K c' = 0 /\ bic_origin_point c' = cwnd
            /\ 2 <= cnt c' <= 20)
      /\ (to_s32 now <= Z.quot (HZ k) 32 ->
          exists c',
            bictcp_update k g now (ca resumed) cwnd acked = Ok c'
            /\ cnt c' = 0 /\ epoch_start c' = 0 /\ ack_cnt c' = acked)).
Proof.
  intros Hw Hacked Hprog. cbv zeta.
  set (reset := cubictcp_state TCP_CA_Loss s).
  assert (Hc : last_cwnd (ca reset) = 0 /\ epoch_start (ca reset) = 0
               /\ last_max_cwnd (ca reset) = 0 /\ ack_cnt (ca reset) = 0
               /\ last_time (ca reset) = 0 /\ cnt (ca reset) = 0
               /\ snd_cwnd reset = snd_cwnd s).
  { unfold reset, cubictcp_state. rewrite Z.eqb_refl. sock_simpl. repeat split. }
  destruct Hc as (Hl & He & Hm & Ha & Ht & Hn & Hsw).
  split.
  - apply bictcp_update_opens_epoch; try assumption; lia.
  - intros Hcw.
    set (resumed := leo_handover_end (leo_handover_start reset)).
    assert (Hr : snd_cwnd resumed = cwnd
                 /\ last_cwnd (ca resumed) = cwnd /\ epoch_start (ca resumed) = 0
                 /\ last_max_cwnd (ca resumed) = 0 /\ ack_cnt (ca resumed) = 0
                 /\ last_time (ca resumed) = 0 /\ cnt (ca resumed) = 0).
    { unfold resumed, leo_handover_start. rewrite Hsw, Hcw.
      destruct (Z.eqb_spec cwnd 0); [ lia | ].
      unfold leo_handover_end, leo_suspend_transmission, leo_resume_transmission.
      sock_simpl. cbn [Z.eqb negb]. cbv zeta. sock_simpl. rewrite Hsw, Hcw.
      destruct (_ && _); sock_simpl; repeat split; try assumption; lia. }
    destruct Hr as (Rw & Rl & Re & Rm & Ra & Rt & Rn).
    split; [ exact Rw | split ].
    + intros Hlate. apply bictcp_update_opens_epoch; try assumption; try lia;
        rewrite Rt, Z.sub_0_r; apply andb_false_iff; right; apply Z.leb_gt; exact Hlate.
    + intros Hearly.
      exists (set_ack_cnt (to_u32 (ack_cnt (ca resumed) + acked)) (ca resumed)).
      split.
      * apply bictcp_update_early_return; [ exact Rl | ].
        rewrite Rt, Z.sub_0_r. exact Hearly.
      * sock_simpl. rewrite Ra. cbn [Z.add].
        split; [ exact Rn | split; [ exact Re | ] ].
        apply to_u32_id. unfold is_u32. lia.
Qed.



End Engine.

(** ** Idle restarts, the loss hook, the cube root and the clock again *)

Lemma to_u32_shift x : exists q, to_u32 x = x + q * 2 ^ 32.
Proof.
  exists (- (x / 2 ^ 32)). unfold to_u32. rewrite Z.mod_eq by lia. ring.
Qed.

Lemma to_s32_shift x : exists q, to_s32 x = x + q * 2 ^ 32.
Proof.
  unfold to_s32. fold (to_u32 x). destruct (to_u32_shift x) as [q Hq].
  destruct (to_u32 x <? 2 ^ 31); [ exists q | exists (q - 1) ]; lia.
Qed.

Lemma to_u32_congr a b q : a = b + q * 2 ^ 32 -> to_u32 a = to_u32 b.
Proof. intros ->. unfold to_u32. apply Z.mod_add. lia. Qed.

Lemma to_s32_congr a b q : a = b + q * 2 ^ 32 -> to_s32 a = to_s32 b.
Proof.
  intros H. unfold to_s32. fold (to_u32 a) (to_u32 b).
  rewrite (to_u32_congr a b q H). reflexivity.
Qed.

(** When transmission restarts after an idle period, [cubictcp_cwnd_event]
    takes the idle time out of the running epoch: measured from the shifted
    [epoch_start], the epoch is as old at the restart as it was at the last
    send.  The shift never puts the start of the epoch in the future, and
    without an open epoch or without idle time nothing changes. *)
Theorem idle_restart_shifts_epoch (now : Z) (s : LeoCubic.sock) :
  let e0 := LeoCubic.epoch_start (LeoCubic.ca s) in
  let s' := LeoCubic.cubictcp_cwnd_event now true s in
  let e' := LeoCubic.epoch_start (LeoCubic.ca s') in
  (e0 <> 0 -> 0 < to_s32 (now - LeoCubic.lsndtime s) ->
   0 <= to_s32 (now - e')
   /\ (0 <= to_s32 (LeoCubic.lsndtime s - e0) ->
       to_u32 (now - e') = to_u32 (LeoCubic.lsndtime s - e0))
   /\ (to_s32 (LeoCubic.lsndtime s - e0) < 0 -> e' = now))
  /\ (e0 = 0 \/ to_s32 (now - LeoCubic.lsndtime s) <= 0 -> s' = s)
  /\ LeoCubic.cubictcp_cwnd_event now false s = s.
Proof.
  cbv zeta. unfold LeoCubic.cubictcp_cwnd_event. cbv zeta.
  split; [ | split; [ | reflexivity ] ].
  - intros He Hd.
    destruct (Z.eqb_spec (LeoCubic.epoch_start (LeoCubic.ca s)) 0); [ contradiction | ].
    destruct (Z.ltb_spec 0 (to_s32 (now - LeoCubic.lsndtime s))); [ | lia ].
    cbn [negb andb]. sock_simpl. unfold LeoCubic.after.
    set (e0 := LeoCubic.epoch_start (LeoCubic.ca s)) in *.
    set (e := to_u32 (e0 + to_s32 (now - LeoCubic.lsndtime s))).
    destruct (to_u32_shift (e0 + to_s32 (now - LeoCubic.lsndtime s))) as [q1 H1].
    destruct (to_s32_shift (now - LeoCubic.lsndtime s)) as [q2 H2].
    fold e in H1.
    assert (Hdiff : now - e = LeoCubic.lsndtime s - e0 + (- q1 - q2) * 2 ^ 32) by lia.
    rewrite (to_s32_congr _ _ _ Hdiff).
    destruct (Z.ltb_spec (to_s32 (LeoCubic.lsndtime s - e0)) 0) as [Hc | Hc].
    + rewrite Z.sub_diag. split; [ cbn; lia | split; [ lia | reflexivity ] ].
    + rewrite (to_s32_congr _ _ _ Hdiff).
      split; [ exact Hc | split; [ | lia ] ].
      intros _. apply (to_u32_congr _ _ _ Hdiff).
  - intros [He | Hd].
    + rewrite He. reflexivity.
    + destruct (Z.ltb_spec 0 (to_s32 (now - LeoCubic.lsndtime s))); [ lia | ].
      rewrite andb_false_r. reflexivity.
Qed.

(** At a loss event the new threshold is at least 2 and, for windows of 2 or
    more, never above the window; the remembered maximum never exceeds the
    window, and with fast convergence a window below the old maximum lowers
    it to [window * (1024 + beta) / 2048].  The hook itself changes neither
    the window nor the threshold of the socket. *)
Theorem recalc_ssthresh_bounds (g : LeoCubic.globals) (s : LeoCubic.sock) :
  0 <= LeoCubic.beta g <= LeoCubic.BICTCP_BETA_SCALE ->
  0 <= LeoCubic.snd_cwnd s ->
  LeoCubic.snd_cwnd s * (LeoCubic.BICTCP_BETA_SCALE + LeoCubic.beta g) < 2 ^ 32 ->
  let r := LeoCubic.cubictcp_recalc_ssthresh g s in
  2 <= fst r <= Z.max 2 (LeoCubic.snd_cwnd s)
  /\ LeoCubic.last_max_cwnd (LeoCubic.ca (snd r)) <= LeoCubic.snd_cwnd s
  /\ (LeoCubic.fast_convergence g <> 0 ->
      LeoCubic.snd_cwnd s < LeoCubic.last_max_cwnd (LeoCubic.ca s) ->
      LeoCubic.last_max_cwnd (LeoCubic.ca (snd r))
      = LeoCubic.snd_cwnd s * (LeoCubic.BICTCP_BETA_SCALE + LeoCubic.beta g)
        / (2 * LeoCubic.BICTCP_BETA_SCALE))
  /\ LeoCubic.snd_cwnd (snd r) = LeoCubic.snd_cwnd s
  /\ LeoCubic.snd_ssthresh (snd r) = LeoCubic.snd_ssthresh s.
Proof.
  unfold LeoCubic.BICTCP_BETA_SCALE. intros Hb Hw Hnw. cbv zeta.
  unfold LeoCubic.cubictcp_recalc_ssthresh, LeoCubic.BICTCP_BETA_SCALE.
  cbv zeta. cbn [fst snd]. sock_simpl.
  set (w := LeoCubic.snd_cwnd s) in *. set (b := LeoCubic.beta g) in *.
  rewrite (to_u32_id (1024 + b)), (to_u32_id b) by (unfold is_u32; lia).
  rewrite (to_u32_id (w * (1024 + b))), (to_u32_id (w * b)) by (unfold is_u32; nia).
  rewrite (to_u32_id 1024), (to_u32_id (2 * 1024)) by (unfold is_u32; lia).
  assert (H1 : 0 <= w * b / 1024 <= w).
  { split; [ apply Z.div_pos; nia | apply Z.div_le_upper_bound; nia ]. }
  assert (H2 : 0 <= w * (1024 + b) / (2 * 1024) <= w).
  { split; [ apply Z.div_pos; nia | apply Z.div_le_upper_bound; nia ]. }
  split; [ lia | ].
  destruct (Z.ltb_spec w (LeoCubic.last_max_cwnd (LeoCubic.ca s)));
    destruct (Z.eqb_spec (LeoCubic.fast_convergence g) 0);
    cbn [negb andb]; sock_simpl; repeat split; auto; try lia; intros; lia.
Qed.

Lemma cubic_root_small_checked :
  forallb (fun a => (CubeRoot.cr_val a <=? 8)
                    && Bool.eqb (CubeRoot.cr_val a =? 0) (a =? 0))
          (CubeRoot.zrange 0 464) = true.
Proof. vm_compute. reflexivity. Qed.

(** [cubic_root] maps every 64-bit input to a number between 0 and 2641850
    (which fits in 22 bits), and to 0 only the input 0. *)
Theorem cubic_root_range (a r : Z) :
  0 <= a < 2 ^ 64 ->
  LeoCubic.cubic_root a = Ok r ->
  0 <= r <= 2641850 /\ (r = 0 <-> a = 0).
Proof.
  intros Ha Hr. destruct (cr_val_spec a Ha) as [Hc Hpos].
  rewrite Hr in Hc. injection Hc as ->.
  destruct (Z_lt_le_dec a 464) as [Hs | Hl].
  - pose proof cubic_root_small_checked as H. rewrite forallb_forall in H.
    specialize (H a (zrange_In 0 464 a ltac:(lia))).
    apply andb_true_iff in H as [H1 H2]. apply Z.leb_le in H1.
    apply Bool.eqb_prop in H2.
    split; [ lia | ].
    destruct (Z.eqb_spec (CubeRoot.cr_val a) 0), (Z.eqb_spec a 0);
      try discriminate; split; intros; auto; contradiction.
  - pose proof (cr_val_mono_from_464 464 a ltac:(lia) ltac:(lia)) as H1.
    pose proof (cr_val_mono_from_464 a (2 ^ 64 - 1) ltac:(lia) ltac:(lia)) as H2.
    assert (E1 : CubeRoot.cr_val 464 = 7) by (vm_compute; reflexivity).
    assert (E2 : CubeRoot.cr_val (2 ^ 64 - 1) = 2641850) by (vm_compute; reflexivity).
    rewrite E1 in H1. rewrite E2 in H2. split; [ lia | split; intros; lia ].
Qed.

Lemma leo_jiffies_at_resync (HZ : Z) (tv : PhaseClock.timespec64) (j : Z) :
  0 < HZ <= 1000000 ->
  0 <= PhaseClock.tv_sec tv -> 0 <= PhaseClock.tv_nsec tv < NSEC_PER_SEC ->
  PhaseClock.leo_jiffies HZ (PhaseClock.leo_jiffies_base_compute HZ tv j) j
  = PhaseClock.wall_phase HZ tv.
Proof.
  intros HHZ Hs Hn.
  pose proof (wall_phase_range HZ HHZ tv Hs Hn) as Hp.
  rewrite leo_jiffies_u64 by exact HHZ.
  assert (Hu : is_u64 (PhaseClock.wall_phase HZ tv))
    by (unfold is_u64, NSEC_PER_MIN, SEC_PER_MIN, NSEC_PER_SEC in *; lia).
  assert (E : to_u64 (PhaseClock.leo_jiffies_base_compute HZ tv j + j * NSEC_PER_SEC)
              = PhaseClock.wall_phase HZ tv).
  { rewrite <- to_u64_add, (base_compute_u64 HZ tv j Hs Hn), to_u64_add.
    rewrite <- (to_u64_id (PhaseClock.wall_phase HZ tv) Hu) at 2.
    unfold to_u64 at 2 3.
    rewrite (Z.mod_eq (PhaseClock.wall_phase HZ tv)), (Z.mod_eq (j * NSEC_PER_SEC)) by lia.
    apply to_u64_congr
      with (q := j * NSEC_PER_SEC / 2 ^ 64 - PhaseClock.wall_phase HZ tv / 2 ^ 64).
    ring. }
  rewrite E. apply Z.mod_small. exact Hp.
Qed.

(** Read at the instant of a resync, [leo_time] gives back the wall clock
    within the minute, to the nanosecond: the rounding by [HZ / 2] loses
    nothing. *)
Theorem leo_time_at_resync (HZ : Z) (tv : PhaseClock.timespec64) (j : Z) :
  0 < HZ <= 1000000 ->
  0 <= PhaseClock.tv_sec tv -> 0 <= PhaseClock.tv_nsec tv < NSEC_PER_SEC ->
  leo_time HZ (PhaseClock.leo_jiffies_base_compute HZ tv j) j
  = (PhaseClock.tv_sec tv mod SEC_PER_MIN) * NSEC_PER_SEC + PhaseClock.tv_nsec tv.
Proof.
  intros HHZ Hs Hn. unfold leo_time.
  rewrite leo_jiffies_at_resync by assumption.
  pose proof (wall_phase_range HZ HHZ tv Hs Hn) as Hp.
  unfold PhaseClock.wall_phase in *.
  set (ns := PhaseClock.tv_sec tv mod SEC_PER_MIN * NSEC_PER_SEC + PhaseClock.tv_nsec tv)
    in *.
  assert (Hq : 0 <= Z.quot HZ 2 < HZ).
  { rewrite Z.quot_div_nonneg by lia.
    split; [ apply Z.div_pos; lia | apply Z.div_lt; lia ]. }
  rewrite (to_u64_id (Z.quot HZ 2)), (to_u64_id HZ) by (unfold is_u64; lia).
  rewrite to_u64_id
    by (unfold is_u64, NSEC_PER_MIN, SEC_PER_MIN, NSEC_PER_SEC in *; lia).
  rewrite Z.add_comm, Z.div_add by lia.
  rewrite Z.div_small by lia. lia.
Qed.

(** ** The timer callbacks, release and module initialisation *)

Lemma leo_handover_forgets_timer (HZ : Z) (msecs_to_jiffies : Z -> Z)
    (start_ms end_ms now jiffies expires : Z) (sk : Leo.sock) :
  Leo.leo_handover HZ msecs_to_jiffies start_ms end_ms now jiffies
    (Leo.sk_reset_timer expires sk)
  = Leo.leo_handover HZ msecs_to_jiffies start_ms end_ms now jiffies sk.
Proof.
  unfold Leo.leo_handover, Leo.leo_handover_timer_reset, Leo.leo_handover_end,
    Leo.leo_handover_start, Leo.leo_suspend_transmission, Leo.leo_resume_transmission.
  cbv zeta. cbn.
  repeat match goal with
         | |- context [if ?c then _ else _] => destruct c; cbn
         end; reflexivity.
Qed.

(** The callback of [tcp_leo.c] on a socket the user owns touches nothing
    but the timer, which it arms one tick ahead; when that retry finds the
    socket free, the result is what a callback at the time of the retry
    gives on the untouched socket: the deferral loses nothing.  On a socket
    that is no longer established the callback arms no timer and leaves the
    window as it is, closed or not. *)
Theorem leo_callback_deferral (HZ : Z) (msecs_to_jiffies : Z -> Z)
    (start_ms end_ms now jiffies now' jiffies' : Z) (established : bool)
    (sk : Leo.sock) :
  let cb := Leo.leo_handover_cb HZ msecs_to_jiffies start_ms end_ms in
  let deferred := cb true established now jiffies sk in
  (Leo.snd_cwnd deferred = Leo.snd_cwnd sk
   /\ Leo.icsk_timeout deferred = Leo.icsk_timeout sk
   /\ Leo.write_space_calls deferred = Leo.write_space_calls sk
   /\ Leo.handover_timer deferred = Some (to_u64 (jiffies + 1)))
  /\ cb false true now' jiffies' deferred = cb false true now' jiffies' sk
  /\ (Leo.snd_cwnd (cb false false now jiffies sk) = Leo.snd_cwnd sk
      /\ Leo.handover_timer (cb false false now jiffies sk) = None
      /\ cb false false now' jiffies' deferred = cb false false now' jiffies' sk).
Proof.
  cbv zeta. unfold Leo.leo_handover_cb. cbn [negb].
  split; [ repeat split | split; [ apply leo_handover_forgets_timer | repeat split ] ].
Qed.

(** The callback of [tcp_leo_cubic.c] on a socket the user owns does not
    arm the timer again and runs no handover step: it changes nothing but
    the flag [handover_free_pending], and a second such callback changes
    nothing at all.  [leo_release] then stops the timer and clears the
    flag without restoring the window: a socket released while suspended,
    or right after [leo_handover_start], keeps a window of 0. *)
Theorem cubic_callback_on_owned_socket (k : LeoCubic.kernel) (g : LeoCubic.globals)
    (phase jiffies : Z) (s : LeoCubic.sock) :
  let s' := LeoCubic.leo_handover_cb k g true phase jiffies s in
  (LeoCubic.snd_cwnd s' = LeoCubic.snd_cwnd s
   /\ LeoCubic.icsk_timeout s' = LeoCubic.icsk_timeout s
   /\ LeoCubic.handover_timer s' = LeoCubic.handover_timer s
   /\ LeoCubic.last_cwnd (LeoCubic.ca s') = LeoCubic.last_cwnd (LeoCubic.ca s)
   /\ LeoCubic.handover_free_pending (LeoCubic.ca s') = true)
  /\ LeoCubic.leo_handover_cb k g true phase jiffies s' = s'
  /\ (LeoCubic.snd_cwnd (LeoCubic.leo_release s') = LeoCubic.snd_cwnd s
      /\ LeoCubic.handover_timer (LeoCubic.leo_release s') = None
      /\ LeoCubic.handover_free_pending (LeoCubic.ca (LeoCubic.leo_release s')) = false)
  /\ LeoCubic.snd_cwnd (LeoCubic.leo_release (LeoCubic.leo_handover_start s)) = 0.
Proof.
  cbv zeta. unfold LeoCubic.leo_handover_cb. cbn [negb].
  destruct (LeoCubic.handover_free_pending (LeoCubic.ca s)) eqn:Hp; cbn [negb].
  - rewrite Hp. cbn [negb].
    repeat split; auto. apply cubic_start_cwnd.
  - sock_simpl. cbn [negb].
    repeat split; auto. apply cubic_start_cwnd.
Qed.

(** What [cubictcp_register] derives from the module parameters.  For
    [0 <= beta < 1024] and [26 <= bic_scale <= 2098] (the defaults are 717
    and 41): [beta_scale] lies between 2 and 5458, so that one step of the
    standard-TCP estimate costs at least one acknowledgement for every
    window from 4 to 786000 segments; [cube_factor] is [2^40 / (10 *
    bic_scale)], fits in 32 bits and is at least [accurate_from], the range
    where the cube root is accurate.  The parameters themselves are not
    changed. *)
Theorem register_scales (g : LeoCubic.globals) :
  0 <= LeoCubic.beta g < LeoCubic.BICTCP_BETA_SCALE ->
  26 <= LeoCubic.bic_scale g <= 2098 ->
  let g' := LeoCubic.cubictcp_register g in
  2 <= LeoCubic.beta_scale g' <= 5458
  /\ (forall cwnd, 4 <= cwnd <= 786000 ->
        8 <= to_u32 (cwnd * LeoCubic.beta_scale g'))
  /\ LeoCubic.cube_rtt_scale g' = 10 * LeoCubic.bic_scale g
  /\ LeoCubic.cube_factor g' = 2 ^ 40 / (10 * LeoCubic.bic_scale g)
  /\ CubeRoot.accurate_from <= LeoCubic.cube_factor g' <= 2 ^ 32
  /\ (LeoCubic.beta g' = LeoCubic.beta g
      /\ LeoCubic.bic_scale g' = LeoCubic.bic_scale g
      /\ LeoCubic.tcp_friendliness g' = LeoCubic.tcp_friendliness g
      /\ LeoCubic.fast_convergence g' = LeoCubic.fast_convergence g
      /\ LeoCubic.starlink_handover_start_ms g' = LeoCubic.starlink_handover_start_ms g
      /\ LeoCubic.starlink_handover_end_ms g' = LeoCubic.starlink_handover_end_ms g).
Proof.
  unfold LeoCubic.BICTCP_BETA_SCALE. intros Hb Hs. cbv zeta.
  unfold LeoCubic.cubictcp_register.
  cbn [LeoCubic.beta_scale LeoCubic.cube_rtt_scale LeoCubic.cube_factor LeoCubic.beta
       LeoCubic.bic_scale LeoCubic.tcp_friendliness LeoCubic.fast_convergence
       LeoCubic.starlink_handover_start_ms LeoCubic.starlink_handover_end_ms].
  unfold LeoCubic.register_beta_scale, LeoCubic.register_cube_rtt_scale,
    LeoCubic.register_cube_factor, LeoCubic.BICTCP_BETA_SCALE, LeoCubic.BICTCP_HZ.
  set (b := LeoCubic.beta g) in *. set (sc := LeoCubic.bic_scale g) in *.
  assert (Hq : 2 <= Z.quot (Z.quot (8 * (1024 + b)) 3) (1024 - b) <= 5458).
  { rewrite (Z.quot_div_nonneg (8 * (1024 + b)) 3) by lia.
    assert (H3 : 0 <= 8 * (1024 + b) / 3) by (apply Z.div_pos; lia).
    rewrite Z.quot_div_nonneg by lia.
    split.
    - apply Z.div_le_lower_bound; [ lia | ].
      apply Z.div_le_lower_bound; lia.
    - apply Z.le_trans with (8 * (1024 + b) / 3).
      + apply Z.div_le_upper_bound; [ lia | ]. nia.
      + apply Z.lt_succ_r. apply Z.div_lt_upper_bound; lia. }
  rewrite (to_u32_id (Z.quot _ _)) by (unfold is_u32; lia).
  rewrite (Z.mul_comm sc 10).
  rewrite (to_u32_id (10 * sc)) by (unfold is_u32; lia).
  change (Z.shiftl 1 (10 + 3 * 10)) with (2 ^ 40).
  split; [ exact Hq | split; [ | split; [ reflexivity | split; [ reflexivity | split ] ] ] ].
  - intros cwnd Hc. rewrite to_u32_id by (unfold is_u32; nia). nia.
  - unfold CubeRoot.accurate_from. split.
    + apply Z.div_le_lower_bound; lia.
    + apply Z.div_le_upper_bound; lia.
  - repeat split.
Qed.

(** ** The further properties at concrete inputs *)

(** [HZ = 1000] with the default offsets: the window is [11.8 s, 12.2 s]
    of each 15 s period, and the clock reads "handover" at 27 s. *)
Lemma handover_window_geometry_witness :
  (0 < 1000 <= 1000000 /\ is_int 200 /\ is_int 200)
  /\ HANDOVER_END 1000 200 < HANDOVER_INTERVAL 1000
  /\ PhaseClock.is_leo_handover 1000 200 200
       (12000 * (NSEC_PER_MSEC * 1000) + 1 * HANDOVER_INTERVAL 1000) = true.
Proof.
  split; [ unfold is_int; lia | ].
  destruct (handover_window_geometry 1000 200 200 ltac:(lia)
              ltac:(unfold is_int; lia) ltac:(unfold is_int; lia))
    as ((_ & _ & H1) & H2 & _).
  split; [ exact H1 | exact (H2 1) ].
Defined.

(** 5 s into the period the timer is armed 6800 ticks ahead, for the start
    of the window at 11.8 s. *)
Lemma handover_timer_delay_witness :
  (0 < 1000 <= 1000000 /\ is_int 200 /\ is_int 200)
  /\ 1 <= handover_timo 1000 200 200 phase_outside_window <= 15 * 1000
  /\ LeoCubic.handover_timer
       (LeoCubic.leo_handover_cb kernel_hz1000 LeoCubic.default_globals false
          phase_outside_window 5000 cubic_sock_40)
     = Some (to_u64 (5000 + handover_timo 1000 200 200 phase_outside_window))
  /\ Leo.handover_timer
       (Leo.leo_handover_cb 1000 msecs_to_jiffies_hz1000 200 200 false true
          phase_outside_window 5000 leo_sock_40)
     = Some (to_u64 (5000 + handover_timo 1000 200 200 phase_outside_window)).
Proof.
  split; [ unfold is_int; lia | ].
  destruct (handover_timer_delay 1000 200 200 ltac:(lia)
              ltac:(unfold is_int; lia) ltac:(unfold is_int; lia) phase_outside_window)
    as (H1 & _ & H2 & H3).
  split; [ exact H1 | split ].
  - exact (proj2 (proj2 (H3 (LeoCubic.usecs_to_jiffies kernel_hz1000)
                            LeoCubic.default_globals 5000 cubic_sock_40
                            eq_refl eq_refl))).
  - exact (proj2 (proj2 (H2 5000 leo_sock_40 msecs_to_jiffies_hz1000))).
Defined.

(** A callback at 12 s closes the window of both kinds of socket. *)
Lemma handover_callback_sets_gate_witness :
  (0 < 1000 <= 1000000 /\ is_int 200 /\ is_int 200)
  /\ (HANDOVER_START 1000 200
      <= phase_inside_window mod HANDOVER_INTERVAL 1000 + 10 * (NSEC_PER_MSEC * 1000)
      < HANDOVER_END 1000 200)
  /\ LeoCubic.snd_cwnd
       (LeoCubic.leo_handover kernel_hz1000 LeoCubic.default_globals
          phase_inside_window 5000 cubic_sock_40) = 0
  /\ Leo.snd_cwnd
       (Leo.leo_handover 1000 msecs_to_jiffies_hz1000 200 200
          phase_inside_window 5000 leo_sock_40) = 0.
Proof.
  split; [ unfold is_int; lia | ].
  split; [ vm_compute; split; [ discriminate | reflexivity ] | ].
  destruct (handover_callback_sets_gate 1000 200 200 ltac:(lia)
              ltac:(unfold is_int; lia) ltac:(unfold is_int; lia)
              phase_inside_window 5000) as [H1 H2].
  split.
  - apply (H1 cubic_sock_40 (LeoCubic.usecs_to_jiffies kernel_hz1000)
              LeoCubic.default_globals eq_refl eq_refl).
    vm_compute. split; [ discriminate | reflexivity ].
  - apply (H2 leo_sock_40 msecs_to_jiffies_hz1000).
    vm_compute. split; [ discriminate | reflexivity ].
Defined.

(** An acknowledgement that arrives at 12 s, inside the window. *)
Lemma cong_avoid_during_handover_witness :
  LeoCubic.is_starlink_handover kernel_hz1000 LeoCubic.default_globals
    phase_inside_window = true
  /\ exists s',
       LeoCubic.cubictcp_cong_avoid kernel_hz1000 LeoCubic.default_globals
         (fun s acked => (s, acked)) (fun s _ _ => Ok s) true
         phase_inside_window 5000 cubic_sock_40 1 = Ok s'
       /\ LeoCubic.snd_cwnd s' = 0
       /\ LeoCubic.last_cwnd (LeoCubic.ca s') = 40.
Proof.
  split; [ reflexivity | ].
  destruct (cong_avoid_during_handover kernel_hz1000 LeoCubic.default_globals
              (fun s acked => (s, acked)) (fun s _ _ => Ok s)
              phase_inside_window 5000 cubic_sock_40 1 eq_refl)
    as (s' & H1 & H2 & _ & _ & _ & _ & _ & H3).
  exists s'. split; [ exact H1 | split; [ exact H2 | ] ].
  apply H3. vm_compute. discriminate.
Defined.


(** The suspended socket of the example above held a saved window of 10;
    after a reset of the congestion state the resume gives 1. *)
Lemma loss_reset_drops_saved_window_witness :
  (LeoCubic.snd_cwnd cubic_sock_adopted = 0
   /\ LeoCubic.last_cwnd (LeoCubic.ca cubic_sock_adopted) = 10)
  /\ LeoCubic.snd_cwnd
       (LeoCubic.leo_handover_end
          (LeoCubic.cubictcp_state LeoCubic.TCP_CA_Loss cubic_sock_adopted)) = 1.
Proof.
  split; [ split; reflexivity | ].
  exact (proj1 (proj2 (loss_reset_drops_saved_window cubic_sock_adopted eq_refl))).
Defined.

(** A first sample of 0 is taken for 1. *)
Lemma acked_delay_min_witness :
  (- 2 ^ 31 <= 0 < 2 ^ 31)
  /\ LeoCubic.delay_min
       (LeoCubic.ca (LeoCubic.cubictcp_acked kernel_hz1000 LeoCubic.default_globals
                       0 cubic_sock_slow_start 0)) = 1.
Proof.
  split; [ lia | ].
  destruct (acked_delay_min kernel_hz1000 LeoCubic.default_globals 0
              cubic_sock_slow_start 0 ltac:(lia)) as (_ & _ & H).
  apply (H ltac:(lia)). left. reflexivity.
Defined.

(** Eight samples far above the minimum delay, with the ack-train detector
    off: the exit is not marked. *)
Lemma delay_detector_needs_eight_samples_witness :
  (Z.land (LeoCubic.hystart_detect globals_delay_only) LeoCubic.HYSTART_ACK_TRAIN = 0
   /\ 0 <= LeoCubic.sample_cnt (LeoCubic.ca cubic_sock_slow_round)
   /\ LeoCubic.sample_cnt (LeoCubic.ca cubic_sock_slow_round)
      + Z.of_nat (length eight_slow_samples) <= LeoCubic.HYSTART_MIN_SAMPLES)
  /\ LeoCubic.found
       (LeoCubic.ca (hystart_run globals_delay_only eight_slow_samples
                       cubic_sock_slow_round)) = 0
  /\ LeoCubic.snd_ssthresh
       (hystart_run globals_delay_only eight_slow_samples cubic_sock_slow_round)
     = LeoCubic.TCP_INFINITE_SSTHRESH.
Proof.
  split; [ vm_compute; repeat split; discriminate | ].
  apply (delay_detector_needs_eight_samples globals_delay_only eight_slow_samples
           eq_refl cubic_sock_slow_round);
    vm_compute; discriminate.
Defined.

(** At 100 MB/s the allowance is 1 ms. *)
Lemma hystart_ack_delay_capped_witness :
  0 <= LeoCubic.sk_pacing_rate cubic_sock_paced
  /\ 0 <= LeoCubic.hystart_ack_delay cubic_sock_paced <= LeoCubic.USEC_PER_MSEC.
Proof.
  split; [ vm_compute; discriminate | ].
  apply (hystart_ack_delay_capped cubic_sock_paced). vm_compute. discriminate.
Defined.

(** Ten acknowledgements at a cost of 3 each: three steps, one left. *)
Lemma tcp_cwnd_loop_credit_witness :
  (0 < 3 /\ 0 <= 10 < 2 ^ 32 /\ 0 <= 5 < 2 ^ 32)
  /\ exists ack' tcw',
       LeoCubic.tcp_cwnd_loop (Z.to_nat 10) 3 10 5 = Ok (ack', tcw')
       /\ tcw' = to_u32 (5 + (10 - ack') / 3)
       /\ (0 < 10 -> 0 < ack' <= 3).
Proof.
  split; [ lia | ].
  destruct (tcp_cwnd_loop_credit 3 10 5 ltac:(lia) ltac:(lia) ltac:(lia))
    as (ack' & tcw' & H1 & H2 & _ & _ & H3).
  exists ack', tcw'. split; [ exact H1 | split; [ exact H2 | exact H3 ] ].
Defined.

(** With the default parameters an update at window 40 returns. *)
Lemma bictcp_update_returns_witness :
  (0 <= 1 < 2 ^ 32
   /\ 8 <= to_u32 (40 * LeoCubic.beta_scale LeoCubic.default_globals))
  /\ exists c',
       LeoCubic.bictcp_update kernel_hz1000 LeoCubic.default_globals 7000
         (LeoCubic.ca cubic_sock_loss) 40 1 = Ok c'.
Proof.
  split; [ vm_compute; repeat split; discriminate | ].
  apply (bictcp_update_returns kernel_hz1000 LeoCubic.default_globals 7000
           (LeoCubic.ca cubic_sock_loss) 40 1 ltac:(lia)).
  right. vm_compute. discriminate.
Defined.

(** With the default parameters an update at window 0, on the state of the
    socket suspended above, does not return. *)
Lemma bictcp_update_hangs_witness :
  (LeoCubic.tcp_friendliness LeoCubic.default_globals <> 0
   /\ to_u32 (0 * LeoCubic.beta_scale LeoCubic.default_globals) < 8
   /\ 0 < 1 < 2 ^ 32
   /\ LeoCubic.epoch_start (LeoCubic.ca cubic_sock_adopted) = 0
   /\ LeoCubic.last_cwnd (LeoCubic.ca cubic_sock_adopted) <> 0)
  /\ LeoCubic.bictcp_update kernel_hz1000 LeoCubic.default_globals 7000
       (LeoCubic.ca cubic_sock_adopted) 0 1 = Fault Diverges.
Proof.
  split; [ vm_compute; repeat split; discriminate | ].
  apply (bictcp_update_hangs kernel_hz1000 LeoCubic.default_globals 7000
           (LeoCubic.ca cubic_sock_adopted) 0 1);
    vm_compute; try reflexivity; try discriminate.
  split; reflexivity.
Defined.

(** The socket of the loss example (window 50), 7 s after boot: the tick
    counter is still negative as a signed number.  Straight after the reset
    the update opens an epoch; after a suspension and resume in between it
    returns early with [cnt = 0]. *)
Lemma first_update_after_reset_witness :
  let now := jiffies_at_boot + 7000 in
  let reset := LeoCubic.cubictcp_state LeoCubic.TCP_CA_Loss cubic_sock_loss in
  let resumed := LeoCubic.leo_handover_end (LeoCubic.leo_handover_start reset) in
  (1 <= 50 < 2 ^ 32 /\ 0 <= 1 < 2 ^ 32
   /\ 8 <= to_u32 (50 * LeoCubic.beta_scale LeoCubic.default_globals)
   /\ LeoCubic.snd_cwnd cubic_sock_loss = 50
   /\ to_s32 now <= Z.quot (LeoCubic.HZ kernel_hz1000) 32)
  /\ (exists c',
        LeoCubic.bictcp_update kernel_hz1000 LeoCubic.default_globals now
          (LeoCubic.ca reset) 50 1 = Ok c'
        /\ LeoCubic.epoch_start c' = now
        /\ LeoCubic.bic_K c' = 0 /\ LeoCubic.bic_origin_point c' = 50
        /\ 2 <= LeoCubic.cnt c' <= 20)
  /\ LeoCubic.snd_cwnd resumed = 50
  /\ (exists c',
        LeoCubic.bictcp_update kernel_hz1000 LeoCubic.default_globals now
          (LeoCubic.ca resumed) 50 1 = Ok c'
        /\ LeoCubic.cnt c' = 0 /\ LeoCubic.epoch_start c' = 0).
Proof.
  cbv zeta.
  split; [ vm_compute; repeat split; discriminate | ].
  destruct (first_update_after_reset kernel_hz1000 LeoCubic.default_globals
              (jiffies_at_boot + 7000) cubic_sock_loss 50 1 ltac:(lia) ltac:(lia)
              ltac:(right; vm_compute; discriminate))
    as ((c' & H1 & _ & _ & H2 & H3 & H4 & H5) & Hs).
  destruct (Hs eq_refl) as (Hw & _ & Hearly).
  destruct (Hearly ltac:(vm_compute; discriminate)) as (c2 & G1 & G2 & G3 & _).
  split; [ exists c'; repeat split; try assumption; apply H5 | ].
  split; [ exact Hw | ].
  exists c2. repeat split; assumption.
Defined.


(** The loss event of [cubic_sock_loss]: window 50, threshold 35, maximum
    lowered from 80 to 42. *)
Lemma recalc_ssthresh_bounds_witness :
  (0 <= LeoCubic.beta LeoCubic.default_globals <= LeoCubic.BICTCP_BETA_SCALE
   /\ 0 <= LeoCubic.snd_cwnd cubic_sock_loss
   /\ LeoCubic.snd_cwnd cubic_sock_loss
      * (LeoCubic.BICTCP_BETA_SCALE + LeoCubic.beta LeoCubic.default_globals) < 2 ^ 32)
  /\ 2 <= fst (LeoCubic.cubictcp_recalc_ssthresh LeoCubic.default_globals cubic_sock_loss)
     <= Z.max 2 (LeoCubic.snd_cwnd cubic_sock_loss)
  /\ LeoCubic.last_max_cwnd
       (LeoCubic.ca (snd (LeoCubic.cubictcp_recalc_ssthresh LeoCubic.default_globals
                            cubic_sock_loss)))
     <= LeoCubic.snd_cwnd cubic_sock_loss.
Proof.
  split; [ vm_compute; repeat split; discriminate | ].
  destruct (recalc_ssthresh_bounds LeoCubic.default_globals cubic_sock_loss)
    as (H1 & H2 & _); try (vm_compute; split; discriminate);
    try (vm_compute; discriminate); try (vm_compute; reflexivity).
  split; [ exact H1 | exact H2 ].
Defined.

(** The cube root of 10^9. *)
Lemma cubic_root_range_witness :
  (0 <= 1000000000 < 2 ^ 64 /\ LeoCubic.cubic_root 1000000000 = Ok 1000)
  /\ 0 <= 1000 <= 2641850 /\ (1000 = 0 <-> 1000000000 = 0).
Proof.
  split; [ split; [ lia | reflexivity ] | ].
  apply (cubic_root_range 1000000000 1000); [ lia | reflexivity ].
Defined.

(** A resync 17.25 s into a minute. *)
Lemma leo_time_at_resync_witness :
  (0 < 1000 <= 1000000
   /\ 0 <= PhaseClock.tv_sec wall_17s
   /\ 0 <= PhaseClock.tv_nsec wall_17s < NSEC_PER_SEC)
  /\ leo_time 1000 (PhaseClock.leo_jiffies_base_compute 1000 wall_17s 86400000) 86400000
     = 17250000000.
Proof.
  split; [ vm_compute; repeat split; discriminate | ].
  rewrite (leo_time_at_resync 1000 wall_17s 86400000);
    vm_compute; try reflexivity; try split; try discriminate; reflexivity.
Defined.

(** The parameters the file starts with. *)
Lemma register_scales_witness :
  let g := LeoCubic.mk_globals 1 717 0 41 1 1
             (Z.lor LeoCubic.HYSTART_ACK_TRAIN LeoCubic.HYSTART_DELAY) 16 2000
             HANDOVER_OFFSET_DEFAULT HANDOVER_OFFSET_DEFAULT 0 0 0 in
  (0 <= LeoCubic.beta g < LeoCubic.BICTCP_BETA_SCALE
   /\ 26 <= LeoCubic.bic_scale g <= 2098)
  /\ 2 <= LeoCubic.beta_scale (LeoCubic.cubictcp_register g) <= 5458
  /\ CubeRoot.accurate_from <= LeoCubic.cube_factor (LeoCubic.cubictcp_register g)
     <= 2 ^ 32.
Proof.
  cbv zeta.
  split; [ vm_compute; repeat split; discriminate | ].
  destruct (register_scales
              (LeoCubic.mk_globals 1 717 0 41 1 1
                 (Z.lor LeoCubic.HYSTART_ACK_TRAIN LeoCubic.HYSTART_DELAY) 16 2000
                 HANDOVER_OFFSET_DEFAULT HANDOVER_OFFSET_DEFAULT 0 0 0))
    as (H1 & _ & _ & _ & H2 & _);
    try (vm_compute; split; [ discriminate | reflexivity ]);
    try (vm_compute; split; discriminate).
  split; [ exact H1 | exact H2 ].
Defined.
